(** * go_ami_tools: the [aws_bundle] package

    A shallow embedding of the bundle pipeline of [aws_bundle]
    (tar framing, gzip, AES-128-CBC, chunking, per-part hashing) and of
    the manifest builder, together with the properties of the
    specification that were checked against it.

    Conventions.
    - A Go [[]byte] is a [list byte]; [len(p)] is [Z.of_nat (length p)].
    - Go's [int] and [int64] are 64-bit two's complement; the counters
      that the code increments are wrapped with [wrap64].
    - A Go [error] is its message; [option error] is an [error] that may
      be [nil].
    - A call either returns, panics (a slice expression out of range, an
      explicit [panic]) or does not return; see [outcome].
    - A struct that holds an [io.Writer] holds, here, the state of that
      writer: the pipeline is a nest of records, and a pointer that the
      Go code keeps to an inner stage is a path into the nest. *)

From Stdlib Require Import ZArith Lia.
From Stdlib.Strings Require Import Ascii String Byte.
From stdpp Require Import base option list strings gmap pretty.

Local Open Scope Z_scope.

(** ** Outcomes of a call *)

Inductive outcome (A : Type) : Type :=
| Ret (a : A)
| Panic (msg : string)
| Diverge.
Arguments Ret {A} a.
Arguments Panic {A} msg.
Arguments Diverge {A}.

#[global] Instance outcome_ret : MRet outcome := @Ret.
#[global] Instance outcome_bind : MBind outcome := λ A B f m,
  match m with
  | Ret a => f a
  | Panic msg => Panic msg
  | Diverge => Diverge
  end.

Definition error := string.

(** The pair [(n int, err error)] that [Write] returns. *)
Definition wres : Type := Z * option error.

(** ** Bytes, slices and fixed-width integers *)

Definition len {A} (p : list A) : Z := Z.of_nat (length p).

Definition byte_to_Z (b : byte) : Z := Z.of_N (Byte.to_N b).
Definition byte_of_Z (z : Z) : byte :=
  default "000"%byte (Byte.of_N (Z.to_N (z mod 256))).

#[global] Instance byte_eq_dec : EqDecision byte := Byte.byte_eq_dec.

(** [int64(x)] and [int] arithmetic: two's complement on 64 bits. *)
Definition wrap64 (z : Z) : Z := (z + 2 ^ 63) mod 2 ^ 64 - 2 ^ 63.

(** [p[:x]] and [p[x:]]; both panic outside [0 <= x <= len(p)]. *)
Definition slice_to {A} (p : list A) (x : Z) : outcome (list A) :=
  if decide (0 <= x <= len p) then Ret (take (Z.to_nat x) p)
  else Panic "slice bounds out of range".
Definition slice_from {A} (p : list A) (x : Z) : outcome (list A) :=
  if decide (0 <= x <= len p) then Ret (drop (Z.to_nat x) p)
  else Panic "slice bounds out of range".

(** [make([]byte, n)] overwritten from its start by [src]: the
    destination keeps its length. *)
Definition fill (n : nat) (src : list byte) : list byte :=
  take n (src ++ replicate n "000"%byte).

(** ** [io.Writer] and [io.Closer] *)

Class io_Writer (T : Type) := io_Write : T → list byte → outcome (T * wres).
Class io_Closer (T : Type) := io_Close : T → outcome (T * option error).
#[global] Hint Mode io_Writer ! : typeclass_instances.
#[global] Hint Mode io_Closer ! : typeclass_instances.

(** The contract of [io.Writer]: [0 <= n <= len(p)], and a short count
    comes with an error. *)
Definition conforming (p : list byte) (r : wres) : Prop :=
  0 <= r.1 <= len p ∧ (r.2 = None → r.1 = len p).

(** ** crypto/aes and crypto/cipher (standard library, FIPS-197)

    The cipher works on bytes as integers in [0, 256). *)

Module AES.

Definition xtime (b : Z) : Z :=
  Z.land (Z.lxor (Z.shiftl b 1) (if Z.testbit b 7 then 27 else 0)) 255.

Fixpoint gmul_go (n : nat) (a b : Z) : Z :=
  match n with
  | O => 0
  | S n' => Z.lxor (if Z.testbit b 0 then a else 0)
                   (gmul_go n' (xtime a) (Z.shiftr b 1))
  end.
Definition gmul : Z → Z → Z := gmul_go 8.

(** The multiplicative inverse in GF(2^8) is the 254th power. *)
Definition ginv (a : Z) : Z :=
  let a2 := gmul a a in let a4 := gmul a2 a2 in let a8 := gmul a4 a4 in
  let a16 := gmul a8 a8 in let a32 := gmul a16 a16 in
  let a64 := gmul a32 a32 in let a128 := gmul a64 a64 in
  gmul a128 (gmul a64 (gmul a32 (gmul a16 (gmul a8 (gmul a4 a2))))).

Definition rotl8 (b : Z) (k : Z) : Z :=
  Z.land (Z.lor (Z.shiftl b k) (Z.shiftr b (8 - k))) 255.

Definition sbox_calc (a : Z) : Z :=
  let s := ginv a in
  Z.lxor (Z.lxor (Z.lxor (Z.lxor (Z.lxor s (rotl8 s 1)) (rotl8 s 2))
                         (rotl8 s 3)) (rotl8 s 4)) 99.

Definition sbox_table : list Z :=
  Eval vm_compute in map (λ i, sbox_calc (Z.of_nat i)) (seq 0 256).

Definition sbox (a : Z) : Z := nth (Z.to_nat a) sbox_table 0.

Definition xor_bytes (a b : list Z) : list Z := zip_with Z.lxor a b.

Definition SubWord : list Z → list Z := map sbox.
Definition RotWord (w : list Z) : list Z := drop 1 w ++ take 1 w.

Fixpoint Rcon (j : nat) : Z :=
  match j with
  | O => 0
  | S O => 1
  | S j' => xtime (Rcon j')
  end.

(** [expand Nk cnt ws] appends [cnt] words to the key schedule [ws]. *)
Fixpoint expand (Nk : nat) (cnt : nat) (ws : list (list Z)) : list (list Z) :=
  match cnt with
  | O => ws
  | S cnt' =>
      let i := length ws in
      let prev := nth (i - 1) ws [] in
      let temp :=
        if decide (i mod Nk = 0)%nat
        then xor_bytes (SubWord (RotWord prev)) [Rcon (i / Nk); 0; 0; 0]
        else if decide (6 < Nk ∧ i mod Nk = 4)%nat then SubWord prev
        else prev in
      expand Nk cnt' (ws ++ [xor_bytes (nth (i - Nk) ws []) temp])
  end.

Fixpoint words (n : nat) (l : list Z) : list (list Z) :=
  match n with
  | O => []
  | S n' => take 4 l :: words n' (drop 4 l)
  end.

Definition KeyExpansion (key : list Z) : list (list Z) :=
  let Nk := (length key / 4)%nat in
  expand Nk (4 * (Nk + 7) - Nk) (words Nk key).

Definition round_key (ws : list (list Z)) (r : nat) : list Z :=
  concat (take 4 (drop (4 * r) ws)).

Definition SubBytes : list Z → list Z := map sbox.

Definition ShiftRows (s : list Z) : list Z :=
  map (λ i, nth ((i mod 4) + 4 * ((i / 4 + i mod 4) mod 4)) s 0) (seq 0 16).

Definition mix_column (c : list Z) : list Z :=
  match c with
  | [a0; a1; a2; a3] =>
      [ Z.lxor (Z.lxor (gmul 2 a0) (gmul 3 a1)) (Z.lxor a2 a3);
        Z.lxor (Z.lxor a0 (gmul 2 a1)) (Z.lxor (gmul 3 a2) a3);
        Z.lxor (Z.lxor a0 a1) (Z.lxor (gmul 2 a2) (gmul 3 a3));
        Z.lxor (Z.lxor (gmul 3 a0) a1) (Z.lxor a2 (gmul 2 a3)) ]
  | _ => c
  end.

Definition MixColumns (s : list Z) : list Z :=
  concat (map mix_column (words 4 s)).

Fixpoint rounds (ws : list (list Z)) (r cnt : nat) (s : list Z) : list Z :=
  match cnt with
  | O => s
  | S cnt' =>
      rounds ws (S r) cnt'
        (xor_bytes (MixColumns (ShiftRows (SubBytes s))) (round_key ws r))
  end.

(** [Block.Encrypt]: one 16-byte block under [key] (16, 24 or 32 bytes). *)
Definition Encrypt (key : list Z) (blk : list Z) : list Z :=
  let ws := KeyExpansion key in
  let Nr := (length key / 4 + 6)%nat in
  let s := rounds ws 1 (Nr - 1) (xor_bytes blk (round_key ws 0)) in
  xor_bytes (ShiftRows (SubBytes s)) (round_key ws Nr).

End AES.

(** [cipher.NewCBCEncrypter(c, iv)]: the block mode keeps the key of
    its block cipher and the running IV. *)
Record cbcEncrypter := { cbc_key : list byte; cbc_iv : list byte }.

Definition aes_NewCipher (key : list byte) : cbcEncrypter + error :=
  if decide (length key = 16 ∨ length key = 24 ∨ length key = 32)%nat
  then inl {| cbc_key := key; cbc_iv := [] |}
  else inr ("crypto/aes: invalid key size " +:+ pretty (len key)).

Definition cipher_NewCBCEncrypter (c : cbcEncrypter) (iv : list byte)
  : outcome cbcEncrypter :=
  if decide (length iv = 16%nat)
  then Ret {| cbc_key := cbc_key c; cbc_iv := iv |}
  else Panic "cipher.NewCBCEncrypter: IV length must equal block size".

(** [c.Encrypt(dst, src)] with a 16-byte [dst]. *)
Definition aes_block (key blk : list byte) : list byte :=
  fill 16 (map byte_of_Z (AES.Encrypt (map byte_to_Z key) (map byte_to_Z blk))).

Definition xor_block (a b : list byte) : list byte :=
  zip_with (λ x y, byte_of_Z (Z.lxor (byte_to_Z x) (byte_to_Z y))) a b.

(** CBC over [n] blocks of [src]; returns the blocks and the last
    ciphertext block, which is the next IV. *)
Fixpoint cbc_blocks (key : list byte) (n : nat) (iv src : list byte)
  : list byte * list byte :=
  match n with
  | O => ([], iv)
  | S n' =>
      let c := aes_block key (xor_block (take 16 src) iv) in
      let '(rest, iv') := cbc_blocks key n' c (drop 16 src) in
      (c ++ rest, iv')
  end.

(** [cbc.CryptBlocks(dst, src)] with [dst = make([]byte, len(src))].
    The result is [dst]; the mode panics on a partial block. *)
Definition CryptBlocks (c : cbcEncrypter) (src : list byte)
  : outcome (cbcEncrypter * list byte) :=
  if decide (length src mod 16 = 0)%nat then
    let '(out, iv') := cbc_blocks (cbc_key c) (length src / 16) (cbc_iv c) src in
    Ret ({| cbc_key := cbc_key c; cbc_iv := iv' |}, fill (length src) out)
  else Panic "crypto/cipher: input not full blocks".

(** Bytes given as integers and as lowercase hexadecimal. *)
Definition bytes_of (l : list Z) : list byte := map byte_of_Z l.

Definition hex_digit (n : Z) : ascii :=
  nth (Z.to_nat n) (list_ascii_of_string "0123456789abcdef") "0"%char.

(** [fmt.Sprintf("%x", b)] for a byte slice [b]. *)
Fixpoint hex (b : list byte) : string :=
  match b with
  | [] => EmptyString
  | x :: b' =>
      String (hex_digit (byte_to_Z x / 16))
        (String (hex_digit (byte_to_Z x mod 16)) (hex b'))
  end.

Definition is_lower_hex (s : string) : Prop :=
  Forall (λ c, c ∈ list_ascii_of_string "0123456789abcdef") (list_ascii_of_string s).

(** [[]byte(s)] *)
Definition bytes_of_string (s : string) : list byte := list_byte_of_string s.

(** ** [bytes.Buffer] as a writer (used by the package's tests) *)

#[global] Instance Buffer_Write : io_Writer (list byte) := λ b p,
  Ret (b ++ p, (len p, None)).

(** ** aes_cbc_writer.go *)

Record aesCbcWriter (D : Type) := {
  aes_w : D;
  aes_buffer : list byte; (* accumulates writes of partial blocks *)
  aes_cbc : option cbcEncrypter
}.
Arguments aes_w {D} _.
Arguments aes_buffer {D} _.
Arguments aes_cbc {D} _.

Section AesCbcWriter.
Context {D : Type} `{!io_Writer D}.

Definition newAes128CbcWriter (w : D) (key iv : list byte)
  : outcome (aesCbcWriter D + error) :=
  match aes_NewCipher key with
  | inr err => Ret (inr err)
  | inl c =>
      cbc ← cipher_NewCBCEncrypter c iv;
      Ret (inl {| aes_w := w; aes_buffer := []; aes_cbc := Some cbc |})
  end.

(** Write as many full blocks as possible, returning the number of
    bytes written. *)
Definition aesCbcWriter_writeBlocks (a : aesCbcWriter D) (plaintext : list byte)
  : outcome (aesCbcWriter D * wres) :=
  let bytes := (len plaintext / 16) * 16 in
  match aes_cbc a with
  | None => Panic "invalid memory address or nil pointer dereference"
  | Some cbc =>
      src ← slice_to plaintext bytes;
      '(cbc', ciphertext) ← CryptBlocks cbc src;
      '(w', r) ← io_Write (aes_w a) ciphertext;
      Ret ({| aes_w := w'; aes_buffer := aes_buffer a; aes_cbc := Some cbc' |}, r)
  end.

Definition aes_set_buffer (a : aesCbcWriter D) (b : list byte) : aesCbcWriter D :=
  {| aes_w := aes_w a; aes_buffer := b; aes_cbc := aes_cbc a |}.

(** The second half of [Write]: full blocks of [p] are written and the
    remainder is buffered; [n] is the count so far. *)
Definition aesCbcWriter_Write_rest (a : aesCbcWriter D) (p : list byte) (n : Z)
  : outcome (aesCbcWriter D * wres) :=
  '(a, (n2, err)) ← aesCbcWriter_writeBlocks a p;
  let n := wrap64 (n + n2) in
  if decide (len p > n2) then
    remainder ← slice_from p n2;
    Ret (aes_set_buffer a (aes_buffer a ++ remainder),
         (wrap64 (n + len remainder), err))
  else Ret (a, (n, err)).

Definition aesCbcWriter_Write (a : aesCbcWriter D) (p : list byte)
  : outcome (aesCbcWriter D * wres) :=
  match aes_cbc a with
  | None => Ret (a, (0, Some "AES-128-CBC writer is already closed"%string))
  | Some _ =>
      if decide (len (aes_buffer a) > 0) then
        let x := 16 - len (aes_buffer a) in
        let x := if decide (x > len p) then len p else x in
        px ← slice_to p x;
        p ← slice_from p x;
        let a := aes_set_buffer a (aes_buffer a ++ px) in
        if decide (len (aes_buffer a) = 16) then
          '(a, (_, err)) ← aesCbcWriter_writeBlocks a (aes_buffer a);
          let a := aes_set_buffer a [] in
          let n := x in
          match err with
          | Some _ => Ret (a, (n, err))
          | None => aesCbcWriter_Write_rest a p n
          end
        else aesCbcWriter_Write_rest a p 0
      else aesCbcWriter_Write_rest a p 0
  end.

Definition aesCbcWriter_Close (a : aesCbcWriter D)
  : outcome (aesCbcWriter D * option error) :=
  match aes_cbc a with
  | None => Ret (a, Some "AES-128-CBC writer is already closed"%string)
  | Some _ =>
      let plaintextBytes := len (aes_buffer a) in
      let paddingByte := byte_of_Z (16 - plaintextBytes) in
      let a := aes_set_buffer a
                 (aes_buffer a ++ replicate (16 - length (aes_buffer a)) paddingByte) in
      '(a, (_, err)) ← aesCbcWriter_writeBlocks a (aes_buffer a);
      match err with
      | Some _ => Ret (a, err)
      | None =>
          Ret ({| aes_w := aes_w a; aes_buffer := aes_buffer a; aes_cbc := None |}, None)
      end
  end.

#[global] Instance aesCbcWriter_io_Writer : io_Writer (aesCbcWriter D) :=
  aesCbcWriter_Write.
#[global] Instance aesCbcWriter_io_Closer : io_Closer (aesCbcWriter D) :=
  aesCbcWriter_Close.

End AesCbcWriter.

(** ** crypto/sha1 (standard library, FIPS 180-4) *)

Module SHA1.

Definition mask32 (z : Z) : Z := Z.land z 4294967295.
Definition rotl32 (x k : Z) : Z :=
  mask32 (Z.lor (Z.shiftl x k) (Z.shiftr x (32 - k))).
Definition add32 (a b : Z) : Z := mask32 (a + b).

(** Big-endian bytes of [z], [n] of them. *)
Fixpoint be_bytes (n : nat) (z : Z) : list Z :=
  match n with
  | O => []
  | S n' => Z.land (Z.shiftr z (8 * Z.of_nat n')) 255 :: be_bytes n' z
  end.

Definition be_word (l : list Z) : Z :=
  fold_left (λ acc b, acc * 256 + b) l 0.

Definition pad (msg : list Z) : list Z :=
  let l := Z.of_nat (length msg) in
  msg ++ [128] ++ replicate (Z.to_nat ((55 - l) mod 64)) 0 ++ be_bytes 8 (8 * l).

Fixpoint block_words (n : nat) (l : list Z) : list Z :=
  match n with
  | O => []
  | S n' => be_word (take 4 l) :: block_words n' (drop 4 l)
  end.

Fixpoint schedule (cnt : nat) (w : list Z) : list Z :=
  match cnt with
  | O => w
  | S cnt' =>
      let t := length w in
      let x := Z.lxor (Z.lxor (nth (t - 3) w 0) (nth (t - 8) w 0))
                      (Z.lxor (nth (t - 14) w 0) (nth (t - 16) w 0)) in
      schedule cnt' (w ++ [rotl32 x 1])
  end.

Definition f (t : nat) (b c d : Z) : Z :=
  if decide (t < 20)%nat then Z.lor (Z.land b c) (Z.land (Z.lxor b 4294967295) d)
  else if decide (t < 40)%nat then Z.lxor (Z.lxor b c) d
  else if decide (t < 60)%nat
       then Z.lor (Z.lor (Z.land b c) (Z.land b d)) (Z.land c d)
       else Z.lxor (Z.lxor b c) d.

Definition K (t : nat) : Z :=
  if decide (t < 20)%nat then 1518500249
  else if decide (t < 40)%nat then 1859775393
  else if decide (t < 60)%nat then 2400959708
  else 3395469782.

Definition state : Type := Z * Z * Z * Z * Z.

Fixpoint compress (t : nat) (w : list Z) (s : state) : state :=
  match w with
  | [] => s
  | wt :: w' =>
      let '(a, b, c, d, e) := s in
      let temp := add32 (add32 (add32 (add32 (rotl32 a 5) (f t b c d)) e) (K t)) wt in
      compress (S t) w' (temp, a, rotl32 b 30, c, d)
  end.

Definition block (s : state) (blk : list Z) : state :=
  let '(h0, h1, h2, h3, h4) := s in
  let '(a, b, c, d, e) := compress 0 (schedule 64 (block_words 16 blk)) s in
  (add32 h0 a, add32 h1 b, add32 h2 c, add32 h3 d, add32 h4 e).

Fixpoint blocks (n : nat) (s : state) (l : list Z) : state :=
  match n with
  | O => s
  | S n' => blocks n' (block s (take 64 l)) (drop 64 l)
  end.

Definition init : state :=
  (1732584193, 4023233417, 2562383102, 271733878, 3285377520).

Definition sum (msg : list Z) : list Z :=
  let m := pad msg in
  let '(h0, h1, h2, h3, h4) := blocks (length m / 64) init m in
  be_bytes 4 h0 ++ be_bytes 4 h1 ++ be_bytes 4 h2 ++ be_bytes 4 h3 ++ be_bytes 4 h4.

End SHA1.

Definition sha1 (msg : list byte) : list byte :=
  bytes_of (SHA1.sum (map byte_to_Z msg)).

(** [sha1.New()]: a [hash.Hash] is determined by the bytes written to
    it; its [Write] never returns an error. *)
Record hash_Hash := { hash_written : list byte }.
Definition sha1_New : hash_Hash := {| hash_written := [] |}.
Definition hash_Write (h : hash_Hash) (p : list byte) : hash_Hash * wres :=
  ({| hash_written := hash_written h ++ p |}, (len p, None)).
(** [h.Sum(nil)] *)
Definition hash_Sum (h : hash_Hash) : list byte := sha1 (hash_written h).

#[global] Instance hash_io_Writer : io_Writer hash_Hash := λ h p,
  Ret (hash_Write h p).

(** ** sink.go *)

(** A [Sink] with state [Sk] hands out files of type [Fh]; the methods of
    the returned [io.WriteCloser] may reach the sink that made it. *)
Class Sink (Sk Fh : Type) := {
  WriteBundleFile : Sk → string → outcome (Sk * (Fh + error));
  file_Write : Sk → Fh → list byte → outcome (Sk * Fh * wres);
  file_Close : Sk → Fh → outcome (Sk * option error)
}.
#[global] Hint Mode Sink ! - : typeclass_instances.

(** ** hashing_sink.go *)

Record hashingSinkFile := { hsf_filename : string; hsf_hash : list byte }.

Record hashingSink (Sk : Type) := {
  hs_sink : Sk;
  hs_files : list hashingSinkFile
}.
Arguments hs_sink {Sk} _.
Arguments hs_files {Sk} _.

(** The writer's [sink] field points back to the [hashingSink] that made
    it: it is the sink passed to the writer's methods. *)
Record hashingSinkWriter (Fh : Type) := {
  hsw_name : string;
  hsw_h : hash_Hash;
  hsw_w : Fh
}.
Arguments hsw_name {Fh} _.
Arguments hsw_h {Fh} _.
Arguments hsw_w {Fh} _.

Section HashingSink.
Context {Sk Fh : Type} `{!Sink Sk Fh}.

Definition newHashingSink (sink : Sk) : hashingSink Sk :=
  {| hs_sink := sink; hs_files := [] |}.

Definition hashingSink_WriteBundleFile (h : hashingSink Sk) (filename : string)
  : outcome (hashingSink Sk * (hashingSinkWriter Fh + error)) :=
  '(s, r) ← WriteBundleFile (hs_sink h) filename;
  let h := {| hs_sink := s; hs_files := hs_files h |} in
  match r with
  | inr err => Ret (h, inr err)
  | inl w => Ret (h, inl {| hsw_name := filename; hsw_h := sha1_New; hsw_w := w |})
  end.

Definition hashingSinkWriter_Write (hs : hashingSink Sk) (hsw : hashingSinkWriter Fh)
    (p : list byte) : outcome (hashingSink Sk * hashingSinkWriter Fh * wres) :=
  let '(h, (n, err)) := hash_Write (hsw_h hsw) p in
  let hsw := {| hsw_name := hsw_name hsw; hsw_h := h; hsw_w := hsw_w hsw |} in
  match err with
  | Some _ => Ret (hs, hsw, (n, err))
  | None =>
      '(s, w, r) ← file_Write (hs_sink hs) (hsw_w hsw) p;
      Ret ({| hs_sink := s; hs_files := hs_files hs |},
           {| hsw_name := hsw_name hsw; hsw_h := hsw_h hsw; hsw_w := w |}, r)
  end.

Definition hashingSinkWriter_Close (hs : hashingSink Sk) (hsw : hashingSinkWriter Fh)
  : outcome (hashingSink Sk * option error) :=
  let file := {| hsf_filename := hsw_name hsw; hsf_hash := hash_Sum (hsw_h hsw) |} in
  let hs := {| hs_sink := hs_sink hs; hs_files := hs_files hs ++ [file] |} in
  '(s, err) ← file_Close (hs_sink hs) (hsw_w hsw);
  Ret ({| hs_sink := s; hs_files := hs_files hs |}, err).

#[global] Instance hashingSink_Sink : Sink (hashingSink Sk) (hashingSinkWriter Fh) := {
  WriteBundleFile := hashingSink_WriteBundleFile;
  file_Write := hashingSinkWriter_Write;
  file_Close := hashingSinkWriter_Close
}.

End HashingSink.

(** ** chunk_writer.go *)

Record chunkWriter (Sk Fh : Type) := {
  cw_sink : Sk;
  cw_name : string;
  cw_chunkSize : Z;
  cw_filename : string;
  cw_w : option Fh;
  cw_index : Z;  (* which chunk is this? *)
  cw_offset : Z  (* how far in are we? *)
}.
Arguments cw_sink {Sk Fh} _.
Arguments cw_name {Sk Fh} _.
Arguments cw_chunkSize {Sk Fh} _.
Arguments cw_filename {Sk Fh} _.
Arguments cw_w {Sk Fh} _.
Arguments cw_index {Sk Fh} _.
Arguments cw_offset {Sk Fh} _.

Section ChunkWriter.
Context {Sk Fh : Type} `{!Sink Sk Fh}.

Definition newChunkWriter (sink : Sk) (name : string) (chunkSize : Z)
  : chunkWriter Sk Fh :=
  {| cw_sink := sink; cw_name := name; cw_chunkSize := chunkSize;
     cw_filename := ""; cw_w := None; cw_index := 0; cw_offset := 0 |}.

Definition chunkWriter_bytesRemainingInChunk (cw : chunkWriter Sk Fh) : Z :=
  match cw_w cw with
  | None => 0
  | Some _ => wrap64 (cw_chunkSize cw - cw_offset cw)
  end.

Definition chunkWriter_closeChunk (cw : chunkWriter Sk Fh)
  : outcome (chunkWriter Sk Fh * option error) :=
  match cw_w cw with
  | None => Panic "invalid memory address or nil pointer dereference"
  | Some w =>
      '(s, err) ← file_Close (cw_sink cw) w;
      Ret ({| cw_sink := s; cw_name := cw_name cw; cw_chunkSize := cw_chunkSize cw;
              cw_filename := cw_filename cw; cw_w := None;
              cw_index := cw_index cw; cw_offset := cw_offset cw |}, err)
  end.

Definition chunkWriter_newChunk (cw : chunkWriter Sk Fh)
  : outcome (chunkWriter Sk Fh * option error) :=
  '(cw, closed) ← match cw_w cw with
                  | Some _ => chunkWriter_closeChunk cw
                  | None => Ret (cw, None)
                  end;
  match closed with
  | Some _ => Ret (cw, closed)
  | None =>
      let filename := cw_name cw +:+ ".part." +:+ pretty (cw_index cw) in
      '(s, r) ← WriteBundleFile (cw_sink cw) filename;
      Ret ({| cw_sink := s; cw_name := cw_name cw; cw_chunkSize := cw_chunkSize cw;
              cw_filename := filename;
              cw_w := match r with inl w => Some w | inr _ => None end;
              cw_index := wrap64 (cw_index cw + 1); cw_offset := 0 |},
           match r with inl _ => None | inr err => Some err end)
  end.

(** The loop of [Write]; [fuel] bounds the number of iterations, and
    the call does not return when it is used up. The result of
    [newChunk] is dropped, as in the source. *)
Fixpoint chunkWriter_Write_loop (fuel : nat) (cw : chunkWriter Sk Fh)
    (p : list byte) (n : Z) : outcome (chunkWriter Sk Fh * wres) :=
  if decide (len p > 0) then
    match fuel with
    | O => Diverge
    | S fuel' =>
        let bytes := chunkWriter_bytesRemainingInChunk cw in
        if decide (bytes = 0) then
          '(cw, _) ← chunkWriter_newChunk cw;
          chunkWriter_Write_loop fuel' cw p n
        else
          let bytes := if decide (bytes > len p) then len p else bytes in
          now ← slice_to p bytes;
          later ← slice_from p bytes;
          match cw_w cw with
          | None => Panic "invalid memory address or nil pointer dereference"
          | Some w =>
              '(s, w, (thisN, thisErr)) ← file_Write (cw_sink cw) w now;
              let n := wrap64 (n + thisN) in
              let cw := {| cw_sink := s; cw_name := cw_name cw;
                           cw_chunkSize := cw_chunkSize cw;
                           cw_filename := cw_filename cw; cw_w := Some w;
                           cw_index := cw_index cw;
                           cw_offset := wrap64 (cw_offset cw + thisN) |} in
              match thisErr with
              | Some _ => Ret (cw, (n, thisErr))
              | None => chunkWriter_Write_loop fuel' cw later n
              end
          end
    end
  else Ret (cw, (n, None)).

Definition chunkWriter_Write (fuel : nat) (cw : chunkWriter Sk Fh) (p : list byte)
  : outcome (chunkWriter Sk Fh * wres) :=
  chunkWriter_Write_loop fuel cw p 0.

Definition chunkWriter_Close (cw : chunkWriter Sk Fh)
  : outcome (chunkWriter Sk Fh * option error) :=
  match cw_w cw with
  | Some _ => chunkWriter_closeChunk cw
  | None => Ret (cw, None)
  end.

End ChunkWriter.

(** The number of iterations after which the loop of [Write] is taken
    not to end is a parameter of everything built on the chunk writer. *)
Class Fuel := fuel : nat.

#[global] Instance chunkWriter_io_Writer `{F : Fuel} {Sk Fh : Type} `{!Sink Sk Fh}
  : io_Writer (chunkWriter Sk Fh) := chunkWriter_Write fuel.
#[global] Instance chunkWriter_io_Closer {Sk Fh : Type} `{!Sink Sk Fh}
  : io_Closer (chunkWriter Sk Fh) := chunkWriter_Close.

(** ** counting_writer.go *)

Record countingWriter (D : Type) := { cnt_w : D; cnt_n : Z }.
Arguments cnt_w {D} _.
Arguments cnt_n {D} _.

Definition newCountingWriter {D} (w : D) : countingWriter D :=
  {| cnt_w := w; cnt_n := 0 |}.

Definition countingWriter_Write {D} `{!io_Writer D} (cw : countingWriter D)
    (p : list byte) : outcome (countingWriter D * wres) :=
  '(w, (n, err)) ← io_Write (cnt_w cw) p;
  Ret ({| cnt_w := w; cnt_n := wrap64 (cnt_n cw + n) |}, (n, err)).

#[global] Instance countingWriter_io_Writer {D} `{!io_Writer D}
  : io_Writer (countingWriter D) := countingWriter_Write.

(** ** Sinks of the tests *)

(** chunk_writer_test.go: [accumulatingSink] keeps a [bytes.Buffer] per
    file name, and a file is the key of its buffer. *)
#[global] Instance accumulatingSink : Sink (gmap string (list byte)) string := {
  WriteBundleFile files filename :=
    match files !! filename with
    | Some _ => Panic "attempt to write duplicate file"
    | None => Ret (<[filename := []]> files, inl filename)
    end;
  file_Write files w p :=
    match files !! w with
    | Some buffer => Ret (<[w := buffer ++ p]> files, w, (len p, None))
    | None => Panic "invalid memory address or nil pointer dereference"
    end;
  file_Close files w := Ret (files, None)
}.

Definition newAccumulatingSink : gmap string (list byte) := ∅.

(** A sink that cannot create files: every [WriteBundleFile] fails. *)
Inductive refusingSink := RefusingSink.
#[global] Instance refusingSink_Sink : Sink refusingSink Empty_set := {
  WriteBundleFile s filename := Ret (s, inr "no space left on device"%string);
  file_Write s w p := match w with end;
  file_Close s w := match w with end
}.

(** A sink like [accumulatingSink] whose files fail to close. *)
Record leakySink := { leaky_files : gmap string (list byte) }.
#[global] Instance leakySink_Sink : Sink leakySink string := {
  WriteBundleFile s filename :=
    Ret ({| leaky_files := <[filename := []]> (leaky_files s) |}, inl filename);
  file_Write s w p :=
    Ret ({| leaky_files := <[w := default [] (leaky_files s !! w) ++ p]> (leaky_files s) |},
         w, (len p, None));
  file_Close s w := Ret (s, Some "close failed"%string)
}.

(** ** archive/tar: the header

    The fields of [tar.Header] that the package sets; the others keep
    their zero values. [hdr_ModTime] is in seconds since the epoch. *)
Record tar_Header := {
  hdr_Name : string;
  hdr_Mode : Z;
  hdr_Uid : Z;
  hdr_Gid : Z;
  hdr_Uname : string;
  hdr_Gname : string;
  hdr_Size : Z;
  hdr_ModTime : Z;
  hdr_Typeflag : byte
}.

(** ** What the package takes from its environment

    [compress/flate] behind [pgzip] (the bytes of a DEFLATE stream at
    [BestCompression], and when they reach the writer below, are not
    fixed by the package: a deflater is a state machine that answers
    each input with the slices it writes downstream); the header blocks
    that [archive/tar] writes for a header that is not a regular file
    within the USTAR limits, with the size of the entry that follows;
    the clock; and the random source. *)
Class Extern := {
  flate : Type;
  flate_NewWriter : flate;
  flate_Write : flate → list byte → flate * list (list byte);
  flate_Close : flate → list (list byte);
  tar_otherFormats : tar_Header → list byte * Z + error;
  time_Now : Z;
  Rng : Type;
  rand_byte : Rng → Rng * byte;
  rand_err : Rng → option error
}.

(** [rand.Read(b)] for [b] of length [n]: [b] is filled, or the read
    fails. *)
Fixpoint rand_bytes `{E : Extern} (n : nat) (r : Rng) : Rng * list byte :=
  match n with
  | O => (r, [])
  | S n' => let '(r, b) := rand_byte r in
            let '(r, bs) := rand_bytes n' r in (r, b :: bs)
  end.
Definition rand_Read `{E : Extern} (r : Rng) (n : nat) : Rng * (list byte + error) :=
  match rand_err r with
  | Some err => (r, inr err)
  | None => let '(r, bs) := rand_bytes n r in (r, inl bs)
  end.

(** ** io.MultiWriter (standard library), for two writers *)

Record multiWriter (A B : Type) := { mw_1 : A; mw_2 : B }.
Arguments mw_1 {A B} _.
Arguments mw_2 {A B} _.

Definition ErrShortWrite : error := "short write".

Definition multiWriter_Write {A B} `{!io_Writer A, !io_Writer B}
    (t : multiWriter A B) (p : list byte) : outcome (multiWriter A B * wres) :=
  '(a, (n, err)) ← io_Write (mw_1 t) p;
  let t := {| mw_1 := a; mw_2 := mw_2 t |} in
  match err with
  | Some _ => Ret (t, (n, err))
  | None =>
      if decide (n ≠ len p) then Ret (t, (n, Some ErrShortWrite))
      else
        '(b, (n, err)) ← io_Write (mw_2 t) p;
        let t := {| mw_1 := mw_1 t; mw_2 := b |} in
        match err with
        | Some _ => Ret (t, (n, err))
        | None =>
            if decide (n ≠ len p) then Ret (t, (n, Some ErrShortWrite))
            else Ret (t, (len p, None))
        end
  end.

#[global] Instance multiWriter_io_Writer {A B} `{!io_Writer A, !io_Writer B}
  : io_Writer (multiWriter A B) := multiWriter_Write.

(** ** hash/crc32 and the gzip writer (RFC 1952) *)

Fixpoint crc32_bits (n : nat) (c : Z) : Z :=
  match n with
  | O => c
  | S n' => crc32_bits n' (Z.lxor (Z.shiftr c 1)
                             (if Z.testbit c 0 then 3988292384 else 0))
  end.

(** [crc32.Update(crc, crc32.IEEETable, p)] *)
Definition crc32_Update (crc : Z) (p : list byte) : Z :=
  Z.lxor (fold_left (λ c b, crc32_bits 8 (Z.lxor c (byte_to_Z b))) p
            (Z.lxor crc 4294967295)) 4294967295.

(** [binary.LittleEndian.PutUint32] *)
Definition le32 (z : Z) : list byte :=
  bytes_of [z; Z.shiftr z 8; Z.shiftr z 16; Z.shiftr z 24].

Record gzip_Writer (D : Type) `{E : Extern} := {
  gz_w : D;
  gz_wroteHeader : bool;
  gz_closed : bool;
  gz_err : option error;
  gz_size : Z;
  gz_digest : Z;
  gz_compressor : flate
}.
Arguments gz_w {D _} _.
Arguments gz_wroteHeader {D _} _.
Arguments gz_closed {D _} _.
Arguments gz_err {D _} _.
Arguments gz_size {D _} _.
Arguments gz_digest {D _} _.
Arguments gz_compressor {D _} _.

(** Writes of a deflater reach the writer below in order, up to the
    first error. *)
Fixpoint write_all {D} `{!io_Writer D} (w : D) (cs : list (list byte))
  : outcome (D * option error) :=
  match cs with
  | [] => Ret (w, None)
  | c :: cs' =>
      '(w, (_, err)) ← io_Write w c;
      match err with
      | Some _ => Ret (w, err)
      | None => write_all w cs'
      end
  end.

Section Gzip.
Context `{E : Extern} {D : Type} `{!io_Writer D}.

(** ID1 ID2, CM = deflate, no flags, no MTIME, XFL = 2 (best
    compression), OS = 255 (unknown). *)
Definition gzip_header : list byte := bytes_of [31; 139; 8; 0; 0; 0; 0; 0; 2; 255].

(** [gzip.NewWriterLevel(w, gzip.BestCompression)] *)
Definition gzip_NewWriterLevel (w : D) : gzip_Writer D :=
  {| gz_w := w; gz_wroteHeader := false; gz_closed := false; gz_err := None;
     gz_size := 0; gz_digest := 0; gz_compressor := flate_NewWriter |}.

Definition gz_set (z : gzip_Writer D) (w : D) (err : option error) : gzip_Writer D :=
  {| gz_w := w; gz_wroteHeader := gz_wroteHeader z; gz_closed := gz_closed z;
     gz_err := err; gz_size := gz_size z; gz_digest := gz_digest z;
     gz_compressor := gz_compressor z |}.

(** The header is written lazily, by the first [Write] or by [Close]. *)
Definition gzip_writeHeader (z : gzip_Writer D) : outcome (gzip_Writer D) :=
  if gz_wroteHeader z then Ret z
  else
    '(w, (_, err)) ← io_Write (gz_w z) gzip_header;
    Ret {| gz_w := w; gz_wroteHeader := true; gz_closed := gz_closed z;
           gz_err := err; gz_size := gz_size z; gz_digest := gz_digest z;
           gz_compressor := gz_compressor z |}.

Definition gzip_Write (z : gzip_Writer D) (p : list byte)
  : outcome (gzip_Writer D * wres) :=
  match gz_err z with
  | Some _ => Ret (z, (0, gz_err z))
  | None =>
      z ← gzip_writeHeader z;
      match gz_err z with
      | Some _ => Ret (z, (0, gz_err z))
      | None =>
          let '(c, out) := flate_Write (gz_compressor z) p in
          '(w, err) ← write_all (gz_w z) out;
          Ret ({| gz_w := w; gz_wroteHeader := gz_wroteHeader z;
                  gz_closed := gz_closed z; gz_err := err;
                  gz_size := (gz_size z + len p) mod 2 ^ 32;
                  gz_digest := crc32_Update (gz_digest z) p;
                  gz_compressor := c |},
               (match err with Some _ => 0 | None => len p end, err))
      end
  end.

Definition gzip_Close (z : gzip_Writer D) : outcome (gzip_Writer D * option error) :=
  match gz_err z with
  | Some _ => Ret (z, gz_err z)
  | None =>
      if gz_closed z then Ret (z, None)
      else
        let z := {| gz_w := gz_w z; gz_wroteHeader := gz_wroteHeader z;
                    gz_closed := true; gz_err := gz_err z; gz_size := gz_size z;
                    gz_digest := gz_digest z; gz_compressor := gz_compressor z |} in
        z ← gzip_writeHeader z;
        match gz_err z with
        | Some _ => Ret (z, gz_err z)
        | None =>
            '(w, err) ← write_all (gz_w z) (flate_Close (gz_compressor z));
            let z := gz_set z w err in
            match err with
            | Some _ => Ret (z, err)
            | None =>
                '(w, (_, err)) ← io_Write (gz_w z)
                                   (le32 (gz_digest z) ++ le32 (gz_size z));
                Ret (gz_set z w err, err)
            end
        end
  end.

#[global] Instance gzip_io_Writer : io_Writer (gzip_Writer D) := gzip_Write.
#[global] Instance gzip_io_Closer : io_Closer (gzip_Writer D) := gzip_Close.

End Gzip.

(** ** archive/tar: the writer (standard library)

    The block of the header of a regular file within the USTAR limits
    is modelled byte for byte; other headers are left to
    [tar_otherFormats]. *)

Definition is_ascii (s : string) : bool :=
  forallb (λ b, bool_decide (byte_to_Z b < 128)) (bytes_of_string s).

Definition fits_octal (width : Z) (x : Z) : bool :=
  bool_decide (0 <= x < 2 ^ (3 * (width - 1))).

Definition ustar_fits (hdr : tar_Header) : bool :=
  bool_decide (hdr_Typeflag hdr = "0"%byte)
  && bool_decide (length (bytes_of_string (hdr_Name hdr)) ≤ 100)%nat
  && is_ascii (hdr_Name hdr)
  && bool_decide (length (bytes_of_string (hdr_Uname hdr)) ≤ 32)%nat
  && is_ascii (hdr_Uname hdr)
  && bool_decide (length (bytes_of_string (hdr_Gname hdr)) ≤ 32)%nat
  && is_ascii (hdr_Gname hdr)
  && fits_octal 8 (hdr_Mode hdr) && fits_octal 8 (hdr_Uid hdr)
  && fits_octal 8 (hdr_Gid hdr) && fits_octal 12 (hdr_Size hdr)
  && fits_octal 12 (hdr_ModTime hdr).

Fixpoint octal_digits (n : nat) (x : Z) : list byte :=
  match n with
  | O => []
  | S n' => byte_of_Z (48 + (x / 8 ^ Z.of_nat n') mod 8) :: octal_digits n' x
  end.

(** [formatOctal]: zero-padded digits and a terminating NUL. *)
Definition octal_field (width : nat) (x : Z) : list byte :=
  octal_digits (width - 1) x ++ ["000"%byte].

(** [formatString]: the string, NUL-padded to the width of the field. *)
Definition string_field (width : nat) (s : string) : list byte :=
  fill width (bytes_of_string s).

Definition byte_sum (l : list byte) : Z :=
  fold_left (λ acc b, acc + byte_to_Z b) l 0.

Definition ustar_block (hdr : tar_Header) : list byte :=
  let front :=
    string_field 100 (hdr_Name hdr) ++ octal_field 8 (hdr_Mode hdr)
    ++ octal_field 8 (hdr_Uid hdr) ++ octal_field 8 (hdr_Gid hdr)
    ++ octal_field 12 (hdr_Size hdr) ++ octal_field 12 (hdr_ModTime hdr) in
  let back :=
    [hdr_Typeflag hdr] ++ string_field 100 ""
    ++ bytes_of_string "ustar" ++ ["000"%byte] ++ bytes_of_string "00"
    ++ string_field 32 (hdr_Uname hdr) ++ string_field 32 (hdr_Gname hdr)
    ++ octal_field 8 0 ++ octal_field 8 0
    ++ replicate 155 "000"%byte ++ replicate 12 "000"%byte in
  let chksum := byte_sum front + 8 * 32 + byte_sum back in
  front ++ octal_field 7 chksum ++ bytes_of_string " " ++ back.

Definition tar_encodeHeader `{E : Extern} (hdr : tar_Header) : list byte * Z + error :=
  if ustar_fits hdr then inl (ustar_block hdr, hdr_Size hdr)
  else tar_otherFormats hdr.

Definition ErrWriteTooLong : error := "archive/tar: write too long".
Definition ErrWriteAfterClose : error := "archive/tar: write after close".

(** [tar_nb] is the number of bytes that the current entry still
    expects and [tar_pad] the padding owed after it. *)
Record tar_Writer (D : Type) := {
  tar_w : D;
  tar_nb : Z;
  tar_pad : Z;
  tar_err : option error
}.
Arguments tar_w {D} _.
Arguments tar_nb {D} _.
Arguments tar_pad {D} _.
Arguments tar_err {D} _.

Definition zeroBlock : list byte := replicate 512 "000"%byte.

Section Tar.
Context `{E : Extern} {D : Type} `{!io_Writer D}.

Definition tar_NewWriter (w : D) : tar_Writer D :=
  {| tar_w := w; tar_nb := 0; tar_pad := 0; tar_err := None |}.

Definition tar_Flush (tw : tar_Writer D) : outcome (tar_Writer D * option error) :=
  match tar_err tw with
  | Some _ => Ret (tw, tar_err tw)
  | None =>
      if decide (tar_nb tw > 0) then
        Ret (tw, Some ("archive/tar: missed writing " +:+ pretty (tar_nb tw)
                       +:+ " bytes"))
      else
        pad ← slice_to zeroBlock (tar_pad tw);
        '(w, (_, err)) ← io_Write (tar_w tw) pad;
        match err with
        | Some _ => Ret ({| tar_w := w; tar_nb := tar_nb tw; tar_pad := tar_pad tw;
                            tar_err := err |}, err)
        | None => Ret ({| tar_w := w; tar_nb := tar_nb tw; tar_pad := 0;
                          tar_err := None |}, None)
        end
  end.

(** [blockPadding]: the distance to the next multiple of 512. *)
Definition blockPadding (offset : Z) : Z := (- offset) mod 512.

Definition tar_writeRawHeader (tw : tar_Writer D) (blk : list byte) (size : Z)
  : outcome (tar_Writer D * option error) :=
  '(tw, err) ← tar_Flush tw;
  match err with
  | Some _ => Ret (tw, err)
  | None =>
      '(w, (_, err)) ← io_Write (tar_w tw) blk;
      match err with
      | Some _ => Ret ({| tar_w := w; tar_nb := tar_nb tw; tar_pad := tar_pad tw;
                          tar_err := tar_err tw |}, err)
      | None => Ret ({| tar_w := w; tar_nb := size; tar_pad := blockPadding size;
                        tar_err := tar_err tw |}, None)
      end
  end.

Definition tar_WriteHeader (tw : tar_Writer D) (hdr : tar_Header)
  : outcome (tar_Writer D * option error) :=
  '(tw, err) ← tar_Flush tw;
  match err with
  | Some _ => Ret (tw, err)
  | None =>
      match tar_encodeHeader hdr with
      | inr err => Ret (tw, Some err)
      | inl (blk, size) =>
          '(tw, err) ← tar_writeRawHeader tw blk size;
          Ret ({| tar_w := tar_w tw; tar_nb := tar_nb tw; tar_pad := tar_pad tw;
                  tar_err := err |}, err)
      end
  end.

Definition tar_Write (tw : tar_Writer D) (b : list byte)
  : outcome (tar_Writer D * wres) :=
  match tar_err tw with
  | Some _ => Ret (tw, (0, tar_err tw))
  | None =>
      let overwrite := bool_decide (len b > tar_nb tw) in
      b ← (if overwrite then slice_to b (tar_nb tw) else Ret b);
      '(w, (n, err)) ← (if decide (len b > 0) then io_Write (tar_w tw) b
                        else Ret (tar_w tw, (0, None)));
      let tw := {| tar_w := w; tar_nb := wrap64 (tar_nb tw - n);
                   tar_pad := tar_pad tw; tar_err := err |} in
      match err with
      | Some _ => Ret (tw, (n, err))
      | None => if overwrite then Ret (tw, (n, Some ErrWriteTooLong))
                else Ret (tw, (n, None))
      end
  end.

Definition tar_Close (tw : tar_Writer D) : outcome (tar_Writer D * option error) :=
  match tar_err tw with
  | Some e =>
      if decide (e = ErrWriteAfterClose) then Ret (tw, None) else Ret (tw, Some e)
  | None =>
      '(tw, err) ← tar_Flush tw;
      '(w, err) ← match err with
                  | Some _ => Ret (tar_w tw, err)
                  | None => write_all (tar_w tw) [zeroBlock; zeroBlock]
                  end;
      Ret ({| tar_w := w; tar_nb := tar_nb tw; tar_pad := tar_pad tw;
              tar_err := Some ErrWriteAfterClose |}, err)
  end.

#[global] Instance tar_io_Writer : io_Writer (tar_Writer D) := tar_Write.
#[global] Instance tar_io_Closer : io_Closer (tar_Writer D) := tar_Close.

End Tar.

(** ** manifest.go: the data *)

Record valueAndAlgorithm := { va_Algorithm : string; va_Value : string }.

Record manifestPart := {
  part_Index : Z;
  part_Filename : string;
  part_Digest : valueAndAlgorithm
}.

(** [BlockDeviceMapping] is declared outside the files at hand: it is a
    parameter [BDM] of the manifest. *)
Record manifestMachineConfig (BDM : Type) := {
  mc_Architecture : string;
  mc_BlockDeviceMappings : list BDM
}.
Arguments mc_Architecture {BDM} _.
Arguments mc_BlockDeviceMappings {BDM} _.

Record manifestImage := {
  image_Name : string;
  image_User : string;
  image_Type : string;
  image_Digest : valueAndAlgorithm;
  image_Size : Z;
  image_BundledSize : Z;
  image_EC2EncryptedKey : valueAndAlgorithm;
  image_UserEncryptedKey : valueAndAlgorithm;
  image_EC2EncryptedIV : string;
  image_UserEncryptedIV : string;
  image_PartsContainer_Count : Z;
  image_PartsContainer_Parts : list manifestPart
}.

Record Application := {
  app_Name : string;
  app_Version : string;
  app_Release : string;
  app_Comment : string
}.

Record manifest (BDM : Type) := {
  m_Bundler : Application;
  m_MachineConfiguration : manifestMachineConfig BDM;
  m_Image : manifestImage
}.
Arguments m_Bundler {BDM} _.
Arguments m_MachineConfiguration {BDM} _.
Arguments m_Image {BDM} _.

Definition manifest_set_Image {BDM} (m : manifest BDM) (i : manifestImage)
  : manifest BDM :=
  {| m_Bundler := m_Bundler m; m_MachineConfiguration := m_MachineConfiguration m;
     m_Image := i |}.

Definition image_set_EC2EncryptedKey (i : manifestImage) (v : valueAndAlgorithm)
  : manifestImage :=
  {| image_Name := image_Name i; image_User := image_User i;
     image_Type := image_Type i; image_Digest := image_Digest i;
     image_Size := image_Size i; image_BundledSize := image_BundledSize i;
     image_EC2EncryptedKey := v;
     image_UserEncryptedKey := image_UserEncryptedKey i;
     image_EC2EncryptedIV := image_EC2EncryptedIV i;
     image_UserEncryptedIV := image_UserEncryptedIV i;
     image_PartsContainer_Count := image_PartsContainer_Count i;
     image_PartsContainer_Parts := image_PartsContainer_Parts i |}.

Definition image_set_UserEncryptedKey (i : manifestImage) (v : valueAndAlgorithm)
  : manifestImage :=
  {| image_Name := image_Name i; image_User := image_User i;
     image_Type := image_Type i; image_Digest := image_Digest i;
     image_Size := image_Size i; image_BundledSize := image_BundledSize i;
     image_EC2EncryptedKey := image_EC2EncryptedKey i;
     image_UserEncryptedKey := v;
     image_EC2EncryptedIV := image_EC2EncryptedIV i;
     image_UserEncryptedIV := image_UserEncryptedIV i;
     image_PartsContainer_Count := image_PartsContainer_Count i;
     image_PartsContainer_Parts := image_PartsContainer_Parts i |}.

Definition image_set_EC2EncryptedIV (i : manifestImage) (v : string)
  : manifestImage :=
  {| image_Name := image_Name i; image_User := image_User i;
     image_Type := image_Type i; image_Digest := image_Digest i;
     image_Size := image_Size i; image_BundledSize := image_BundledSize i;
     image_EC2EncryptedKey := image_EC2EncryptedKey i;
     image_UserEncryptedKey := image_UserEncryptedKey i;
     image_EC2EncryptedIV := v;
     image_UserEncryptedIV := image_UserEncryptedIV i;
     image_PartsContainer_Count := image_PartsContainer_Count i;
     image_PartsContainer_Parts := image_PartsContainer_Parts i |}.

Definition image_set_UserEncryptedIV (i : manifestImage) (v : string)
  : manifestImage :=
  {| image_Name := image_Name i; image_User := image_User i;
     image_Type := image_Type i; image_Digest := image_Digest i;
     image_Size := image_Size i; image_BundledSize := image_BundledSize i;
     image_EC2EncryptedKey := image_EC2EncryptedKey i;
     image_UserEncryptedKey := image_UserEncryptedKey i;
     image_EC2EncryptedIV := image_EC2EncryptedIV i;
     image_UserEncryptedIV := v;
     image_PartsContainer_Count := image_PartsContainer_Count i;
     image_PartsContainer_Parts := image_PartsContainer_Parts i |}.

Definition image_set_Type (i : manifestImage) (v : string) : manifestImage :=
  {| image_Name := image_Name i; image_User := image_User i;
     image_Type := v; image_Digest := image_Digest i;
     image_Size := image_Size i; image_BundledSize := image_BundledSize i;
     image_EC2EncryptedKey := image_EC2EncryptedKey i;
     image_UserEncryptedKey := image_UserEncryptedKey i;
     image_EC2EncryptedIV := image_EC2EncryptedIV i;
     image_UserEncryptedIV := image_UserEncryptedIV i;
     image_PartsContainer_Count := image_PartsContainer_Count i;
     image_PartsContainer_Parts := image_PartsContainer_Parts i |}.

(** ** writer.go *)

Section BundleTypes.
Context `{E : Extern} (Sk Fh : Type).

Definition bundle_cw : Type := chunkWriter (hashingSink Sk) (hashingSinkWriter Fh).
Definition bundle_aes : Type := aesCbcWriter (countingWriter bundle_cw).
Definition bundle_gz : Type := gzip_Writer bundle_aes.
Definition bundle_tar : Type := tar_Writer (multiWriter hash_Hash bundle_gz).

(** The fields [sha1], [hs], [cw], [aes], [gz], [tar] and [bundledSize]
    of the Go struct point into the chain that starts at [trueSize];
    they are the paths [bw_sha1] ... [bw_bundledSize] below. The field
    [sink] is the sink that the hashing sink wraps. *)
Record Writer := {
  basename : string;
  size : Z;
  trueSize : countingWriter bundle_tar;
  didInitialWrite : bool;
  closed : bool;
  key : list byte;
  iv : list byte
}.

End BundleTypes.
Arguments basename {_ Sk Fh} _.
Arguments size {_ Sk Fh} _.
Arguments trueSize {_ Sk Fh} _.
Arguments didInitialWrite {_ Sk Fh} _.
Arguments closed {_ Sk Fh} _.
Arguments key {_ Sk Fh} _.
Arguments iv {_ Sk Fh} _.

Section Bundle.
Context `{E : Extern} `{F : Fuel} {Sk Fh : Type} `{!Sink Sk Fh}.

#[local] Abbreviation Writer := (Writer Sk Fh).

Definition bw_tar (bw : Writer) : bundle_tar Sk Fh := cnt_w (trueSize bw).
Definition bw_sha1 (bw : Writer) : hash_Hash := mw_1 (tar_w (bw_tar bw)).
Definition bw_gz (bw : Writer) : bundle_gz Sk Fh := mw_2 (tar_w (bw_tar bw)).
Definition bw_aes (bw : Writer) : bundle_aes Sk Fh := gz_w (bw_gz bw).
Definition bw_bundledSize (bw : Writer) : countingWriter (bundle_cw Sk Fh) :=
  aes_w (bw_aes bw).
Definition bw_cw (bw : Writer) : bundle_cw Sk Fh := cnt_w (bw_bundledSize bw).
Definition bw_hs (bw : Writer) : hashingSink Sk := cw_sink (bw_cw bw).

Definition set_trueSize (bw : Writer) (ts : countingWriter (bundle_tar Sk Fh))
  : Writer :=
  {| basename := basename bw; size := size bw; trueSize := ts;
     didInitialWrite := didInitialWrite bw; closed := closed bw;
     key := key bw; iv := iv bw |}.
Definition set_tar (bw : Writer) (t : bundle_tar Sk Fh) : Writer :=
  set_trueSize bw {| cnt_w := t; cnt_n := cnt_n (trueSize bw) |}.
Definition set_gz (bw : Writer) (z : bundle_gz Sk Fh) : Writer :=
  let t := bw_tar bw in
  set_tar bw {| tar_w := {| mw_1 := mw_1 (tar_w t); mw_2 := z |};
                tar_nb := tar_nb t; tar_pad := tar_pad t; tar_err := tar_err t |}.
Definition set_aes (bw : Writer) (a : bundle_aes Sk Fh) : Writer :=
  set_gz bw (gz_set (bw_gz bw) a (gz_err (bw_gz bw))).
Definition set_cw (bw : Writer) (c : bundle_cw Sk Fh) : Writer :=
  let a := bw_aes bw in
  set_aes bw {| aes_w := {| cnt_w := c; cnt_n := cnt_n (aes_w a) |};
                aes_buffer := aes_buffer a; aes_cbc := aes_cbc a |}.

Definition NewWriter (basename : string) (size : Z) (sink : Sk) (rng : Rng)
  : outcome (Rng * (Writer + error)) :=
  let '(rng, r) := rand_Read rng 16 in
  match r with
  | inr err => Ret (rng, inr err)
  | inl key =>
      let '(rng, r) := rand_Read rng 16 in
      match r with
      | inr err => Ret (rng, inr err)
      | inl iv =>
          let hs := newHashingSink sink in
          let cw : bundle_cw Sk Fh := newChunkWriter hs basename (10 * 1024 * 1024) in
          let bundledSize := newCountingWriter cw in
          r ← newAes128CbcWriter bundledSize key iv;
          match r with
          | inr err => Ret (rng, inr err)
          | inl aes =>
              let gz := gzip_NewWriterLevel aes in
              let tee := {| mw_1 := sha1_New; mw_2 := gz |} in
              let tar := tar_NewWriter tee in
              Ret (rng, inl {| basename := basename; size := size;
                               trueSize := newCountingWriter tar;
                               didInitialWrite := false; closed := false;
                               key := key; iv := iv |})
          end
      end
  end.

(** The header of [doInitialWrite]. *)
Definition Writer_header (bw : Writer) : tar_Header :=
  {| hdr_Name := basename bw; hdr_Mode := 420 (* 0644 *);
     hdr_Uid := 0; hdr_Gid := 0; hdr_Uname := "root"; hdr_Gname := "root";
     hdr_Size := size bw; hdr_ModTime := time_Now; hdr_Typeflag := "0"%byte |}.

Definition Writer_doInitialWrite (bw : Writer) : outcome (Writer * option error) :=
  '(t, err) ← tar_WriteHeader (bw_tar bw) (Writer_header bw);
  let bw := set_tar bw t in
  match err with
  | None =>
      Ret ({| basename := basename bw; size := size bw; trueSize := trueSize bw;
              didInitialWrite := true; closed := closed bw;
              key := key bw; iv := iv bw |}, None)
  | Some _ => Ret (bw, err)
  end.

Definition Writer_forward (bw : Writer) (p : list byte) : outcome (Writer * wres) :=
  '(ts, r) ← io_Write (trueSize bw) p;
  Ret (set_trueSize bw ts, r).

(** Write bytes to the bundle. *)
Definition Writer_Write (bw : Writer) (p : list byte) : outcome (Writer * wres) :=
  if didInitialWrite bw then Writer_forward bw p
  else
    '(bw, err) ← Writer_doInitialWrite bw;
    match err with
    | Some _ => Ret (bw, (0, err))
    | None => Writer_forward bw p
    end.

Definition append_error (errors : list error) (err : option error) : list error :=
  match err with
  | Some e => errors ++ [e]
  | None => errors
  end.

(** The caller writes the slices [ps] in order and stops at the first
    error. *)
Fixpoint Writer_writes (bw : Writer) (ps : list (list byte))
  : outcome (Writer * option error) :=
  match ps with
  | [] => Ret (bw, None)
  | p :: ps' =>
      '(bw, (_, err)) ← Writer_Write bw p;
      match err with
      | Some _ => Ret (bw, err)
      | None => Writer_writes bw ps'
      end
  end.

(** The first error of a list of results. *)
Definition first_error (errs : list (option error)) : option error :=
  head (omap id errs).

(** The error of [Close] for a wrong number of bytes. *)
Definition Writer_sizeError (size n : Z) : error :=
  "expected " +:+ pretty size +:+ " bytes, actually wrote " +:+ pretty n +:+ " bytes".

(** Close the bundle. Closing more than once is an error. *)
Definition Writer_Close (bw : Writer) : outcome (Writer * option error) :=
  if closed bw then Ret (bw, Some "Writer is already closed"%string)
  else
    let errors := [] in
    '(t, err) ← tar_Close (bw_tar bw);
    let bw := set_tar bw t in
    let errors := append_error errors err in
    '(z, err) ← gzip_Close (bw_gz bw);
    let bw := set_gz bw z in
    let errors := append_error errors err in
    '(a, err) ← aesCbcWriter_Close (bw_aes bw);
    let bw := set_aes bw a in
    let errors := append_error errors err in
    '(c, err) ← chunkWriter_Close (bw_cw bw);
    let bw := set_cw bw c in
    let errors := append_error errors err in
    let errors :=
      if decide (size bw ≠ cnt_n (trueSize bw)) then
        errors ++ [Writer_sizeError (size bw) (cnt_n (trueSize bw))]
      else errors in
    let bw := {| basename := basename bw; size := size bw; trueSize := trueSize bw;
                 didInitialWrite := didInitialWrite bw; closed := true;
                 key := key bw; iv := iv bw |} in
    Ret (bw, head errors).

(** The parts of the manifest, one per file of the hashing sink, from
    index [i] on. *)
Fixpoint Writer_parts (i : Z) (files : list hashingSinkFile) : list manifestPart :=
  match files with
  | [] => []
  | file :: files' =>
      {| part_Index := i; part_Filename := hsf_filename file;
         part_Digest := {| va_Value := hex (hsf_hash file);
                           va_Algorithm := "SHA1" |} |}
      :: Writer_parts (i + 1) files'
  end.

Definition Writer_populateManifest {BDM} (bw : Writer) (m : manifest BDM)
  : manifest BDM :=
  let i := m_Image m in
  manifest_set_Image m
    {| image_Name := image_Name i; image_User := image_User i;
       image_Type := image_Type i;
       image_Digest := {| va_Algorithm := "SHA1";
                          va_Value := hex (hash_Sum (bw_sha1 bw)) |};
       image_Size := cnt_n (trueSize bw);
       image_BundledSize := cnt_n (bw_bundledSize bw);
       image_EC2EncryptedKey := image_EC2EncryptedKey i;
       image_UserEncryptedKey := image_UserEncryptedKey i;
       image_EC2EncryptedIV := image_EC2EncryptedIV i;
       image_UserEncryptedIV := image_UserEncryptedIV i;
       image_PartsContainer_Count := len (hs_files (bw_hs bw));
       image_PartsContainer_Parts :=
         image_PartsContainer_Parts i ++ Writer_parts 0 (hs_files (bw_hs bw)) |}.

End Bundle.

(** ** certificates.go *)

(** The three PEM texts of the package. What they decode to is up to
    [encoding/pem] and [crypto/x509]; [crypto/rsa] encrypts. *)
Inductive pemConst := certEc2 | certEc2Gov | certEc2CnNorth1.

Class Crypto `{E : Extern} := {
  x509_Certificate : Type;
  pem_Decode : pemConst → option (list byte);
  x509_ParseCertificate : list byte → x509_Certificate + error;
  rsa_PublicKey : Type;
  rsa_PrivateKey : Type;
  (** [&key.PublicKey] *)
  rsa_public : rsa_PrivateKey → rsa_PublicKey;
  (** [cert.PublicKey.( *rsa.PublicKey)] *)
  cert_rsa_PublicKey : x509_Certificate → option rsa_PublicKey;
  rsa_EncryptPKCS1v15 : Rng → rsa_PublicKey → list byte → Rng * (list byte + error)
}.

Definition CertificateForEC2Region `{C : Crypto} (region : string)
  : x509_Certificate + error :=
  let pemStr :=
    if decide (region = "us-gov-west-1") then certEc2Gov
    else if decide (region = "cn-north-1") then certEc2CnNorth1
    else certEc2 in
  match pem_Decode pemStr with
  | None => inr "unable to parse PEM block"%string
  | Some block => x509_ParseCertificate block
  end.

(** ** manifest.go: [EncryptSecrets] *)

(** [%q]; the escapes of [strconv.Quote] are not modelled. *)
Definition quote (s : string) : string :=
  String (ascii_of_nat 34) s +:+ String (ascii_of_nat 34) "".

Section EncryptSecrets.
Context `{C : Crypto} {BDM : Type}.

Definition manifest_EncryptSecrets (m : manifest BDM) (key iv : list byte)
    (region : string) (userKey : rsa_PublicKey) (rng : Rng)
  : Rng * (manifest BDM * option error) :=
  match CertificateForEC2Region region with
  | inr err =>
      (rng, (m, Some ("unable to get certificate for region " +:+ quote region
                      +:+ ": " +:+ err)))
  | inl cert =>
      match cert_rsa_PublicKey cert with
      | None =>
          (rng, (m, Some ("certificate for region " +:+ quote region
                          +:+ " does not contain an RSA key")))
      | Some ec2key =>
          let encodedKey := bytes_of_string (hex key) in
          let encodedIV := bytes_of_string (hex iv) in
          (* Encrypt the key for both parties *)
          let '(rng, r) := rsa_EncryptPKCS1v15 rng ec2key encodedKey in
          match r with
          | inr err => (rng, (m, Some err))
          | inl bytes =>
              let m := manifest_set_Image m
                (image_set_EC2EncryptedKey (m_Image m)
                   {| va_Value := hex bytes; va_Algorithm := "AES-128-CBC" |}) in
              let '(rng, r) := rsa_EncryptPKCS1v15 rng userKey encodedKey in
              match r with
              | inr err => (rng, (m, Some err))
              | inl bytes =>
                  let m := manifest_set_Image m
                    (image_set_UserEncryptedKey (m_Image m)
                       {| va_Value := hex bytes; va_Algorithm := "AES-128-CBC" |}) in
                  (* Encrypt the IV for both parties *)
                  let '(rng, r) := rsa_EncryptPKCS1v15 rng ec2key encodedIV in
                  match r with
                  | inr err => (rng, (m, Some err))
                  | inl bytes =>
                      let m := manifest_set_Image m
                        (image_set_EC2EncryptedIV (m_Image m) (hex bytes)) in
                      let '(rng, r) := rsa_EncryptPKCS1v15 rng userKey encodedIV in
                      match r with
                      | inr err => (rng, (m, Some err))
                      | inl bytes =>
                          (rng, (manifest_set_Image m
                                   (image_set_UserEncryptedIV (m_Image m) (hex bytes)),
                                 None))
                      end
                  end
              end
          end
      end
  end.

End EncryptSecrets.

(** ** metadata.go *)

Record Metadata `{C : Crypto} := {
  md_Name : string;
  md_Architecture : string;
  md_AWSAccountID : string;
  md_AWSRegion : string;
  md_UserKey : option rsa_PrivateKey;
  md_Type : string;
  md_Bundler : Application
}.

Definition Metadata_toManifest `{C : Crypto} {BDM : Type} (md : Metadata) : manifest BDM :=
  let m :=
    {| m_Bundler := md_Bundler md;
       m_MachineConfiguration :=
         {| mc_Architecture := md_Architecture md; mc_BlockDeviceMappings := [] |};
       m_Image :=
         {| image_Name := md_Name md; image_User := md_AWSAccountID md;
            image_Type := md_Type md;
            image_Digest := {| va_Algorithm := ""; va_Value := "" |};
            image_Size := 0; image_BundledSize := 0;
            image_EC2EncryptedKey := {| va_Algorithm := ""; va_Value := "" |};
            image_UserEncryptedKey := {| va_Algorithm := ""; va_Value := "" |};
            image_EC2EncryptedIV := ""; image_UserEncryptedIV := "";
            image_PartsContainer_Count := 0;
            image_PartsContainer_Parts := [] |} |} in
  if decide (image_Type (m_Image m) = "") then
    manifest_set_Image m (image_set_Type (m_Image m) "machine")
  else m.

(** ** The streams that the stages produce *)

(** What a tar framer writes for one entry with the bytes [B], given
    the block of the header and the size that the header declares, and
    what it writes when no header was written. *)
Definition tar_stream (header : option (list byte * Z)) (B : list byte) : list byte :=
  match header with
  | Some (blk, size) => blk ++ B ++ replicate (Z.to_nat (blockPadding size)) "000"%byte
  | None => B
  end ++ zeroBlock ++ zeroBlock.

(** The bytes that a tar framer over a tee has written to the hash. *)
Definition tar_hashed {B : Type} (tw : tar_Writer (multiWriter hash_Hash B))
  : list byte :=
  hash_written (mw_1 (tar_w tw)).

(** The struct that [NewWriter] builds from its arguments and the two
    secrets. *)
Definition fresh_Writer `{E : Extern} {Sk Fh : Type} (basename : string) (size : Z)
    (sink : Sk) (key iv : list byte) : Writer Sk Fh :=
  {| basename := basename; size := size;
     trueSize :=
       newCountingWriter (tar_NewWriter
         {| mw_1 := sha1_New;
            mw_2 := gzip_NewWriterLevel
              {| aes_w := newCountingWriter
                   (newChunkWriter (newHashingSink sink) basename (10 * 1024 * 1024));
                 aes_buffer := [];
                 aes_cbc := Some {| cbc_key := key; cbc_iv := iv |} |} |});
     didInitialWrite := false; closed := false; key := key; iv := iv |}.

(** The framer of a bundle writer has written, through the tee, the
    header (if [Write] was ever called) and the bytes [B], and owes the
    padding of the declared size. *)
Definition Writer_framed `{E : Extern} {Sk Fh : Type} (bw : Writer Sk Fh)
    (B : list byte) : Prop :=
  tar_err (bw_tar bw) = None ∧
  if didInitialWrite bw then
    ∃ blk size', tar_encodeHeader (Writer_header bw) = inl (blk, size') ∧
                 tar_hashed (bw_tar bw) = blk ++ B ∧
                 tar_pad (bw_tar bw) = blockPadding size'
  else B = [] ∧ tar_hashed (bw_tar bw) = [] ∧ tar_pad (bw_tar bw) = 0.

(** ** Contracts of the environment, and runs *)

(** The files of a sink keep the contract of [io.Writer]. *)
Definition Sink_conforming (Sk Fh : Type) `{!Sink Sk Fh} : Prop :=
  ∀ (s : Sk) (w : Fh) p s' w' r,
    file_Write s w p = Ret (s', w', r) → conforming p r.

(** What the deflater hands over are slices: they have fewer than 2^63
    bytes. *)
Definition flate_slices `{E : Extern} : Prop :=
  (∀ st p, Forall (λ c, len c < 2 ^ 63) (flate_Write st p).2) ∧
  (∀ st, Forall (λ c, len c < 2 ^ 63) (flate_Close st)).

(** One call of [Write] on a bundle writer, whatever it returns. *)
Definition Writer_Write_step `{E : Extern} `{F : Fuel} {Sk Fh : Type} `{!Sink Sk Fh}
    (bw bw' : Writer Sk Fh) : Prop :=
  ∃ p r, Writer_Write bw p = Ret (bw', r).

(** ** Whole blocks

    For a measure [μ] of what the writer below the cipher has taken:
    the cipher has passed on whole blocks and holds less than a block;
    and the same of the cipher below a gzip writer, unless an error has
    stopped the gzip writer. *)
Definition aes_whole_blocks {D : Type} (μ : D → Z) (a : aesCbcWriter D) : Prop :=
  μ (aes_w a) mod 16 = 0 ∧ len (aes_buffer a) < 16.

Definition gz_whole_blocks `{E : Extern} {D : Type} (μ : D → Z)
    (z : gzip_Writer (aesCbcWriter D)) : Prop :=
  gz_err z ≠ None ∨ aes_whole_blocks μ (gz_w z).

(** ** One part over an [accumulatingSink]

    The counter, the chunk writer, the hashing sink and the sink of a
    bundle writer over an empty [accumulatingSink], after the bytes
    [data] have reached the counter and gone to the first part. *)
Definition lower_state (name : string) (data : list byte)
  : countingWriter (bundle_cw (gmap string (list byte)) string) :=
  match data with
  | [] =>
      newCountingWriter
        (newChunkWriter (newHashingSink newAccumulatingSink) name (10 * 1024 * 1024))
  | _ =>
      let filename := name +:+ ".part." +:+ pretty 0 in
      {| cnt_w :=
           {| cw_sink := {| hs_sink := {[ filename := data ]}; hs_files := [] |};
              cw_name := name; cw_chunkSize := 10 * 1024 * 1024;
              cw_filename := filename;
              cw_w := Some {| hsw_name := filename;
                              hsw_h := {| hash_written := data |};
                              hsw_w := filename |};
              cw_index := 1; cw_offset := len data |};
         cnt_n := len data |}
  end.

(** The cipher of such a bundle writer after it has taken [T] bytes
    without error: the whole blocks are in the first part and the rest
    is in the buffer. *)
Definition aes_taken (name : string) (T : Z)
    (a : aesCbcWriter (countingWriter (bundle_cw (gmap string (list byte)) string)))
  : Prop :=
  0 <= T ∧ is_Some (aes_cbc a) ∧ len (aes_buffer a) = T mod 16 ∧
  ∃ data, aes_w a = lower_state name data ∧ len data = 16 * (T / 16).

(** The gzip writer above such a cipher: no error so far, not closed,
    the deflater in the state [c], the header written or not ([h]), and
    [T] bytes handed to the cipher. *)
Definition gz_taken `{E : Extern} (name : string) (T : Z) (c : flate) (h : bool)
    (z : gzip_Writer (aesCbcWriter
                        (countingWriter (bundle_cw (gmap string (list byte)) string))))
  : Prop :=
  gz_err z = None ∧ gz_closed z = false ∧ gz_compressor z = c ∧
  gz_wroteHeader z = h ∧ aes_taken name T (gz_w z).


(** ** A cipher that holds what it was given

    The cipher has passed nothing on: it is open and holds [T] bytes,
    less than a block. And the gzip writer above such a cipher: no
    error, not closed, and the 10 bytes of the header are among the
    bytes held once the header is written. *)
Definition aes_held {D : Type} (T : Z) (a : aesCbcWriter D) : Prop :=
  is_Some (aes_cbc a) ∧ len (aes_buffer a) = T ∧ T < 16.

Definition gz_held `{E : Extern} {D : Type} (z : gzip_Writer (aesCbcWriter D)) : Prop :=
  gz_err z = None ∧ gz_closed z = false ∧
  ∃ T, aes_held T (gz_w z) ∧ if gz_wroteHeader z then 10 <= T else T = 0.

(** ** Fixtures *)

Definition test_key : list byte := bytes_of (map Z.of_nat (seq 0 16)).
Definition test_iv : list byte := bytes_of (map Z.of_nat (seq 16 16)).

(** A writer over a [bytes.Buffer], as the tests would build it. *)
Definition test_aes (buffered : list byte) : aesCbcWriter (list byte) :=
  {| aes_w := []; aes_buffer := buffered;
     aes_cbc := Some {| cbc_key := test_key; cbc_iv := test_iv |} |}.

(** A deflater that buffers its input and emits it in stored blocks
    (RFC 1951, 3.2.4) when closed; the clock stands at the epoch and the
    random source counts up from its seed. Headers outside the USTAR
    limits are refused. *)
Fixpoint split_stored (n : Z) (data : list byte) : list byte * list byte :=
  match data with
  | [] => ([], [])
  | x :: data' =>
      if decide (n <= 0) then ([], data)
      else let '(a, b) := split_stored (n - 1) data' in (x :: a, b)
  end.

Fixpoint stored_blocks (n : nat) (data : list byte) : list byte :=
  match n with
  | O => []
  | S n' =>
      if decide (len data <= 65535) then
        bytes_of [1; len data; Z.shiftr (len data) 8;
                  65535 - len data; Z.shiftr (65535 - len data) 8] ++ data
      else
        let '(a, b) := split_stored 65535 data in
        bytes_of [0; 255; 255; 0; 0] ++ a ++ stored_blocks n' b
  end.

Definition testExtern : Extern := {|
  flate := list byte;
  flate_NewWriter := [];
  flate_Write st p := (st ++ p, []);
  flate_Close st := [stored_blocks (S (length st)) st];
  tar_otherFormats hdr := inr "archive/tar: cannot encode header"%string;
  time_Now := 0;
  Rng := Z;
  rand_byte r := (r + 1, byte_of_Z r);
  rand_err r := None
|}.

(** A deflater that passes its input on at once, in stored blocks of at
    most 65535 bytes that are not the last, and ends the stream with an
    empty last block. *)
Definition stored_block (final : Z) (a : list byte) : list byte :=
  bytes_of [final; len a; Z.shiftr (len a) 8;
            65535 - len a; Z.shiftr (65535 - len a) 8] ++ a.

Fixpoint stored_stream (n : nat) (data : list byte) : list (list byte) :=
  match n with
  | O => []
  | S n' =>
      match data with
      | [] => []
      | _ => let '(a, b) := split_stored 65535 data in
             stored_block 0 a :: stored_stream n' b
      end
  end.

Definition streamExtern : Extern := {|
  flate := unit;
  flate_NewWriter := ();
  flate_Write st p := (st, stored_stream (length p) p);
  flate_Close st := [stored_block 1 []];
  tar_otherFormats := @tar_otherFormats testExtern;
  time_Now := 0;
  Rng := Z;
  rand_byte := @rand_byte testExtern;
  rand_err := @rand_err testExtern
|}.

(** RSAES-PKCS1-v1_5 (RFC 8017, 7.2.1) over the test random source, and
    the moduli that certificates_test.go expects of the three
    certificates, with the public exponent 65537; a DER block is stood
    for by one byte. *)
Fixpoint pow_mod (b : Z) (e : positive) (m : Z) : Z :=
  match e with
  | xH => b mod m
  | xO e' => let x := pow_mod b e' m in (x * x) mod m
  | xI e' => let x := pow_mod b e' m in (x * x mod m * b) mod m
  end.

Fixpoint nonzero_random (n : nat) (rng : Z) : Z * list byte :=
  match n with
  | O => (rng, [])
  | S n' =>
      let rng := if decide (rng mod 256 = 0) then rng + 1 else rng in
      let '(rng', bs) := nonzero_random n' (rng + 1) in
      (rng', byte_of_Z rng :: bs)
  end.

Definition test_EncryptPKCS1v15 (rng : Z) (pub : Z * Z) (msg : list byte)
  : Z * (list byte + error) :=
  let k := Z.log2 pub.1 / 8 + 1 in
  if decide (len msg > k - 11) then
    (rng, inr "crypto/rsa: message too long for RSA key size"%string)
  else
    let '(rng, ps) := nonzero_random (Z.to_nat (k - len msg - 3)) rng in
    let em := bytes_of [0; 2] ++ ps ++ bytes_of [0] ++ msg in
    let c := pow_mod (SHA1.be_word (map byte_to_Z em)) (Z.to_pos pub.2) pub.1 in
    (rng, inl (bytes_of (SHA1.be_bytes (Z.to_nat k) c))).

Definition modulusCertEc2 : Z :=
  0xbcbff5f9cd9bfc08055f366bc13346ebfd151c7f5c14f310b9776a2d15042c40a077aa25a88f7a0778e5ac90e9533c5559f0dfbf84468c8f2394920dbe83a5c46a0090b45084073515a0c8e240804f8968f9096905b656afdb3b77dcb67412b4cd0f8c658fb15016a6dacad1d4f71b907053b6a75d9b7484e206ce4ac288bd6d.
Definition modulusCertEc2Gov : Z :=
  0xdb212a78700d4676ffa549c154ec5cc508d4219de6ba52a522d40871aea8823e04352f9e9fec3f1775bbaf88d50adb69a0403a6ebe7af33becceef3495d8dfe256d3454eb3d3603c45c19a7e945784753fb0e58cabab586991a7c163d72554e2c4a066aaafef84b2843d19e0049ccd570e89364809eb90a09c26799f05db4a0b.
Definition modulusCertEc2CnNorth1 : Z :=
  0xeb4d5513d6a752790ce707a04c7114a8d913edfc1a28aa1333ea15ea7d21e43e0b17fa98ec8b92ed89713f7d3c3f4d3213a227e191c7bdcd44fd7d5eb37eadee88dd971f0f8348f314b8abdbb0564a5f9d7591892e5d2ef051732543e6a9e890656de62a8b0ea80a23fc2e61b2f5e74a62c6c5deb5f5e1b3dbe29e977f0b3e1c3303c3d978d86297f78ae77a28fe1edd66f454b47dbecdb617c6ae50dadb1137511fe1068d78a1d276ea68f1e14d52799281e118cf5442ff64039fa30aeee5e28ce7ede06ea210ee1cf8f791c0bc815bc60c95ad92264d67e33e20992276d6e099d01bf40368ffddff899a0368e102c8025fd40560534fe7920056302d50e5af.

Definition testCrypto : @Crypto testExtern :=
  @Build_Crypto testExtern
    (Z * Z)
    (λ c, Some (bytes_of [match c with
                          | certEc2 => 1 | certEc2Gov => 2 | certEc2CnNorth1 => 3
                          end]))
    (λ der,
       if decide (der = bytes_of [1]) then inl (modulusCertEc2, 65537)
       else if decide (der = bytes_of [2]) then inl (modulusCertEc2Gov, 65537)
       else if decide (der = bytes_of [3]) then inl (modulusCertEc2CnNorth1, 65537)
       else inr "x509: malformed certificate"%string)
    (Z * Z) (Z * Z * Z) fst Some test_EncryptPKCS1v15.

(** A user's public key for the tests. *)
Definition test_userKey : Z * Z := (modulusCertEc2Gov, 65537).

Definition test_Application : Application :=
  {| app_Name := "ec2-ami-tools"; app_Version := "1.5"; app_Release := "7";
     app_Comment := "" |}.

Definition test_Metadata : @Metadata testExtern testCrypto :=
  {| md_Name := "image-v1"; md_Architecture := "x86_64";
     md_AWSAccountID := "123456789012"; md_AWSRegion := "us-east-1";
     md_UserKey := None; md_Type := ""; md_Bundler := test_Application |}.

(** The writer that [NewWriter] returns over an empty
    [accumulatingSink], with the secrets that the test random source
    yields from the seed 1. *)
Definition test_Writer (basename : string) (size : Z)
  : @Writer testExtern (gmap string (list byte)) string :=
  fresh_Writer basename size newAccumulatingSink
    (bytes_of (map Z.of_nat (seq 1 16))) (bytes_of (map Z.of_nat (seq 17 16))).

(** An empty manifest, without block device mappings. *)
Definition test_manifest : manifest Empty_set :=
  @Metadata_toManifest testExtern testCrypto Empty_set test_Metadata.

(** What [EncryptSecrets] returns for the secrets of the test writer,
    the default region and the test user key. *)
Definition test_secrets : Z * (manifest Empty_set * option error) :=
    @manifest_EncryptSecrets testExtern testCrypto _ test_manifest
      (key (test_Writer "img" 0)) (iv (test_Writer "img" 0))
      "us-east-1" test_userKey 33.

(** The value that a call returns, or [d] when it does not return. *)
Definition returned {A} (o : outcome A) (d : A) : A :=
  match o with
  | Ret a => a
  | _ => d
  end.

(** Whether a call returns. *)
Definition is_Ret {A} (o : outcome A) : bool :=
  match o with
  | Ret _ => true
  | _ => false
  end.

(** Ten iterations of the loop of the chunk writer are enough for the
    writes of the tests. *)
Definition test_Fuel : Fuel := 10%nat.

(** The test writer for a declared size of one byte, after a [Write] of
    the empty slice. *)
Definition test_short_Writer : @Writer testExtern (gmap string (list byte)) string :=
  (returned (@Writer_Write testExtern test_Fuel _ _ _ (test_Writer "img" 1) [])
            (test_Writer "img" 1, (0, None))).1.

Section TestRuns.
#[local] Existing Instance testExtern.
#[local] Existing Instance test_Fuel.

(** The four stages of [test_short_Writer], each closed after the one
    above it. *)
Definition test_closed_tar :=
  returned (tar_Close (bw_tar test_short_Writer)) (bw_tar test_short_Writer, None).
Definition test_closed_gz :=
  returned (gzip_Close (mw_2 (tar_w test_closed_tar.1)))
           (mw_2 (tar_w test_closed_tar.1), None).
Definition test_closed_aes :=
  returned (aesCbcWriter_Close (gz_w test_closed_gz.1)) (gz_w test_closed_gz.1, None).
Definition test_closed_cw :=
  returned (chunkWriter_Close (cnt_w (aes_w test_closed_aes.1)))
           (cnt_w (aes_w test_closed_aes.1), None).

End TestRuns.

Section TestBundles.
#[local] Existing Instance testExtern.
#[local] Existing Instance test_Fuel.

(** The test writer after the writes [ps], and after [Close] then. *)
Definition test_written (basename : string) (size : Z) (ps : list (list byte))
  : @Writer testExtern (gmap string (list byte)) string :=
  (returned (Writer_writes (test_Writer basename size) ps)
            (test_Writer basename size, None)).1.

Definition test_bundle (basename : string) (size : Z) (ps : list (list byte))
  : @Writer testExtern (gmap string (list byte)) string :=
  (returned (Writer_Close (test_written basename size ps))
            (test_written basename size ps, None)).1.


End TestBundles.

Section StreamRuns.
#[local] Existing Instance streamExtern.
#[local] Existing Instance test_Fuel.

(** Over the streaming deflater: the writer that [NewWriter] returns
    for an image of three bytes, that writer after a [Write] of the
    image, and after [Close] then. *)
Definition stream_Writer : @Writer streamExtern (gmap string (list byte)) string :=
  fresh_Writer "img" 3 newAccumulatingSink
    (bytes_of (map Z.of_nat (seq 1 16))) (bytes_of (map Z.of_nat (seq 17 16))).

Definition stream_written : @Writer streamExtern (gmap string (list byte)) string :=
  (returned (Writer_Write stream_Writer (bytes_of_string "abc"))
            (stream_Writer, (0, None))).1.

Definition stream_bundle : @Writer streamExtern (gmap string (list byte)) string :=
  (returned (Writer_Close stream_written) (stream_written, None)).1.

End StreamRuns.

(** The writer that [NewWriter] returns over a sink that cannot create
    files. *)
Definition refused_Writer : @Writer testExtern refusingSink Empty_set :=
  fresh_Writer "img" 0 RefusingSink
    (bytes_of (map Z.of_nat (seq 1 16))) (bytes_of (map Z.of_nat (seq 17 16))).

(** A cipher over a [bytes.Buffer] that was closed at once; a chunk
    writer over an [accumulatingSink] after a [Write] of three bytes,
    and after [Close] then; and a file of the hashing sink over a sink
    whose files fail to close, with what a [Write] of three bytes to it
    returns. *)
Definition test_closed_cipher : aesCbcWriter (list byte) :=
  (returned (aesCbcWriter_Close (test_aes [])) (test_aes [], None)).1.

Definition test_chunk_written : chunkWriter (gmap string (list byte)) string :=
  (returned (chunkWriter_Write 10 (newChunkWriter newAccumulatingSink "test" 100)
               (bytes_of_string "abc"))
            (newChunkWriter newAccumulatingSink "test" 100, (0, None))).1.

Definition test_chunk_closed : chunkWriter (gmap string (list byte)) string :=
  (returned (chunkWriter_Close test_chunk_written) (test_chunk_written, None)).1.

Definition test_hashingSink : hashingSink leakySink :=
  {| hs_sink := {| leaky_files := ∅ |}; hs_files := [] |}.

Definition test_hashingSinkWriter : hashingSinkWriter string :=
  {| hsw_name := "abc"; hsw_h := sha1_New; hsw_w := "abc"%string |}.

(** * Properties *)

(** A call that returns, returns the value that [returned] reads off
    it. The test runs are stated through these, so that a run is
    evaluated for what is asked of it and no further. *)
Lemma Ret_returned {A} (o : outcome A) (d : A) :
  is_Ret o = true → o = Ret (returned o d).
Proof. by destruct o. Qed.

Lemma Ret_returned_pair {A B} (o : outcome (A * B)) (d : A * B) :
  is_Ret o = true → o = Ret ((returned o d).1, (returned o d).2).
Proof. destruct o as [[a b]| |]; by try discriminate. Qed.

Lemma Ret_returned_snd {A B} (o : outcome (A * B)) (d : A * B) (b : B) :
  is_Ret o = true → (returned o d).2 = b → o = Ret ((returned o d).1, b).
Proof. destruct o as [[a b']| |]; try discriminate. by intros _ <-. Qed.

Lemma triple_None {A B C} (x : A * (B * option C)) :
  x.2.2 = None → x = (x.1, (x.2.1, None)).
Proof. destruct x as [a [b c]]; simpl; by intros ->. Qed.

Ltac returned_Ret :=
  first [ refine (Ret_returned_pair _ _ _); exact eq_refl
        | refine (Ret_returned_snd _ _ _ _ _); exact eq_refl
        | refine (Ret_returned _ _ _); exact eq_refl ].

(** ** Test vectors of the primitives *)

(** FIPS-197, appendix C.1. *)
Example aes128_fips197 :
  hex (aes_block (bytes_of [0;1;2;3;4;5;6;7;8;9;10;11;12;13;14;15])
         (bytes_of [0;17;34;51;68;85;102;119;136;153;170;187;204;221;238;255]))
  = "69c4e0d86a7b0430d8cdb78070b4c55a"%string.
Proof. vm_compute. reflexivity. Qed.

(** FIPS-197, appendix C.3 (a 32-byte key). *)
Example aes256_fips197 :
  hex (aes_block (bytes_of (map Z.of_nat (seq 0 32)))
         (bytes_of [0;17;34;51;68;85;102;119;136;153;170;187;204;221;238;255]))
  = "8ea2b7ca516745bfeafc49904b496089"%string.
Proof. vm_compute. reflexivity. Qed.


(** The SHA-1 vectors of hashing_sink_test.go. *)
Example sha1_empty :
  hex (sha1 []) = "da39a3ee5e6b4b0d3255bfef95601890afd80709"%string.
Proof. vm_compute. reflexivity. Qed.

Example sha1_abc :
  hex (sha1 (bytes_of_string "abc"))
  = "a9993e364706816aba3e25717850c26c9cd0d89d"%string.
Proof. vm_compute. reflexivity. Qed.

Example sha1_longer :
  hex (sha1 (bytes_of_string
         "abcdbcdecdefdefgefghfghighijhijkijkljklmklmnlmnomnopnopq"))
  = "84983e441c3bd26ebaae4aa1f95129e5e54670f1"%string.
Proof. vm_compute. reflexivity. Qed.

(** ** The AES-128-CBC writer *)

Example newAes128CbcWriter_test :
  newAes128CbcWriter ([] : list byte) test_key test_iv = Ret (inl (test_aes [])).
Proof. reflexivity. Qed.

(** C2, at its failing input. On a fresh writer [Write] of one byte
    buffers it and returns 1; a second [Write] of one byte buffers it as
    well, without completing a block, and returns the count 0 with a nil
    error although the writer is open and the sink below never failed. *)
Theorem aesCbcWriter_Write_partial_block_count :
  aesCbcWriter_Write (test_aes []) ["001"%byte]
    = Ret (test_aes ["001"%byte], (1, None)) ∧
  aesCbcWriter_Write (test_aes ["001"%byte]) ["002"%byte]
    = Ret (test_aes ["001"; "002"]%byte, (0, None)) ∧
  len ["002"%byte] = 1.
Proof. repeat split; vm_compute; reflexivity. Qed.

(** ** The hashing sink *)

(** C10. Closing a file of the hashing sink appends its (filename,
    SHA-1) record to the list of the sink whatever the close of the
    underlying file returns: the record is in the list, and the error of
    the underlying close is the result, also when that close fails. *)
Theorem hashingSinkWriter_Close_records_file
    {Sk Fh : Type} `{!Sink Sk Fh}
    (hs : hashingSink Sk) (hsw : hashingSinkWriter Fh)
    (s' : Sk) (err : option error) :
  file_Close (hs_sink hs) (hsw_w hsw) = Ret (s', err) →
  hashingSinkWriter_Close hs hsw
  = Ret ({| hs_sink := s';
            hs_files := hs_files hs ++
              [{| hsf_filename := hsw_name hsw;
                  hsf_hash := sha1 (hash_written (hsw_h hsw)) |}] |}, err).
Proof.
  intros Hclose. unfold hashingSinkWriter_Close; simpl.
  rewrite Hclose. reflexivity.
Qed.

(** A file named "abc" that received the bytes of "abc", over a sink
    whose close fails: the record is appended and the error returned. *)
Lemma hashingSinkWriter_Close_records_file_witness :
  hashingSinkWriter_Close
    {| hs_sink := {| leaky_files := {[ "abc"%string := bytes_of_string "abc" ]} |};
       hs_files := [] |}
    {| hsw_name := "abc"; hsw_h := {| hash_written := bytes_of_string "abc" |};
       hsw_w := "abc"%string |}
  = Ret ({| hs_sink := {| leaky_files := {[ "abc"%string := bytes_of_string "abc" ]} |};
            hs_files := [{| hsf_filename := "abc";
                            hsf_hash := sha1 (bytes_of_string "abc") |}] |},
         Some "close failed"%string).
Proof.
  apply (hashingSinkWriter_Close_records_file
           {| hs_sink := {| leaky_files := {[ "abc"%string := bytes_of_string "abc" ]} |};
              hs_files := [] |}
           {| hsw_name := "abc"; hsw_h := {| hash_written := bytes_of_string "abc" |};
              hsw_w := "abc"%string |}).
  reflexivity.
Defined.

(** ** The chunk writer *)

Lemma chunkWriter_Write_loop_refused fuel (cw : chunkWriter refusingSink Empty_set)
    (b : byte) (p : list byte) (n : Z) :
  chunkWriter_Write_loop fuel cw (b :: p) n = Diverge.
Proof.
  revert cw. induction fuel as [|fuel IH]; intros cw; [reflexivity|].
  destruct cw as [s name size filename [[]|] index offset].
  simpl. destruct (decide (len (b :: p) > 0)) as [_|Hn]; [|unfold len in Hn; simpl in Hn; lia].
  unfold chunkWriter_bytesRemainingInChunk; simpl.
  apply IH.
Qed.

(** C3, at its failing inputs. [Write] drops the result of [newChunk].
    Over a sink that cannot create a file, a [Write] of at least one
    byte never returns, with any bound on the iterations of its loop: the
    error of [WriteBundleFile] is not returned. Over a sink whose files
    fail to close, a [Write] that rotates from part 0 to the next part
    returns a nil error: the error of the failed close is lost. *)
Theorem chunkWriter_Write_drops_newChunk_error :
  (∀ fuel name chunkSize b p,
     chunkWriter_Write fuel (newChunkWriter RefusingSink name chunkSize) (b :: p)
     = Diverge) ∧
  (∃ cw, chunkWriter_Write 5%nat
           (newChunkWriter {| leaky_files := ∅ |} "test" 1) ["001"; "002"]%byte
         = Ret (cw, (2, None)) ∧
         leaky_files (cw_sink cw)
         = {[ "test.part.0"%string := ["001"%byte];
              "test.part.1"%string := ["002"%byte] ]} ∧
         cw_index cw = 2).
Proof.
  split.
  - intros. apply chunkWriter_Write_loop_refused.
  - eexists. split; [vm_compute; reflexivity|]. split; vm_compute; reflexivity.
Qed.

Example crc32_check :
  crc32_Update 0 (bytes_of_string "123456789") = 3421780262.
Proof. vm_compute. reflexivity. Qed.

(** ** The fixtures are what the constructors return *)

Example NewWriter_test basename size :
  NewWriter (E := testExtern) (Fh := string) basename size newAccumulatingSink 1
  = Ret (33, inl (test_Writer basename size)).
Proof. reflexivity. Qed.

Example Metadata_toManifest_test :
  image_Type (m_Image test_manifest) = "machine"%string.
Proof. reflexivity. Qed.

(** ** Hexadecimal *)

Lemma hex_digit_lower (n : Z) :
  hex_digit n ∈ list_ascii_of_string "0123456789abcdef".
Proof.
  unfold hex_digit.
  destruct (decide (Z.to_nat n < 16)%nat) as [Hlt|Hge].
  - apply list_elem_of_In, nth_In. exact Hlt.
  - rewrite nth_overflow by (simpl; lia). simpl. left.
Qed.

Lemma hex_is_lower_hex (b : list byte) : is_lower_hex (hex b).
Proof.
  unfold is_lower_hex. induction b as [|x b IH]; simpl.
  - constructor.
  - constructor; [apply hex_digit_lower|].
    constructor; [apply hex_digit_lower|]. exact IH.
Qed.

Lemma hex_length (b : list byte) : String.length (hex b) = (2 * length b)%nat.
Proof. induction b as [|x b IH]; simpl; [reflexivity|]. rewrite IH. lia. Qed.

(** ** Names (C5) *)



(** ** Secrets (C7) *)

(** C7. When [EncryptSecrets] succeeds, the certificate of the region
    carries an RSA key, and four PKCS#1 v1.5 encryptions were made, in
    this order: of the hexadecimal text of the key under the EC2 key
    and under the user's key, and of the hexadecimal text of the IV under
    the EC2 key and under the user's key. The manifest holds the four
    ciphertexts in hexadecimal. All six texts are lowercase hexadecimal,
    and the texts of a 16-byte key and IV have 32 characters. *)
Theorem manifest_EncryptSecrets_encrypts_hex_text
    `{Crypto} {BDM : Type} (m m' : manifest BDM) (key iv : list byte)
    (region : string) (userKey : rsa_PublicKey) (rng rng' : Rng) :
  manifest_EncryptSecrets m key iv region userKey rng = (rng', (m', None)) →
  ∃ cert ec2key r1 r2 r3 c1 c2 c3 c4,
    CertificateForEC2Region region = inl cert ∧
    cert_rsa_PublicKey cert = Some ec2key ∧
    rsa_EncryptPKCS1v15 rng ec2key (bytes_of_string (hex key)) = (r1, inl c1) ∧
    rsa_EncryptPKCS1v15 r1 userKey (bytes_of_string (hex key)) = (r2, inl c2) ∧
    rsa_EncryptPKCS1v15 r2 ec2key (bytes_of_string (hex iv)) = (r3, inl c3) ∧
    rsa_EncryptPKCS1v15 r3 userKey (bytes_of_string (hex iv)) = (rng', inl c4) ∧
    image_EC2EncryptedKey (m_Image m')
      = {| va_Algorithm := "AES-128-CBC"; va_Value := hex c1 |} ∧
    image_UserEncryptedKey (m_Image m')
      = {| va_Algorithm := "AES-128-CBC"; va_Value := hex c2 |} ∧
    image_EC2EncryptedIV (m_Image m') = hex c3 ∧
    image_UserEncryptedIV (m_Image m') = hex c4 ∧
    Forall is_lower_hex [hex key; hex iv; hex c1; hex c2; hex c3; hex c4] ∧
    (length key = 16%nat → String.length (hex key) = 32%nat) ∧
    (length iv = 16%nat → String.length (hex iv) = 32%nat).
Proof.
  unfold manifest_EncryptSecrets. intros Henc.
  destruct (CertificateForEC2Region region) as [cert|?] eqn:Ecert; [|discriminate].
  destruct (cert_rsa_PublicKey cert) as [ec2key|] eqn:Ekey; [|discriminate].
  destruct (rsa_EncryptPKCS1v15 rng ec2key _) as [r1 [c1|?]] eqn:E1; [|discriminate].
  destruct (rsa_EncryptPKCS1v15 r1 userKey _) as [r2 [c2|?]] eqn:E2; [|discriminate].
  destruct (rsa_EncryptPKCS1v15 r2 ec2key _) as [r3 [c3|?]] eqn:E3; [|discriminate].
  destruct (rsa_EncryptPKCS1v15 r3 userKey _) as [r4 [c4|?]] eqn:E4; [|discriminate].
  injection Henc as <- <-.
  exists cert, ec2key, r1, r2, r3, c1, c2, c3, c4.
  repeat (split; [first [reflexivity | assumption]|]).
  split; [repeat constructor; apply hex_is_lower_hex|].
  split; intros Hlen; rewrite hex_length, Hlen; reflexivity.
Qed.

(** The secrets of the test writer, for the default region. *)
Lemma manifest_EncryptSecrets_encrypts_hex_text_witness :
  ∃ cert ec2key r1 r2 r3 c1 c2 c3 c4,
    @CertificateForEC2Region testExtern testCrypto "us-east-1" = inl cert ∧
    @cert_rsa_PublicKey testExtern testCrypto cert = Some ec2key ∧
    @rsa_EncryptPKCS1v15 testExtern testCrypto 33 ec2key
      (bytes_of_string (hex (key (test_Writer "img" 0)))) = (r1, inl c1) ∧
    @rsa_EncryptPKCS1v15 testExtern testCrypto r1 test_userKey
      (bytes_of_string (hex (key (test_Writer "img" 0)))) = (r2, inl c2) ∧
    @rsa_EncryptPKCS1v15 testExtern testCrypto r2 ec2key
      (bytes_of_string (hex (iv (test_Writer "img" 0)))) = (r3, inl c3) ∧
    @rsa_EncryptPKCS1v15 testExtern testCrypto r3 test_userKey
      (bytes_of_string (hex (iv (test_Writer "img" 0))))
      = (test_secrets.1, inl c4) ∧
    image_EC2EncryptedKey (m_Image test_secrets.2.1)
      = {| va_Algorithm := "AES-128-CBC"; va_Value := hex c1 |} ∧
    image_UserEncryptedKey (m_Image test_secrets.2.1)
      = {| va_Algorithm := "AES-128-CBC"; va_Value := hex c2 |} ∧
    image_EC2EncryptedIV (m_Image test_secrets.2.1) = hex c3 ∧
    image_UserEncryptedIV (m_Image test_secrets.2.1) = hex c4 ∧
    Forall is_lower_hex
      [hex (key (test_Writer "img" 0)); hex (iv (test_Writer "img" 0));
       hex c1; hex c2; hex c3; hex c4] ∧
    (length (key (test_Writer "img" 0)) = 16%nat →
     String.length (hex (key (test_Writer "img" 0))) = 32%nat) ∧
    (length (iv (test_Writer "img" 0)) = 16%nat →
     String.length (hex (iv (test_Writer "img" 0))) = 32%nat).
Proof.
  refine (@manifest_EncryptSecrets_encrypts_hex_text testExtern testCrypto _
            test_manifest test_secrets.2.1 (key (test_Writer "img" 0))
            (iv (test_Writer "img" 0)) "us-east-1" test_userKey 33
            test_secrets.1 _).
  refine (triple_None _ _). exact eq_refl.
Defined.

(** ** Results of calls *)

Lemma bind_Ret {A B} (m : outcome A) (f : A → outcome B) (b : B) :
  m ≫= f = Ret b → ∃ a, m = Ret a ∧ f a = Ret b.
Proof. destruct m; simpl; [eauto|discriminate..]. Qed.

(** [inv_ret H] splits a hypothesis [H] that says that a sequence of
    calls returns, call by call. *)
Ltac inv_ret H :=
  repeat match type of H with
  | _ ≫= _ = Ret _ =>
      let a := fresh "a" in let Ha := fresh "Hcall" in
      apply bind_Ret in H as (a & Ha & H)
  | Ret _ = Ret _ => injection H as H
  | (let '(_, _) := ?x in _) = Ret _ => destruct x
  | (match ?x with _ => _ end) = Ret _ => destruct x eqn:?; try discriminate H
  | (if ?x then _ else _) = Ret _ => destruct x eqn:?; try discriminate H
  end.

(** ** Close of the bundle writer, when its stages return *)

Section Close.
Context `{E : Extern} `{F : Fuel} {Sk Fh : Type} `{!Sink Sk Fh}.

(** X1. When the closes of the four stages return: on a writer that is
    not closed, [Close] closes the tar framer, then the gzip writer that the closed framer wrote to, then
    the AES writer below the closed gzip writer, then the chunk writer
    below the closed AES writer: each stage is closed whatever the
    stages before it returned. The result is the first error among the
    four results and the check of the size, in this order. The writer
    that is left is marked closed, whether or not there was an error,
    and [Close] on it is an error that touches nothing. *)
Theorem Writer_Close_closes_every_stage (bw : Writer Sk Fh)
    t e1 z e2 a e3 c e4 :
  closed bw = false →
  tar_Close (bw_tar bw) = Ret (t, e1) →
  gzip_Close (mw_2 (tar_w t)) = Ret (z, e2) →
  aesCbcWriter_Close (gz_w z) = Ret (a, e3) →
  chunkWriter_Close (cnt_w (aes_w a)) = Ret (c, e4) →
  let e5 := if decide (size bw = cnt_n (trueSize bw)) then None
            else Some (Writer_sizeError (size bw) (cnt_n (trueSize bw))) in
  ∃ bw', Writer_Close bw = Ret (bw', first_error [e1; e2; e3; e4; e5]) ∧
         closed bw' = true ∧
         bw_cw bw' = c ∧
         aes_cbc (bw_aes bw') = aes_cbc a ∧
         gz_closed (bw_gz bw') = gz_closed z ∧
         tar_err (bw_tar bw') = tar_err t ∧
         Writer_Close bw' = Ret (bw', Some "Writer is already closed"%string).
Proof.
  intros Hopen Htar Hgz Haes Hcw e5.
  unfold Writer_Close. rewrite Hopen, Htar. cbn [mbind outcome_bind].
  change (bw_gz (set_tar bw t)) with (mw_2 (tar_w t)). rewrite Hgz.
  cbn [mbind outcome_bind].
  change (bw_aes (set_gz (set_tar bw t) z)) with (gz_w z). rewrite Haes.
  cbn [mbind outcome_bind].
  change (bw_cw (set_aes (set_gz (set_tar bw t) z) a)) with (cnt_w (aes_w a)).
  rewrite Hcw. cbn [mbind outcome_bind].
  match goal with |- ∃ _, Ret (?x, _) = _ ∧ _ => exists x end.
  split; [|repeat split; reflexivity].
  do 2 f_equal. subst e5.
  cbn [size set_cw set_aes set_gz set_tar set_trueSize trueSize cnt_n].
  destruct e1, e2, e3, e4, (decide (size bw = cnt_n (trueSize bw)));
    destruct (decide (size bw ≠ cnt_n (trueSize bw))); try contradiction;
    reflexivity.
Qed.

End Close.

Section CloseWitness.
#[local] Existing Instance testExtern.
#[local] Existing Instance test_Fuel.

(** One byte was declared and none written: the tar framer fails to
    close, the three stages below it close without error, and the size
    does not match. *)
Example test_short_Writer_errors :
  [test_closed_tar.2; test_closed_gz.2; test_closed_aes.2; test_closed_cw.2]
  = [Some "archive/tar: missed writing 1 bytes"%string; None; None; None] ∧
  Writer_sizeError (size test_short_Writer) (cnt_n (trueSize test_short_Writer))
  = "expected 1 bytes, actually wrote 0 bytes"%string.
Proof. split; exact eq_refl. Qed.

Lemma Writer_Close_closes_every_stage_witness :
  ∃ bw', Writer_Close test_short_Writer
         = Ret (bw', first_error
                  [test_closed_tar.2; test_closed_gz.2; test_closed_aes.2;
                   test_closed_cw.2;
                   if decide (size test_short_Writer
                              = cnt_n (trueSize test_short_Writer))
                   then None
                   else Some (Writer_sizeError (size test_short_Writer)
                                (cnt_n (trueSize test_short_Writer)))]) ∧
         closed bw' = true ∧
         bw_cw bw' = test_closed_cw.1 ∧
         aes_cbc (bw_aes bw') = aes_cbc test_closed_aes.1 ∧
         gz_closed (bw_gz bw') = gz_closed test_closed_gz.1 ∧
         tar_err (bw_tar bw') = tar_err test_closed_tar.1 ∧
         Writer_Close bw' = Ret (bw', Some "Writer is already closed"%string).
Proof.
  refine (Writer_Close_closes_every_stage test_short_Writer
            test_closed_tar.1 test_closed_tar.2 test_closed_gz.1 test_closed_gz.2
            test_closed_aes.1 test_closed_aes.2 test_closed_cw.1 test_closed_cw.2
            _ _ _ _ _).
  - exact eq_refl.
  - unfold test_closed_tar at 1 2. returned_Ret.
  - unfold test_closed_gz at 1 2. returned_Ret.
  - unfold test_closed_aes at 1 2. returned_Ret.
  - unfold test_closed_cw at 1 2. returned_Ret.
Defined.

End CloseWitness.

(** ** Lengths and counters *)

Lemma len_nil {A} : len (@nil A) = 0.
Proof. reflexivity. Qed.

Lemma len_app {A} (a b : list A) : len (a ++ b) = len a + len b.
Proof. unfold len. rewrite length_app. lia. Qed.

Lemma len_nonneg {A} (a : list A) : 0 <= len a.
Proof. unfold len. lia. Qed.

Lemma len_replicate {A} (n : nat) (x : A) : len (replicate n x) = Z.of_nat n.
Proof. unfold len. rewrite length_replicate. reflexivity. Qed.

Lemma len_pos_inv {A} (a : list A) : ¬ len a > 0 → a = [].
Proof. destruct a; [reflexivity|]. unfold len; simpl. lia. Qed.

Lemma wrap64_small (z : Z) : - 2 ^ 63 <= z < 2 ^ 63 → wrap64 z = z.
Proof. intros Hz. unfold wrap64. rewrite Z.mod_small; lia. Qed.

Lemma wrap64_mod16 (z : Z) : wrap64 z mod 16 = z mod 16.
Proof.
  unfold wrap64.
  pose proof (Z.div_mod (z + 2 ^ 63) (2 ^ 64) ltac:(lia)) as Hdm.
  set (q := (z + 2 ^ 63) / 2 ^ 64) in *.
  replace ((z + 2 ^ 63) mod 2 ^ 64 - 2 ^ 63) with (z + (- (2 ^ 60) * q) * 16) by lia.
  apply Z.mod_add. lia.
Qed.

Lemma slice_to_Ret {A} (p q : list A) (x : Z) :
  slice_to p x = Ret q → 0 <= x <= len p ∧ q = take (Z.to_nat x) p.
Proof. unfold slice_to. destruct (decide _); [|discriminate]. intros [= <-]. auto. Qed.

Lemma slice_from_Ret {A} (p q : list A) (x : Z) :
  slice_from p x = Ret q → 0 <= x <= len p ∧ q = drop (Z.to_nat x) p.
Proof. unfold slice_from. destruct (decide _); [|discriminate]. intros [= <-]. auto. Qed.

Lemma fill_length (n : nat) (src : list byte) : length (fill n src) = n.
Proof. unfold fill. rewrite length_take, length_app, length_replicate. lia. Qed.

(** ** The tee and the tar framer *)

Section TarOverTee.
Context `{E : Extern} {B : Type} `{!io_Writer B}.

(** A write to the tee reaches the hash whole, whatever the second
    writer returns; it succeeds only if the second writer does. *)
Lemma tee_Write_Ret (t t' : multiWriter hash_Hash B) (p : list byte) (r : wres) :
  io_Write t p = Ret (t', r) →
  hash_written (mw_1 t') = hash_written (mw_1 t) ++ p ∧
  ∃ r2, io_Write (mw_2 t) p = Ret (mw_2 t', r2) ∧
        (r.2 = None → r2.2 = None ∧ r.1 = len p).
Proof.
  change (io_Write t p) with (multiWriter_Write t p). unfold multiWriter_Write.
  change (io_Write (mw_1 t) p) with (Ret (hash_Write (mw_1 t) p)).
  unfold hash_Write. cbn [mbind outcome_bind].
  destruct (decide (len p ≠ len p)) as [Hne|_]; [contradiction|].
  intros H. apply bind_Ret in H as ([b [n err]] & Hb & H). cbn [mw_1 mw_2] in *.
  destruct err as [e|].
  - injection H as <- <-. cbn. split; [reflexivity|].
    eexists. split; [exact Hb|]. discriminate.
  - destruct (decide (n ≠ len p)); injection H as <- <-; cbn;
      (split; [reflexivity|]); (eexists; split; [exact Hb|]); cbn;
      [discriminate | auto].
Qed.

Lemma take_zeroBlock (x : Z) :
  0 <= x <= len zeroBlock →
  take (Z.to_nat x) zeroBlock = replicate (Z.to_nat x) "000"%byte.
Proof.
  intros Hx. unfold zeroBlock in *. rewrite take_replicate. f_equal.
  rewrite len_replicate in Hx. lia.
Qed.

Lemma tar_Flush_Ret (tw tw' : tar_Writer (multiWriter hash_Hash B)) :
  tar_Flush tw = Ret (tw', None) →
  tar_err tw = None ∧ tar_err tw' = None ∧ tar_nb tw' = tar_nb tw ∧
  tar_nb tw <= 0 ∧ tar_pad tw' = 0 ∧
  tar_hashed tw' = tar_hashed tw ++ replicate (Z.to_nat (tar_pad tw)) "000"%byte.
Proof.
  unfold tar_Flush. intros H.
  destruct (tar_err tw) eqn:Herr; [discriminate|].
  destruct (decide (tar_nb tw > 0)) as [|Hnb]; [discriminate|].
  apply bind_Ret in H as (pad & Hpad & H).
  apply slice_to_Ret in Hpad as [Hrange ->].
  apply bind_Ret in H as ([w [k err]] & Hw & H).
  destruct err; [discriminate|]. injection H as <-.
  apply tee_Write_Ret in Hw as [Hhash _].
  unfold tar_hashed. cbn [tar_w tar_err tar_nb tar_pad].
  rewrite take_zeroBlock in Hhash by exact Hrange.
  repeat split; auto; lia.
Qed.

Lemma tar_WriteHeader_Ret (tw tw' : tar_Writer (multiWriter hash_Hash B))
    (hdr : tar_Header) :
  tar_WriteHeader tw hdr = Ret (tw', None) →
  ∃ blk size,
    tar_encodeHeader hdr = inl (blk, size) ∧
    tar_err tw' = None ∧ tar_nb tw' = size ∧ tar_pad tw' = blockPadding size ∧
    tar_hashed tw'
    = tar_hashed tw ++ replicate (Z.to_nat (tar_pad tw)) "000"%byte ++ blk.
Proof.
  unfold tar_WriteHeader. intros H.
  apply bind_Ret in H as ([tw1 e1] & Hflush & H).
  destruct e1; [discriminate|].
  apply tar_Flush_Ret in Hflush as (_ & Herr1 & Hnb1 & _ & Hpad1 & Hhash1).
  destruct (tar_encodeHeader hdr) as [[blk size]|] eqn:Henc; [|discriminate].
  apply bind_Ret in H as ([tw2 e2] & Hraw & H).
  injection H as <- ->.
  unfold tar_writeRawHeader in Hraw.
  apply bind_Ret in Hraw as ([tw3 e3] & Hflush & Hraw).
  destruct e3; [discriminate|].
  apply tar_Flush_Ret in Hflush as (_ & Herr3 & Hnb3 & _ & Hpad3 & Hhash3).
  apply bind_Ret in Hraw as ([w [k err]] & Hw & Hraw).
  destruct err; [discriminate|]. injection Hraw as <-.
  apply tee_Write_Ret in Hw as [Hhash _].
  exists blk, size. unfold tar_hashed in *. cbn [tar_w tar_err tar_nb tar_pad].
  rewrite Hhash, Hhash3, Hhash1, Hpad1. cbn [Z.to_nat replicate].
  rewrite app_nil_r, <- app_assoc. auto.
Qed.

Lemma tar_Write_Ret (tw tw' : tar_Writer (multiWriter hash_Hash B))
    (b : list byte) (n : Z) :
  tar_Write tw b = Ret (tw', (n, None)) →
  n = len b ∧ tar_err tw = None ∧ tar_err tw' = None ∧
  tar_pad tw' = tar_pad tw ∧ tar_hashed tw' = tar_hashed tw ++ b.
Proof.
  unfold tar_Write. intros H.
  destruct (tar_err tw) eqn:Herr; [discriminate|].
  destruct (bool_decide (len b > tar_nb tw)) eqn:Hover.
  - apply bind_Ret in H as (b' & _ & H).
    apply bind_Ret in H as ([w [k err]] & _ & H).
    destruct err; discriminate.
  - cbn [mbind outcome_bind] in H.
    destruct (decide (len b > 0)) as [Hpos|Hzero].
    + apply bind_Ret in H as ([w [k err]] & Hw & H).
      destruct err; [discriminate|]. injection H as <- <-.
      apply tee_Write_Ret in Hw as [Hhash (r2 & _ & Hok)].
      destruct (Hok eq_refl) as [_ Hk]. cbn in Hk.
      unfold tar_hashed. cbn [tar_w tar_err tar_nb tar_pad]. auto.
    + cbn [mbind outcome_bind] in H. injection H as <- <-.
      apply len_pos_inv in Hzero as ->.
      unfold tar_hashed. cbn [tar_w tar_err tar_nb tar_pad].
      rewrite app_nil_r. auto.
Qed.

Lemma tar_Close_Ret (tw tw' : tar_Writer (multiWriter hash_Hash B)) :
  tar_err tw = None →
  tar_Close tw = Ret (tw', None) →
  tar_hashed tw'
  = tar_hashed tw ++ replicate (Z.to_nat (tar_pad tw)) "000"%byte
    ++ zeroBlock ++ zeroBlock.
Proof.
  unfold tar_Close. intros Herr H. rewrite Herr in H.
  apply bind_Ret in H as ([tw1 e1] & Hflush & H).
  apply bind_Ret in H as ([w e2] & Hw & H). injection H as <- ->.
  destruct e1; [injection Hw as _ Hw; discriminate|].
  apply tar_Flush_Ret in Hflush as (_ & _ & _ & _ & _ & Hhash1).
  cbn [write_all] in Hw.
  apply bind_Ret in Hw as ([w1 [k1 err1]] & Hw1 & Hw).
  destruct err1; [discriminate|].
  apply bind_Ret in Hw as ([w2 [k2 err2]] & Hw2 & Hw).
  destruct err2; [discriminate|]. injection Hw as <-.
  apply tee_Write_Ret in Hw1 as [Hh1 _]. apply tee_Write_Ret in Hw2 as [Hh2 _].
  unfold tar_hashed in *. cbn [tar_w]. rewrite Hh2, Hh1, Hhash1.
  rewrite <- !app_assoc. reflexivity.
Qed.

End TarOverTee.

(** ** The bundle writer: what the hash of the image sees (C9, C1) *)

Section BundleHash.
Context `{E : Extern} `{F : Fuel} {Sk Fh : Type} `{!Sink Sk Fh}.

Lemma rand_bytes_length (n : nat) (r : Rng) : length (rand_bytes n r).2 = n.
Proof.
  revert r. induction n as [|n IH]; intros r; [reflexivity|].
  cbn [rand_bytes]. destruct (rand_byte r) as [r1 b].
  specialize (IH r1). destruct (rand_bytes n r1) as [r2 bs]. cbn in *. lia.
Qed.

Lemma NewWriter_Ret (name : string) (sz : Z) (sink : Sk) (rng rng' : Rng)
    (bw : Writer Sk Fh) :
  NewWriter name sz sink rng = Ret (rng', inl bw) →
  ∃ key iv, bw = fresh_Writer name sz sink key iv ∧
            length key = 16%nat ∧ length iv = 16%nat.
Proof.
  unfold NewWriter, rand_Read. intros H.
  destruct (rand_err rng); [discriminate|].
  pose proof (rand_bytes_length 16 rng) as Hk.
  destruct (rand_bytes 16 rng) as [r1 key]. cbn in Hk.
  destruct (rand_err r1); [discriminate|].
  pose proof (rand_bytes_length 16 r1) as Hv.
  destruct (rand_bytes 16 r1) as [r2 iv]. cbn in Hv.
  unfold newAes128CbcWriter, aes_NewCipher, cipher_NewCBCEncrypter in H.
  destruct (decide _) as [_|Hno]; [|exfalso; apply Hno; auto].
  destruct (decide (length iv = 16%nat)); [|contradiction].
  cbn in H. injection H as <- <-. exists key, iv. auto.
Qed.








Lemma Writer_Write_framed (bw bw' : Writer Sk Fh) (B p : list byte) (n : Z) :
  Writer_framed bw B →
  Writer_Write bw p = Ret (bw', (n, None)) →
  Writer_framed bw' (B ++ p) ∧ didInitialWrite bw' = true ∧
  Writer_header bw' = Writer_header bw.
Proof.
  intros [Herr Hfr] H. unfold Writer_Write in H.
  assert (∀ bw1 : Writer Sk Fh,
            tar_err (bw_tar bw1) = None →
            (∃ blk size', tar_encodeHeader (Writer_header bw1) = inl (blk, size') ∧
                          tar_hashed (bw_tar bw1) = blk ++ B ∧
                          tar_pad (bw_tar bw1) = blockPadding size') →
            didInitialWrite bw1 = true →
            Writer_forward bw1 p = Ret (bw', (n, None)) →
            Writer_framed bw' (B ++ p) ∧ didInitialWrite bw' = true ∧
            Writer_header bw' = Writer_header bw1) as Hfwd.
  { clear. intros bw1 Herr (blk & size' & Henc & Hhash & Hpad) Hdid H.
    unfold Writer_forward in H.
    apply bind_Ret in H as ([ts r] & Hts & H). injection H as <- ->.
    change (io_Write (trueSize bw1) p) with (countingWriter_Write (trueSize bw1) p)
      in Hts.
    unfold countingWriter_Write in Hts.
    apply bind_Ret in Hts as ([t [k err]] & Ht & Hts). injection Hts as <- -> ->.
    change (io_Write ?x p) with (tar_Write x p) in Ht.
    apply tar_Write_Ret in Ht as (_ & _ & Herr' & Hpad' & Hhash').
    unfold Writer_framed.
    cbn [didInitialWrite set_trueSize bw_tar trueSize cnt_w].
    rewrite Hdid. repeat split; auto.
    exists blk, size'. repeat split.
    - exact Henc.
    - fold (bw_tar bw1) in Hhash'. rewrite Hhash', Hhash, app_assoc. reflexivity.
    - fold (bw_tar bw1) in Hpad'. congruence. }
  destruct (didInitialWrite bw) eqn:Hdid.
  - apply Hfwd; auto.
  - destruct Hfr as (-> & Hh0 & Hp0).
    apply bind_Ret in H as ([bw1 e] & Hinit & H).
    destruct e; [discriminate|].
    unfold Writer_doInitialWrite in Hinit.
    apply bind_Ret in Hinit as ([t e] & Hhdr & Hinit).
    destruct e; [discriminate|]. injection Hinit as <-.
    apply tar_WriteHeader_Ret in Hhdr
      as (blk & size' & Henc & Herr1 & _ & Hpad1 & Hhash1).
    rewrite Hh0, Hp0 in Hhash1. cbn [Z.to_nat replicate app] in Hhash1.
    eapply Hfwd in H; cbn [didInitialWrite]; auto.
    exists blk, size'. rewrite app_nil_r. auto.
Qed.

Lemma Writer_writes_framed (ps : list (list byte)) (bw bw' : Writer Sk Fh)
    (B : list byte) :
  Writer_framed bw B →
  Writer_writes bw ps = Ret (bw', None) →
  Writer_framed bw' (B ++ concat ps) ∧ Writer_header bw' = Writer_header bw ∧
  (didInitialWrite bw' = false → ps = []).
Proof.
  revert bw B. induction ps as [|p ps IH]; intros bw B Hfr H; cbn in H.
  - injection H as <-. cbn. rewrite app_nil_r. auto.
  - apply bind_Ret in H as ([bw1 [k e]] & Hw & H).
    destruct e; [discriminate|].
    destruct (Writer_Write_framed _ _ _ _ _ Hfr Hw) as (Hfr1 & Hdid1 & Hhdr1).
    destruct (IH _ _ Hfr1 H) as (Hfr' & Hhdr' & Hnil).
    cbn [concat]. rewrite app_assoc. split; [exact Hfr'|].
    split; [congruence|]. intros Hdid'. exfalso.
    destruct Hfr1 as [_ Hfr1]. rewrite Hdid1 in Hfr1.
    destruct Hfr' as [_ Hfr']. rewrite Hdid' in Hfr'.
    destruct Hfr1 as (blk & ? & _ & Hh1 & _).
    specialize (Hnil Hdid'). subst ps. cbn in H. injection H as <-. congruence.
Qed.

End BundleHash.

(** ** Close, stage by stage, and the digest of the image (C1) *)

Section BundleClose.
Context `{E : Extern} `{F : Fuel} {Sk Fh : Type} `{!Sink Sk Fh}.

Lemma first_error_None (errs : list (option error)) :
  first_error errs = None → Forall (λ e, e = None) errs.
Proof.
  unfold first_error. induction errs as [|[e|] errs IH]; cbn; intros H.
  - constructor.
  - discriminate.
  - constructor; auto.
Qed.

(** What [Close] does on a writer that is not closed, stage by stage. *)
Lemma Writer_Close_Ret (bw bw' : Writer Sk Fh) (e : option error) :
  closed bw = false →
  Writer_Close bw = Ret (bw', e) →
  ∃ t e1 z e2 a e3 c e4,
    tar_Close (bw_tar bw) = Ret (t, e1) ∧
    gzip_Close (mw_2 (tar_w t)) = Ret (z, e2) ∧
    aesCbcWriter_Close (gz_w z) = Ret (a, e3) ∧
    chunkWriter_Close (cnt_w (aes_w a)) = Ret (c, e4) ∧
    e = first_error [e1; e2; e3; e4;
                     if decide (size bw = cnt_n (trueSize bw)) then None
                     else Some (Writer_sizeError (size bw) (cnt_n (trueSize bw)))] ∧
    closed bw' = true ∧ size bw' = size bw ∧
    cnt_n (trueSize bw') = cnt_n (trueSize bw) ∧
    didInitialWrite bw' = didInitialWrite bw ∧
    bw_sha1 bw' = mw_1 (tar_w t) ∧
    cnt_n (bw_bundledSize bw') = cnt_n (aes_w a) ∧
    bw_cw bw' = c.
Proof.
  intros Hopen H. unfold Writer_Close in H. rewrite Hopen in H.
  apply bind_Ret in H as ([t e1] & Htar & H).
  apply bind_Ret in H as ([z e2] & Hgz & H).
  apply bind_Ret in H as ([a e3] & Haes & H).
  apply bind_Ret in H as ([c e4] & Hcw & H).
  injection H as <- <-.
  exists t, e1, z, e2, a, e3, c, e4.
  repeat (split; [first [assumption | reflexivity]|]).
  split; [|repeat split; reflexivity].
  cbn [size set_cw set_aes set_gz set_tar set_trueSize trueSize cnt_n].
  destruct e1, e2, e3, e4, (decide (size bw = cnt_n (trueSize bw)));
    destruct (decide (size bw ≠ cnt_n (trueSize bw))); try contradiction;
    reflexivity.
Qed.

Lemma Writer_Close_open (bw bw' : Writer Sk Fh) :
  Writer_Close bw = Ret (bw', None) → closed bw = false.
Proof.
  unfold Writer_Close. destruct (closed bw); [discriminate|reflexivity].
Qed.

(** C1, amended. A bundle writer from [NewWriter], written to without
    error and closed without error, has hashed the tar stream of the
    image: the block of the header, the bytes of the image, zeros up to
    a multiple of 512 bytes of the size that the header declares, and
    the two zero blocks of the trailer (the trailer alone when [Write]
    was never called). The digest of the manifest is the SHA-1 of that
    stream, in hexadecimal, with the algorithm "SHA1". *)
Theorem Writer_digest_is_of_tar_stream {BDM : Type}
    (name : string) (sz : Z) (sink : Sk) (rng rng' : Rng)
    (bw0 bw1 bw2 : Writer Sk Fh) (ps : list (list byte))
    (blk : list byte) (size' : Z) (m : manifest BDM) :
  NewWriter name sz sink rng = Ret (rng', inl bw0) →
  tar_encodeHeader (Writer_header bw0) = inl (blk, size') →
  Writer_writes bw0 ps = Ret (bw1, None) →
  Writer_Close bw1 = Ret (bw2, None) →
  image_Digest (m_Image (Writer_populateManifest bw2 m))
  = {| va_Algorithm := "SHA1";
       va_Value := hex (sha1 (tar_stream
                                (match ps with
                                 | [] => None
                                 | _ => Some (blk, size')
                                 end)
                                (concat ps))) |}.
Proof.
  intros Hnew Henc Hwrites Hclose.
  apply NewWriter_Ret in Hnew as (k & v & Hbw & _ & _).
  assert (Writer_framed bw0 []) as Hfr0 by (subst bw0; repeat split).
  assert (didInitialWrite bw0 = false) as Hdid0 by (subst bw0; reflexivity).
  clear Hbw.
  destruct (Writer_writes_framed _ _ _ _ Hfr0 Hwrites) as ([Herr Hfr] & Hhdr & Hnil).
  cbn [app] in Hfr.
  pose proof (Writer_Close_open _ _ Hclose) as Hopen.
  apply (Writer_Close_Ret _ _ _ Hopen) in Hclose
    as (t & e1 & z & e2 & a & e3 & c & e4 & Htar & _ & _ & _ & Hfirst & _ & _ & _
        & Hdid & Hsha & _).
  symmetry in Hfirst. apply first_error_None in Hfirst.
  apply Forall_cons_1 in Hfirst as [-> _].
  apply (tar_Close_Ret _ _ Herr) in Htar.
  unfold Writer_populateManifest, hash_Sum. cbn [m_Image manifest_set_Image image_Digest].
  rewrite Hsha. fold (tar_hashed t). rewrite Htar. unfold tar_stream.
  destruct (didInitialWrite bw1) eqn:Hdid1.
  - destruct Hfr as (blk1 & size1 & Henc1 & Hhash & Hpad).
    rewrite Hhdr, Henc in Henc1. injection Henc1 as <- <-.
    rewrite Hhash, Hpad, <- !app_assoc.
    destruct ps as [|p ps].
    + exfalso. cbn in Hwrites. injection Hwrites as <-. congruence.
    + rewrite <- !app_assoc. reflexivity.
  - destruct Hfr as (Hps & Hhash & Hpad). rewrite (Hnil eq_refl) in *.
    rewrite Hhash, Hpad. reflexivity.
Qed.

End BundleClose.

(** ** The test bundles *)

Section BundleWitnesses.
#[local] Existing Instance testExtern.
#[local] Existing Instance test_Fuel.


(** C1 as stated fails. The image "abc" is bundled without error;
    the digest of the manifest is not the SHA-1 of "abc". *)
Lemma Writer_digest_is_not_of_image_bytes :
  Writer_writes (test_Writer "img" 3) [bytes_of_string "abc"]
    = Ret (test_written "img" 3 [bytes_of_string "abc"], None) ∧
  Writer_Close (test_written "img" 3 [bytes_of_string "abc"])
    = Ret (test_bundle "img" 3 [bytes_of_string "abc"], None) ∧
  image_Digest (m_Image (Writer_populateManifest
                           (test_bundle "img" 3 [bytes_of_string "abc"])
                           test_manifest))
    = {| va_Algorithm := "SHA1";
         va_Value := "1811e2140084c5cd05a322423cab77e8f5531693" |} ∧
  hex (sha1 (bytes_of_string "abc"))
    = "a9993e364706816aba3e25717850c26c9cd0d89d"%string ∧
  image_Digest (m_Image (Writer_populateManifest
                           (test_bundle "img" 3 [bytes_of_string "abc"])
                           test_manifest))
    ≠ {| va_Algorithm := "SHA1";
         va_Value := hex (sha1 (bytes_of_string "abc")) |}.
Proof.
  assert (image_Digest (m_Image (Writer_populateManifest
                           (test_bundle "img" 3 [bytes_of_string "abc"])
                           test_manifest))
          = {| va_Algorithm := "SHA1";
               va_Value := "1811e2140084c5cd05a322423cab77e8f5531693" |}) as Hd
    by exact eq_refl.
  assert (hex (sha1 (bytes_of_string "abc"))
          = "a9993e364706816aba3e25717850c26c9cd0d89d"%string) as Hs
    by exact eq_refl.
  split; [unfold test_written; returned_Ret|].
  split; [unfold test_bundle; returned_Ret|].
  split; [exact Hd|]. split; [exact Hs|].
  rewrite Hd, Hs. discriminate.
Qed.

Lemma Writer_digest_is_of_tar_stream_witness :
  image_Digest (m_Image (Writer_populateManifest
                           (test_bundle "img" 3 [bytes_of_string "abc"])
                           test_manifest))
  = {| va_Algorithm := "SHA1";
       va_Value :=
         hex (sha1 (tar_stream
                      (match [bytes_of_string "abc"] with
                       | [] => None
                       | _ => Some (ustar_block (Writer_header (test_Writer "img" 3)), 3)
                       end)
                      (concat [bytes_of_string "abc"]))) |}.
Proof.
  refine (Writer_digest_is_of_tar_stream "img" 3 newAccumulatingSink 1 33
            (test_Writer "img" 3) (test_written "img" 3 [bytes_of_string "abc"])
            (test_bundle "img" 3 [bytes_of_string "abc"]) [bytes_of_string "abc"]
            (ustar_block (Writer_header (test_Writer "img" 3))) 3 test_manifest
            _ _ _ _).
  - reflexivity.
  - exact eq_refl.
  - unfold test_written. returned_Ret.
  - unfold test_bundle at 1. returned_Ret.
Defined.

End BundleWitnesses.
(** ** Counting below the cipher *)

Lemma wrap64_add_l (a b : Z) : wrap64 (wrap64 a + b) = wrap64 (a + b).
Proof.
  unfold wrap64.
  replace ((a + 2 ^ 63) mod 2 ^ 64 - 2 ^ 63 + b + 2 ^ 63)
    with ((a + 2 ^ 63) mod 2 ^ 64 + b) by lia.
  rewrite Zplus_mod_idemp_l. f_equal. f_equal. lia.
Qed.

Lemma len_take_Z {A} (p : list A) (x : Z) :
  0 <= x <= len p → len (take (Z.to_nat x) p) = x.
Proof. unfold len. intros Hx. rewrite length_take. lia. Qed.

Lemma len_drop_Z {A} (p : list A) (x : Z) :
  0 <= x <= len p → len (drop (Z.to_nat x) p) = len p - x.
Proof. unfold len. intros Hx. rewrite length_drop. lia. Qed.

Section ChunkCount.
Context {Sk Fh : Type} `{!Sink Sk Fh}.
Hypothesis Hconf : Sink_conforming Sk Fh.

(** A write loop that ends without error has counted every byte. *)
Lemma chunkWriter_Write_loop_count (fuel : nat) :
  ∀ (cw cw' : chunkWriter Sk Fh) (p : list byte) (n n' : Z),
    chunkWriter_Write_loop fuel cw p n = Ret (cw', (n', None)) →
    n' = if decide (len p > 0) then wrap64 (n + len p) else n.
Proof.
  induction fuel as [|fuel IH]; intros cw cw' p n n' H; cbn in H;
    destruct (decide (len p > 0)) as [Hp|Hp]; try discriminate;
    try (injection H as _ <-; reflexivity).
  destruct (decide (chunkWriter_bytesRemainingInChunk cw = 0)).
  - apply bind_Ret in H as ([cw1 e1] & _ & H).
    apply IH in H. destruct (decide (len p > 0)); [exact H|contradiction].
  - apply bind_Ret in H as (now & Hnow & H).
    apply bind_Ret in H as (later & Hlater & H).
    destruct (cw_w cw) as [w|]; [|discriminate].
    apply bind_Ret in H as ([[s w'] [thisN thisErr]] & Hw & H).
    apply slice_to_Ret in Hnow as [Hb ->].
    apply slice_from_Ret in Hlater as [_ ->].
    destruct thisErr; [discriminate|].
    apply Hconf in Hw as [_ Hn]. cbn in Hn. specialize (Hn eq_refl).
    rewrite len_take_Z in Hn by exact Hb. subst thisN.
    apply IH in H. rewrite len_drop_Z in H by exact Hb.
    destruct (decide (_ > 0)) as [Hl|Hl].
    + rewrite H, wrap64_add_l. f_equal. lia.
    + rewrite H. f_equal. lia.
Qed.

End ChunkCount.
Section HashingSinkConforming.
Context {Sk Fh : Type} `{!Sink Sk Fh}.

Lemma hashingSink_conforming :
  Sink_conforming Sk Fh → Sink_conforming (hashingSink Sk) (hashingSinkWriter Fh).
Proof.
  intros Hconf hs hsw p hs' hsw' r H. cbn in H.
  unfold hashingSinkWriter_Write in H. cbn in H.
  apply bind_Ret in H as ([[s w] r'] & Hw & H). injection H as _ _ <-.
  exact (Hconf _ _ _ _ _ _ Hw).
Qed.

End HashingSinkConforming.

Section CountedChunks.
Context `{F : Fuel} {Sk Fh : Type} `{!Sink Sk Fh}.
Hypothesis Hconf : Sink_conforming Sk Fh.

(** The counter above the chunk writer: a write without error is
    counted in full. *)
Lemma countingWriter_Write_count (c c' : countingWriter (chunkWriter Sk Fh))
    (p : list byte) (n : Z) :
  io_Write c p = Ret (c', (n, None)) →
  (len p < 2 ^ 63 → n = len p) ∧ cnt_n c' mod 16 = (cnt_n c + len p) mod 16.
Proof.
  intros H. unfold io_Write, countingWriter_io_Writer, countingWriter_Write in H.
  apply bind_Ret in H as ([w [n1 e1]] & Hw & H). injection H as <- <- ->.
  apply (chunkWriter_Write_loop_count Hconf) in Hw. cbn [cnt_n].
  pose proof (len_nonneg p).
  destruct (decide (len p > 0)).
  - subst n1. split.
    + intros Hs. apply wrap64_small. lia.
    + rewrite wrap64_mod16, Z.add_mod, wrap64_mod16, <- Z.add_mod by lia.
      f_equal.
  - subst n1. split; [lia|]. rewrite wrap64_mod16. f_equal. lia.
Qed.

End CountedChunks.
Lemma CryptBlocks_length (c c' : cbcEncrypter) (src ct : list byte) :
  CryptBlocks c src = Ret (c', ct) → len ct = len src ∧ len src mod 16 = 0.
Proof.
  unfold CryptBlocks. destruct (decide _) as [Hm|]; [|discriminate].
  destruct (cbc_blocks _ _ _ _) as [out iv']. intros [= _ <-].
  unfold len. rewrite fill_length. split; [reflexivity|].
  apply (f_equal Z.of_nat) in Hm. rewrite Nat2Z.inj_mod in Hm. exact Hm.
Qed.

Section WholeBlocks.
Context {D : Type} `{!io_Writer D} (μ : D → Z).
Hypothesis Hcount : ∀ (w w' : D) (p : list byte) (n : Z),
  io_Write w p = Ret (w', (n, None)) →
  (len p < 2 ^ 63 → n = len p) ∧ μ w' mod 16 = (μ w + len p) mod 16.

Lemma aesCbcWriter_writeBlocks_whole (a a' : aesCbcWriter D) (p : list byte)
    (n : Z) (err : option error) :
  aesCbcWriter_writeBlocks a p = Ret (a', (n, err)) →
  aes_buffer a' = aes_buffer a ∧ aes_cbc a' ≠ None ∧
  (err = None →
   μ (aes_w a') mod 16 = μ (aes_w a) mod 16 ∧
   (len p < 2 ^ 63 → n = len p / 16 * 16)).
Proof.
  unfold aesCbcWriter_writeBlocks. intros H.
  destruct (aes_cbc a) as [cbc|]; [|discriminate].
  apply bind_Ret in H as (src & Hsrc & H).
  apply bind_Ret in H as ([cbc' ct] & Hct & H).
  apply bind_Ret in H as ([w' r] & Hw & H). injection H as <- ->.
  cbn. split; [reflexivity|]. split; [discriminate|]. intros ->.
  apply slice_to_Ret in Hsrc as [Hb ->].
  apply CryptBlocks_length in Hct as [Hlen Hmod].
  rewrite len_take_Z in Hlen, Hmod by exact Hb.
  apply Hcount in Hw as [Hn Hμ]. rewrite Hlen in Hn, Hμ. split.
  - rewrite Hμ, Z.add_mod, Hmod, Z.add_0_r, Z.mod_mod by lia. reflexivity.
  - intros Hs. apply Hn. lia.
Qed.

Lemma aesCbcWriter_Write_rest_whole (a a' : aesCbcWriter D) (p : list byte)
    (n0 n : Z) :
  aesCbcWriter_Write_rest a p n0 = Ret (a', (n, None)) →
  aes_cbc a' ≠ None ∧
  μ (aes_w a') mod 16 = μ (aes_w a) mod 16 ∧
  (len p < 2 ^ 63 → len (aes_buffer a') = len (aes_buffer a) + len p mod 16).
Proof.
  unfold aesCbcWriter_Write_rest. intros H.
  apply bind_Ret in H as ([a1 [n2 err]] & Hwb & H).
  apply aesCbcWriter_writeBlocks_whole in Hwb as (Hbuf & Hcbc & Hok).
  pose proof (len_nonneg p) as Hp0.
  destruct (decide (len p > n2)) as [Hgt|Hle].
  - apply bind_Ret in H as (rem & Hrem & H). injection H as <- _ ->.
    destruct (Hok eq_refl) as [Hμ Hn]. cbn. split; [exact Hcbc|].
    split; [exact Hμ|]. intros Hs. specialize (Hn Hs). subst n2.
    apply slice_from_Ret in Hrem as [Hb ->].
    rewrite len_app, len_drop_Z, Hbuf by exact Hb.
    rewrite Z.mod_eq by lia. lia.
  - injection H as <- _ ->. destruct (Hok eq_refl) as [Hμ Hn].
    split; [exact Hcbc|]. split; [exact Hμ|]. intros Hs. specialize (Hn Hs).
    rewrite Hbuf. pose proof (Z.mod_eq (len p) 16 ltac:(lia)).
    pose proof (Z.mod_pos_bound (len p) 16 ltac:(lia)). lia.
Qed.


(** A write that the cipher reports no error for has passed on whole
    blocks, and leaves less than a block in the buffer. *)
Lemma aesCbcWriter_Write_whole (a a' : aesCbcWriter D) (p : list byte) (n : Z) :
  aesCbcWriter_Write a p = Ret (a', (n, None)) →
  aes_cbc a' ≠ None ∧
  μ (aes_w a') mod 16 = μ (aes_w a) mod 16 ∧
  (len (aes_buffer a) < 16 → len p < 2 ^ 63 → len (aes_buffer a') < 16).
Proof.
  unfold aesCbcWriter_Write. intros H.
  destruct (aes_cbc a) as [cbc|] eqn:Hcbc; [|discriminate].
  pose proof (len_nonneg p) as Hp0.
  pose proof (len_nonneg (aes_buffer a)) as Hb0.
  assert (∀ q : list byte, len q mod 16 < 16) as Hmod16
    by (intros q; apply Z.mod_pos_bound; lia).
  destruct (decide (len (aes_buffer a) > 0)) as [Hbuf|Hbuf].
  - set (x := if decide (16 - len (aes_buffer a) > len p) then len p
              else 16 - len (aes_buffer a)) in H.
    apply bind_Ret in H as (px & Hpx & H).
    apply bind_Ret in H as (p' & Hp' & H).
    apply slice_to_Ret in Hpx as [Hx ->].
    apply slice_from_Ret in Hp' as [_ ->].
    cbn [aes_buffer aes_set_buffer] in H.
    destruct (decide (len (aes_buffer a ++ take (Z.to_nat x) p) = 16)) as [Hfull|Hpart].
    + apply bind_Ret in H as ([a1 [n1 err]] & Hwb & H).
      apply aesCbcWriter_writeBlocks_whole in Hwb as (_ & _ & Hok).
      destruct err; [discriminate|]. destruct (Hok eq_refl) as [Hμ _].
      apply aesCbcWriter_Write_rest_whole in H as (Hc & Hμ' & Hlen).
      split; [exact Hc|]. split; [rewrite Hμ'; exact Hμ|].
      intros _ Hs. rewrite Hlen.
      * cbn. rewrite len_nil. specialize (Hmod16 (drop (Z.to_nat x) p)). lia.
      * rewrite len_drop_Z by exact Hx. lia.
    + apply aesCbcWriter_Write_rest_whole in H as (Hc & Hμ' & Hlen).
      split; [exact Hc|]. split; [exact Hμ'|].
      intros Hlt Hs. rewrite len_app, len_take_Z in Hpart by exact Hx.
      assert (x = len p) as Hxp
        by (subst x; destruct (decide (16 - len (aes_buffer a) > len p)); lia).
      rewrite Hlen by (rewrite len_drop_Z by exact Hx; lia).
      cbn. rewrite len_app, len_take_Z, len_drop_Z by exact Hx.
      rewrite Hxp, Z.sub_diag, Z.mod_0_l by lia.
      subst x. destruct (decide (16 - len (aes_buffer a) > len p)); lia.
  - apply aesCbcWriter_Write_rest_whole in H as (Hc & Hμ' & Hlen).
    split; [exact Hc|]. split; [exact Hμ'|].
    intros _ Hs. rewrite (Hlen Hs). specialize (Hmod16 p). lia.
Qed.

(** [Close] pads the buffer to a block with the byte of the number of
    padding bytes, and passes whole blocks on. *)
Lemma aesCbcWriter_Close_whole (a a' : aesCbcWriter D) :
  aesCbcWriter_Close a = Ret (a', None) →
  aes_cbc a' = None ∧
  μ (aes_w a') mod 16 = μ (aes_w a) mod 16 ∧
  aes_buffer a'
  = aes_buffer a ++ replicate (16 - length (aes_buffer a))
                      (byte_of_Z (16 - len (aes_buffer a))).
Proof.
  unfold aesCbcWriter_Close. intros H.
  destruct (aes_cbc a) as [cbc|] eqn:Hcbc; [|discriminate].
  apply bind_Ret in H as ([a1 [n1 err]] & Hwb & H).
  apply aesCbcWriter_writeBlocks_whole in Hwb as (Hbuf & _ & Hok).
  destruct err; [discriminate|]. injection H as <-.
  destruct (Hok eq_refl) as [Hμ _]. cbn in *. auto.
Qed.

Lemma write_all_whole (cs : list (list byte)) :
  ∀ (a a' : aesCbcWriter D),
    write_all a cs = Ret (a', None) →
    Forall (λ c, len c < 2 ^ 63) cs →
    aes_whole_blocks μ a → aes_whole_blocks μ a'.
Proof.
  induction cs as [|c cs IH]; intros a a' H Hcs Hok; cbn in H.
  - injection H as <-. exact Hok.
  - apply bind_Ret in H as ([a1 [n1 err]] & Hw & H).
    destruct err; [discriminate|].
    apply Forall_cons in Hcs as [Hc Hcs].
    apply aesCbcWriter_Write_whole in Hw as (_ & Hμ & Hlen).
    apply (IH _ _ H Hcs). destruct Hok as [H0 Hb].
    split; [rewrite Hμ; exact H0|exact (Hlen Hb Hc)].
Qed.

End WholeBlocks.

Section GzipWholeBlocks.
Context `{E : Extern} {D : Type} `{!io_Writer D} (μ : D → Z).
Hypothesis Hcount : ∀ (w w' : D) (p : list byte) (n : Z),
  io_Write w p = Ret (w', (n, None)) →
  (len p < 2 ^ 63 → n = len p) ∧ μ w' mod 16 = (μ w + len p) mod 16.
Hypothesis Hflate : flate_slices.

Lemma aes_io_Write_whole (a a' : aesCbcWriter D) (p : list byte) (n : Z) :
  io_Write a p = Ret (a', (n, None)) → len p < 2 ^ 63 →
  aes_whole_blocks μ a → aes_whole_blocks μ a'.
Proof.
  intros H Hs [H0 Hb].
  apply (aesCbcWriter_Write_whole μ Hcount) in H as (_ & Hμ & Hlen).
  split; [rewrite Hμ; exact H0|exact (Hlen Hb Hs)].
Qed.

Lemma gzip_writeHeader_whole (z z' : gzip_Writer (aesCbcWriter D)) :
  gzip_writeHeader z = Ret z' → gz_err z = None →
  gz_whole_blocks μ z → gz_whole_blocks μ z'.
Proof.
  unfold gzip_writeHeader. intros H Hnone Hok.
  destruct (gz_wroteHeader z); [injection H as <-; exact Hok|].
  apply bind_Ret in H as ([w [n err]] & Hw & H). injection H as <-.
  destruct err as [e|]; [left; discriminate|].
  destruct Hok as [Herr|Hok]; [contradiction|]. right. cbn.
  apply (aes_io_Write_whole _ _ _ _ Hw); [reflexivity|exact Hok].
Qed.

Lemma gzip_Write_whole (z z' : gzip_Writer (aesCbcWriter D)) (p : list byte)
    (r : wres) :
  gzip_Write z p = Ret (z', r) →
  gz_whole_blocks μ z → gz_whole_blocks μ z'.
Proof.
  unfold gzip_Write. intros H Hok.
  destruct (gz_err z) eqn:Herr; [injection H as <- _; exact Hok|].
  apply bind_Ret in H as (z1 & Hhdr & H).
  apply gzip_writeHeader_whole in Hhdr; [|exact Herr|exact Hok].
  destruct (gz_err z1) eqn:Herr1; [injection H as <- _; exact Hhdr|].
  pose proof (proj1 Hflate (gz_compressor z1) p) as Hout.
  destruct (flate_Write (gz_compressor z1) p) as [c out]. cbn in Hout.
  apply bind_Ret in H as ([w err] & Hw & H). injection H as <- _.
  destruct err as [e|]; [left; discriminate|]. right. cbn.
  destruct Hhdr as [Hh|Hh]; [congruence|].
  exact (write_all_whole μ Hcount _ _ _ Hw Hout Hh).
Qed.

Lemma gzip_Close_whole (z z' : gzip_Writer (aesCbcWriter D)) (e : option error) :
  gzip_Close z = Ret (z', e) →
  gz_whole_blocks μ z →
  gz_whole_blocks μ z' ∧ (e = None → aes_whole_blocks μ (gz_w z')).
Proof.
  unfold gzip_Close. intros H Hok.
  destruct (gz_err z) eqn:Herr.
  { injection H as <- <-. split; [exact Hok|discriminate]. }
  destruct Hok as [Hno|Hok]; [congruence|].
  destruct (gz_closed z).
  { injection H as <- <-. split; [right; exact Hok|intros _; exact Hok]. }
  apply bind_Ret in H as (z1 & Hhdr & H).
  apply gzip_writeHeader_whole in Hhdr; [|reflexivity|right; exact Hok].
  destruct (gz_err z1) eqn:Herr1.
  { injection H as <- <-. split; [exact Hhdr|discriminate]. }
  destruct Hhdr as [Hh|Hh]; [congruence|].
  apply bind_Ret in H as ([w err] & Hw & H).
  destruct err as [e1|].
  { injection H as <- <-. split; [left; discriminate|discriminate]. }
  apply (write_all_whole μ Hcount) in Hw; [|exact (proj2 Hflate _)|exact Hh].
  apply bind_Ret in H as ([w2 [n2 err2]] & Hw2 & H). injection H as <- <-.
  destruct err2 as [e2|]; [split; [left; discriminate|discriminate]|].
  apply aes_io_Write_whole in Hw2; [|reflexivity|exact Hw].
  split; [right; exact Hw2|intros _; exact Hw2].
Qed.

End GzipWholeBlocks.

(** What every write to the writer below preserves, the tee and the tar
    framer preserve. *)
Section Preserved.
Context `{E : Extern} {D : Type} `{!io_Writer D} (P : D → Prop).
Hypothesis HP : ∀ (w w' : D) (p : list byte) (r : wres),
  io_Write w p = Ret (w', r) → P w → P w'.

Lemma write_all_preserves (cs : list (list byte)) :
  ∀ (w w' : D) (e : option error), write_all w cs = Ret (w', e) → P w → P w'.
Proof.
  induction cs as [|c cs IH]; intros w w' e H Hw; cbn in H.
  - injection H as <- _. exact Hw.
  - apply bind_Ret in H as ([w1 [n1 err]] & Hc & H).
    apply HP in Hc; [|exact Hw].
    destruct err; [injection H as <- _; exact Hc|exact (IH _ _ _ H Hc)].
Qed.

Lemma tee_Write_preserves {A : Type} `{!io_Writer A} (t t' : multiWriter A D)
    (p : list byte) (r : wres) :
  multiWriter_Write t p = Ret (t', r) → P (mw_2 t) → P (mw_2 t').
Proof.
  unfold multiWriter_Write. intros H Hw.
  apply bind_Ret in H as ([a [n err]] & _ & H).
  destruct err; [injection H as <- _; exact Hw|].
  destruct (decide (n ≠ len p)) as [?|?]; [injection H as <- _; exact Hw|].
  apply bind_Ret in H as ([b [n' err']] & Hb & H). cbn in Hb.
  apply HP in Hb; [|exact Hw].
  destruct err'; [injection H as <- _; exact Hb|].
  destruct (decide (n' ≠ len p)) as [?|?]; injection H as <- _; exact Hb.
Qed.

Lemma tar_Flush_preserves (tw tw' : tar_Writer D) (e : option error) :
  tar_Flush tw = Ret (tw', e) → P (tar_w tw) → P (tar_w tw').
Proof.
  unfold tar_Flush. intros H Hw.
  destruct (tar_err tw); [injection H as <- _; exact Hw|].
  destruct (decide (tar_nb tw > 0)); [injection H as <- _; exact Hw|].
  apply bind_Ret in H as (pad & _ & H).
  apply bind_Ret in H as ([w [cnt err]] & Hp & H).
  apply HP in Hp; [|exact Hw].
  destruct err; injection H as <- _; exact Hp.
Qed.

Lemma tar_writeRawHeader_preserves (tw tw' : tar_Writer D) (blk : list byte)
    (size : Z) (e : option error) :
  tar_writeRawHeader tw blk size = Ret (tw', e) → P (tar_w tw) → P (tar_w tw').
Proof.
  unfold tar_writeRawHeader. intros H Hw.
  apply bind_Ret in H as ([tw1 e1] & Hf & H).
  apply tar_Flush_preserves in Hf; [|exact Hw].
  destruct e1; [injection H as <- _; exact Hf|].
  apply bind_Ret in H as ([w [cnt err]] & Hp & H).
  apply HP in Hp; [|exact Hf].
  destruct err; injection H as <- _; exact Hp.
Qed.

Lemma tar_WriteHeader_preserves (tw tw' : tar_Writer D) (hdr : tar_Header)
    (e : option error) :
  tar_WriteHeader tw hdr = Ret (tw', e) → P (tar_w tw) → P (tar_w tw').
Proof.
  unfold tar_WriteHeader. intros H Hw.
  apply bind_Ret in H as ([tw1 e1] & Hf & H).
  apply tar_Flush_preserves in Hf; [|exact Hw].
  destruct e1; [injection H as <- _; exact Hf|].
  destruct (tar_encodeHeader hdr) as [[blk size]|err];
    [|injection H as <- _; exact Hf].
  apply bind_Ret in H as ([tw2 e2] & Hr & H).
  apply tar_writeRawHeader_preserves in Hr; [|exact Hf].
  injection H as <- _. exact Hr.
Qed.

Lemma tar_Write_preserves (tw tw' : tar_Writer D) (b : list byte) (r : wres) :
  tar_Write tw b = Ret (tw', r) → P (tar_w tw) → P (tar_w tw').
Proof.
  unfold tar_Write. intros H Hw.
  destruct (tar_err tw); [injection H as <- _; exact Hw|].
  apply bind_Ret in H as (b' & _ & H).
  apply bind_Ret in H as ([w [cnt err]] & Hp & H).
  assert (P w) as Hw'.
  { destruct (decide (len b' > 0)) as [?|?]; [exact (HP _ _ _ _ Hp Hw)|].
    injection Hp as <- _ _. exact Hw. }
  destruct err; [injection H as <- _; exact Hw'|].
  destruct (bool_decide _); injection H as <- _; exact Hw'.
Qed.

Lemma tar_Close_preserves (tw tw' : tar_Writer D) (e : option error) :
  tar_Close tw = Ret (tw', e) → P (tar_w tw) → P (tar_w tw').
Proof.
  unfold tar_Close. intros H Hw.
  destruct (tar_err tw) as [e0|].
  { destruct (decide _); injection H as <- _; exact Hw. }
  apply bind_Ret in H as ([tw1 e1] & Hf & H).
  apply tar_Flush_preserves in Hf; [|exact Hw].
  apply bind_Ret in H as ([w err] & Hp & H). injection H as <- _. cbn.
  destruct e1; [injection Hp as <- _; exact Hf|].
  exact (write_all_preserves _ _ _ _ Hp Hf).
Qed.

End Preserved.

(** ** The bundled size (C8) *)

Section BundledSize.
Context `{E : Extern} `{F : Fuel} {Sk Fh : Type} `{!Sink Sk Fh}.
Hypothesis Hconf : Sink_conforming Sk Fh.
Hypothesis Hflate : flate_slices.

Lemma bundledSize_count (w w' : countingWriter (bundle_cw Sk Fh))
    (p : list byte) (n : Z) :
  io_Write w p = Ret (w', (n, None)) →
  (len p < 2 ^ 63 → n = len p) ∧ cnt_n w' mod 16 = (cnt_n w + len p) mod 16.
Proof. apply countingWriter_Write_count, hashingSink_conforming, Hconf. Qed.

Lemma tee_whole (t t' : multiWriter hash_Hash (bundle_gz Sk Fh)) (p : list byte)
    (r : wres) :
  io_Write t p = Ret (t', r) →
  gz_whole_blocks cnt_n (mw_2 t) → gz_whole_blocks cnt_n (mw_2 t').
Proof.
  apply (tee_Write_preserves (gz_whole_blocks cnt_n)).
  intros w w' q r'. apply gzip_Write_whole; [exact bundledSize_count|exact Hflate].
Qed.

Lemma Writer_Write_whole (bw bw' : Writer Sk Fh) (p : list byte) (r : wres) :
  Writer_Write bw p = Ret (bw', r) →
  gz_whole_blocks cnt_n (bw_gz bw) → gz_whole_blocks cnt_n (bw_gz bw').
Proof.
  assert (∀ bw bw' : Writer Sk Fh, ∀ q r',
            Writer_forward bw q = Ret (bw', r') →
            gz_whole_blocks cnt_n (bw_gz bw) → gz_whole_blocks cnt_n (bw_gz bw'))
    as Hfwd.
  { intros b b' q r' H Hok. unfold Writer_forward in H.
    apply bind_Ret in H as ([ts r1] & Hw & H). injection H as <- _.
    unfold io_Write, countingWriter_io_Writer, countingWriter_Write in Hw.
    apply bind_Ret in Hw as ([t [n err]] & Ht & Hw). injection Hw as <- _.
    exact (tar_Write_preserves (λ t, gz_whole_blocks cnt_n (mw_2 t)) tee_whole
             _ _ _ _ Ht Hok). }
  unfold Writer_Write. intros H Hok.
  destruct (didInitialWrite bw); [exact (Hfwd _ _ _ _ H Hok)|].
  apply bind_Ret in H as ([bw1 err] & Hinit & H).
  assert (gz_whole_blocks cnt_n (bw_gz bw1)) as Hok1.
  { unfold Writer_doInitialWrite in Hinit.
    apply bind_Ret in Hinit as ([t e] & Ht & Hinit).
    apply (tar_WriteHeader_preserves (λ t, gz_whole_blocks cnt_n (mw_2 t)) tee_whole)
      in Ht; [|exact Hok].
    destruct e; injection Hinit as <- _; exact Ht. }
  destruct err; [injection H as <- _; exact Hok1|exact (Hfwd _ _ _ _ H Hok1)].
Qed.

Lemma Writer_Write_steps_whole (bw bw' : Writer Sk Fh) :
  rtc Writer_Write_step bw bw' →
  gz_whole_blocks cnt_n (bw_gz bw) → gz_whole_blocks cnt_n (bw_gz bw').
Proof.
  induction 1 as [|bw bw1 bw' (p & r & Hstep) _ IH]; [auto|].
  intros Hok. exact (IH (Writer_Write_whole _ _ _ _ Hstep Hok)).
Qed.

(** The four closes of a [Close] that reports no error. *)
Lemma Writer_Close_None (bw bw' : Writer Sk Fh) :
  Writer_Close bw = Ret (bw', None) →
  ∃ t z a c,
    tar_Close (bw_tar bw) = Ret (t, None) ∧
    gzip_Close (mw_2 (tar_w t)) = Ret (z, None) ∧
    aesCbcWriter_Close (gz_w z) = Ret (a, None) ∧
    chunkWriter_Close (cnt_w (aes_w a)) = Ret (c, None) ∧
    size bw = cnt_n (trueSize bw) ∧
    cnt_n (bw_bundledSize bw') = cnt_n (aes_w a) ∧
    aes_buffer (bw_aes bw') = aes_buffer a ∧
    bw_cw bw' = c.
Proof.
  intros H. unfold Writer_Close in H.
  destruct (closed bw); [discriminate|].
  apply bind_Ret in H as ([t e1] & Htar & H).
  apply bind_Ret in H as ([z e2] & Hgz & H).
  apply bind_Ret in H as ([a e3] & Haes & H).
  apply bind_Ret in H as ([c e4] & Hcw & H).
  injection H as <- H.
  cbn [size set_cw set_aes set_gz set_tar set_trueSize trueSize cnt_n] in H.
  exists t, z, a, c.
  destruct e1, e2, e3, e4,
    (decide (size bw ≠ cnt_n (trueSize bw))) as [Hne|Heq]; try discriminate H.
  apply dec_stable in Heq.
  repeat (split; [first [assumption | reflexivity]|]). reflexivity.
Qed.

(** C8. A bundle writer from [NewWriter] over a sink that keeps the
    contract of [io.Writer], written to any number of times with any
    results, and closed without error, has passed on a multiple of 16
    bytes below the cipher: that count is the bundled size of the
    manifest. When the cipher was closed it held less than a block, and
    the last block is what it held followed by N = 16 - (the number of
    bytes held) bytes of value N, with N between 1 and 16. *)
Theorem Writer_Close_bundled_size_whole_blocks {BDM : Type}
    (name : string) (sz : Z) (sink : Sk) (rng rng' : Rng)
    (bw0 bw1 bw2 : Writer Sk Fh) (m : manifest BDM) :
  NewWriter name sz sink rng = Ret (rng', inl bw0) →
  rtc Writer_Write_step bw0 bw1 →
  Writer_Close bw1 = Ret (bw2, None) →
  image_BundledSize (m_Image (Writer_populateManifest bw2 m))
    = cnt_n (bw_bundledSize bw2) ∧
  cnt_n (bw_bundledSize bw2) mod 16 = 0 ∧
  ∃ t z N,
    tar_Close (bw_tar bw1) = Ret (t, None) ∧
    gzip_Close (mw_2 (tar_w t)) = Ret (z, None) ∧
    N = 16 - len (aes_buffer (gz_w z)) ∧ 1 <= N <= 16 ∧
    aes_buffer (bw_aes bw2)
    = aes_buffer (gz_w z) ++ replicate (Z.to_nat N) (byte_of_Z N).
Proof.
  intros Hnew Hsteps Hclose.
  apply NewWriter_Ret in Hnew as (k & v & -> & _ & _).
  assert (gz_whole_blocks cnt_n (bw_gz (fresh_Writer name sz sink k v : Writer Sk Fh)))
    as Hok0 by (right; split; reflexivity).
  apply (Writer_Write_steps_whole _ _ Hsteps) in Hok0 as Hok1.
  apply Writer_Close_None in Hclose
    as (t & z & a & c & Htar & Hgz & Haes & _ & _ & Hcnt & Hbuf & _).
  pose proof (tar_Close_preserves (λ t, gz_whole_blocks cnt_n (mw_2 t)) tee_whole
                _ _ _ Htar Hok1) as Hok2.
  apply (gzip_Close_whole cnt_n bundledSize_count Hflate) in Hgz as Hgz';
    [|exact Hok2].
  destruct Hgz' as [_ Hz]. destruct (Hz eq_refl) as [Hz0 Hzb].
  apply (aesCbcWriter_Close_whole cnt_n bundledSize_count) in Haes
    as (_ & Hμ & Hpad).
  split; [reflexivity|]. split; [rewrite Hcnt, Hμ; exact Hz0|].
  exists t, z, (16 - len (aes_buffer (gz_w z))).
  pose proof (len_nonneg (aes_buffer (gz_w z))).
  unfold bundle_aes in *.
  repeat (split; [first [assumption | reflexivity | lia]|]).
  rewrite Hbuf, Hpad.
  replace (Z.to_nat (16 - len (aes_buffer (gz_w z))))
    with (16 - length (aes_buffer (gz_w z)))%nat by (unfold len; lia).
  reflexivity.
Qed.

End BundledSize.

(** ** The test doubles keep the contracts *)

Lemma accumulatingSink_conforming : Sink_conforming (gmap string (list byte)) string.
Proof.
  intros s w p s' w' r H. cbn in H.
  destruct (s !! w); [|discriminate]. injection H as _ _ <-.
  split; cbn; [pose proof (len_nonneg p); lia|reflexivity].
Qed.

Lemma split_stored_len (data : list byte) :
  ∀ n : Z, len (split_stored n data).1 <= Z.max n 0.
Proof.
  induction data as [|x data IH]; intros n; cbn.
  - rewrite len_nil. lia.
  - destruct (decide (n <= 0)); cbn; [rewrite len_nil; lia|].
    specialize (IH (n - 1)). destruct (split_stored (n - 1) data) as [a b].
    cbn in *. change (x :: a) with ([x] ++ a). rewrite len_app.
    change (len [x]) with 1. lia.
Qed.

Lemma stored_stream_slices (n : nat) :
  ∀ data : list byte, Forall (λ c, len c < 2 ^ 63) (stored_stream n data).
Proof.
  induction n as [|n IH]; intros data; cbn; [constructor|].
  destruct data as [|x data]; [constructor|].
  pose proof (split_stored_len (x :: data) 65535) as Hlen.
  destruct (split_stored 65535 (x :: data)) as [a b]. cbn in Hlen.
  constructor; [|apply IH].
  unfold len in *. cbn [length]. lia.
Qed.

Lemma streamExtern_slices : @flate_slices streamExtern.
Proof.
  split.
  - intros st p. apply stored_stream_slices.
  - intros st. repeat constructor.
Qed.

Section StreamWitnesses.
#[local] Existing Instance streamExtern.
#[local] Existing Instance test_Fuel.

Lemma Writer_Close_bundled_size_whole_blocks_witness :
  image_BundledSize (m_Image (Writer_populateManifest stream_bundle test_manifest))
    = cnt_n (bw_bundledSize stream_bundle) ∧
  cnt_n (bw_bundledSize stream_bundle) mod 16 = 0 ∧
  ∃ t z N,
    tar_Close (bw_tar stream_written) = Ret (t, None) ∧
    gzip_Close (mw_2 (tar_w t)) = Ret (z, None) ∧
    N = 16 - len (aes_buffer (gz_w z)) ∧ 1 <= N <= 16 ∧
    aes_buffer (bw_aes stream_bundle)
    = aes_buffer (gz_w z) ++ replicate (Z.to_nat N) (byte_of_Z N).
Proof.
  refine (Writer_Close_bundled_size_whole_blocks
            accumulatingSink_conforming streamExtern_slices
            "img" 3 newAccumulatingSink 1 33
            stream_Writer stream_written stream_bundle test_manifest _ _ _).
  - reflexivity.
  - apply rtc_once. exists (bytes_of_string "abc").
    eexists. unfold stream_written. returned_Ret.
  - unfold stream_bundle. returned_Ret.
Defined.

End StreamWitnesses.
(** ** A sink that cannot create files (C6) *)

Ltac div_lia := Z.div_mod_to_equations; lia.

Lemma CryptBlocks_whole (c : cbcEncrypter) (src : list byte) :
  len src mod 16 = 0 →
  ∃ c' ct, CryptBlocks c src = Ret (c', ct) ∧ len ct = len src.
Proof.
  intros Hm. unfold CryptBlocks.
  destruct (decide _) as [_|Hno].
  - destruct (cbc_blocks _ _ _ _) as [out iv']. eexists _, _.
    split; [reflexivity|]. unfold len. rewrite fill_length. reflexivity.
  - exfalso. apply Hno, Nat2Z.inj. rewrite Nat2Z.inj_mod. exact Hm.
Qed.

Lemma bind_Ret_eq {A B} (m : outcome A) (f : A → outcome B) (a : A) :
  m = Ret a → m ≫= f = f a.
Proof. intros ->. reflexivity. Qed.

Lemma bind_Diverge {A B} (m : outcome A) (f : A → outcome B) :
  m = Diverge → m ≫= f = Diverge.
Proof. intros ->. reflexivity. Qed.

Lemma slice_from_0 {A} (q : list A) : slice_from q 0 = Ret q.
Proof.
  unfold slice_from. pose proof (len_nonneg q).
  destruct (decide _); [reflexivity|lia].
Qed.

Lemma len_0_inv {A} (a : list A) : len a = 0 → a = [].
Proof. destruct a; [reflexivity|]. unfold len; cbn [length]. lia. Qed.

(** Over the hashing sink of a sink that cannot create files, the loop
    of [Write] does not end for a slice that is not empty. *)
Lemma chunkWriter_Write_loop_hashing_refused (fuel : nat)
    (cw : chunkWriter (hashingSink refusingSink) (hashingSinkWriter Empty_set))
    (b : byte) (p : list byte) (n : Z) :
  chunkWriter_Write_loop fuel cw (b :: p) n = Diverge.
Proof.
  revert cw. induction fuel as [|fuel IH]; intros cw; [reflexivity|].
  destruct cw as [s name size filename [[? ? []]|] index offset].
  simpl. destruct (decide (len (b :: p) > 0)) as [_|Hn];
    [|unfold len in Hn; simpl in Hn; lia].
  unfold chunkWriter_bytesRemainingInChunk; simpl.
  apply IH.
Qed.

Section HeldCipher.
Context {D : Type} `{!io_Writer D}.
Hypothesis Hnil : ∀ w : D, ∃ w', io_Write w [] = Ret (w', (0, None)).
Hypothesis Hcons : ∀ (w : D) (b : byte) (p : list byte), io_Write w (b :: p) = Diverge.

Lemma aesCbcWriter_writeBlocks_held (a : aesCbcWriter D) (q : list byte) :
  is_Some (aes_cbc a) →
  (len q < 16 →
   ∃ w' cbc', aesCbcWriter_writeBlocks a q
              = Ret ({| aes_w := w'; aes_buffer := aes_buffer a;
                        aes_cbc := Some cbc' |}, (0, None))) ∧
  (16 <= len q → aesCbcWriter_writeBlocks a q = Diverge).
Proof.
  intros [cbc Hcbc]. pose proof (len_nonneg q) as Hq.
  unfold aesCbcWriter_writeBlocks. rewrite Hcbc.
  unfold slice_to. destruct (decide _) as [Hb|Hb]; [|exfalso; div_lia].
  cbn [mbind outcome_bind].
  destruct (CryptBlocks_whole cbc (take (Z.to_nat (len q / 16 * 16)) q))
    as (cbc' & ct & -> & Hct).
  { rewrite len_take_Z by exact Hb. div_lia. }
  rewrite len_take_Z in Hct by exact Hb. cbn [mbind outcome_bind].
  split; intros Hlen.
  - assert (ct = []) as -> by (apply len_0_inv; div_lia).
    destruct (Hnil (aes_w a)) as (w' & ->). cbn [mbind outcome_bind]. eauto.
  - destruct ct as [|b ct]; [rewrite len_nil in Hct; div_lia|].
    rewrite Hcons. reflexivity.
Qed.

Lemma aesCbcWriter_Write_rest_held (a : aesCbcWriter D) (q : list byte) (n0 : Z) :
  is_Some (aes_cbc a) →
  (len q < 16 →
   ∃ a' n, aesCbcWriter_Write_rest a q n0 = Ret (a', (n, None)) ∧
           is_Some (aes_cbc a') ∧ aes_buffer a' = aes_buffer a ++ q) ∧
  (16 <= len q → aesCbcWriter_Write_rest a q n0 = Diverge).
Proof.
  intros Hcbc. pose proof (len_nonneg q) as Hq.
  destruct (aesCbcWriter_writeBlocks_held a q Hcbc) as [Hlt Hge].
  unfold aesCbcWriter_Write_rest. split; intros Hlen.
  - destruct (Hlt Hlen) as (w' & cbc' & ->). cbn [mbind outcome_bind].
    destruct (decide (len q > 0)) as [Hpos|Hz].
    + rewrite slice_from_0. cbn [mbind outcome_bind].
      eexists _, _. split; [reflexivity|]. cbn. eauto.
    + eexists _, _. split; [reflexivity|]. cbn. split; [eauto|].
      rewrite (len_0_inv q) by lia. rewrite app_nil_r. reflexivity.
  - rewrite (Hge Hlen). reflexivity.
Qed.

(** A write that leaves less than a block is held back; a write that
    completes a block does not return. *)
Lemma aes_held_Write (T : Z) (a : aesCbcWriter D) (p : list byte) :
  aes_held T a →
  (T + len p < 16 →
   ∃ a' n, io_Write a p = Ret (a', (n, None)) ∧ aes_held (T + len p) a') ∧
  (16 <= T + len p → io_Write a p = Diverge).
Proof.
  intros (Hcbc & Hbuf & HT). pose proof (len_nonneg p) as Hp.
  pose proof (len_nonneg (aes_buffer a)) as Hb.
  unfold io_Write, aesCbcWriter_io_Writer, aesCbcWriter_Write.
  destruct Hcbc as [cbc Hcbc]. rewrite Hcbc.
  destruct (decide (len (aes_buffer a) > 0)) as [Hpos|Hempty].
  - set (x := if decide (16 - len (aes_buffer a) > len p) then len p
              else 16 - len (aes_buffer a)).
    assert (0 <= x <= len p) as Hx by (subst x; destruct (decide _); lia).
    unfold slice_to, slice_from. destruct (decide (0 <= x <= len p)); [|contradiction].
    cbn [mbind outcome_bind aes_buffer aes_set_buffer].
    destruct (decide (len (aes_buffer a ++ take (Z.to_nat x) p) = 16)) as [Hfull|Hpart].
    + rewrite len_app, len_take_Z in Hfull by exact Hx.
      match goal with
      | |- context [aesCbcWriter_writeBlocks ?a1 ?q] =>
          destruct (aesCbcWriter_writeBlocks_held a1 q) as [_ Hge]
      end.
      { cbn. rewrite Hcbc. eauto. }
      rewrite Hge by (rewrite len_app, len_take_Z by exact Hx; lia).
      split; [|reflexivity]. intros Hlt. exfalso.
      subst x. destruct (decide _); lia.
    + rewrite len_app, len_take_Z in Hpart by exact Hx.
      assert (x = len p ∧ len (aes_buffer a) + len p < 16) as [Hxp Hlt]
        by (subst x; destruct (decide _); lia).
      match goal with
      | |- context [aesCbcWriter_Write_rest ?a1 ?q ?n0] =>
          destruct (aesCbcWriter_Write_rest_held a1 q n0) as [Hrest _]
      end.
      { cbn. rewrite Hcbc. eauto. }
      split; [|lia]. intros _.
      destruct Hrest as (a' & n & -> & Hc' & Hb');
        [rewrite len_drop_Z by exact Hx; lia|].
      exists a', n. split; [reflexivity|]. split; [exact Hc'|].
      split; [|lia]. rewrite Hb'. cbn [aes_buffer aes_set_buffer].
      rewrite !len_app, len_take_Z, len_drop_Z by exact Hx. lia.
  - destruct (aesCbcWriter_Write_rest_held a p 0) as [Hlt Hge];
      [rewrite Hcbc; eauto|].
    split; intros Hlen.
    + destruct Hlt as (a' & n & -> & Hc' & Hb'); [lia|].
      exists a', n. split; [reflexivity|]. split; [exact Hc'|].
      split; [|lia]. rewrite Hb', len_app. lia.
    + apply Hge. lia.
Qed.

Lemma aes_held_write_all (cs : list (list byte)) :
  ∀ (T : Z) (a : aesCbcWriter D),
    aes_held T a →
    (T + len (concat cs) < 16 →
     ∃ a', write_all a cs = Ret (a', None) ∧ aes_held (T + len (concat cs)) a') ∧
    (16 <= T + len (concat cs) → write_all a cs = Diverge).
Proof.
  induction cs as [|c cs IH]; intros T a Ha; cbn [write_all concat].
  - rewrite len_nil, Z.add_0_r. split.
    + intros _. exists a. auto.
    + destruct Ha as (_ & _ & HT). lia.
  - rewrite len_app. pose proof (len_nonneg c). pose proof (len_nonneg (concat cs)).
    destruct (aes_held_Write T a c Ha) as [Hlt Hge].
    destruct (decide (T + len c < 16)) as [Hc|Hc].
    + destruct (Hlt Hc) as (a1 & n & -> & Ha1). cbn [mbind outcome_bind].
      destruct (IH _ _ Ha1) as [IHlt IHge]. rewrite Z.add_assoc. auto.
    + rewrite Hge by lia. split; [lia|reflexivity].
Qed.

End HeldCipher.

Section HeldGzip.
Context `{E : Extern} {D : Type} `{!io_Writer D}.
Hypothesis Hnil : ∀ w : D, ∃ w', io_Write w [] = Ret (w', (0, None)).
Hypothesis Hcons : ∀ (w : D) (b : byte) (p : list byte), io_Write w (b :: p) = Diverge.

Lemma gzip_writeHeader_held (z : gzip_Writer (aesCbcWriter D)) (T : Z) :
  gz_err z = None → aes_held T (gz_w z) →
  (if gz_wroteHeader z then 10 <= T else T = 0) →
  ∃ z' T', gzip_writeHeader z = Ret z' ∧
           gz_err z' = None ∧ gz_closed z' = gz_closed z ∧
           gz_compressor z' = gz_compressor z ∧ gz_wroteHeader z' = true ∧
           aes_held T' (gz_w z') ∧ 10 <= T'.
Proof.
  intros Herr Ha HT. unfold gzip_writeHeader.
  destruct (gz_wroteHeader z) eqn:Hh.
  - exists z, T. auto 10.
  - subst T. destruct (aes_held_Write Hnil Hcons 0 (gz_w z) gzip_header Ha) as [Hlt _].
    destruct Hlt as (a' & n & -> & Ha'); [reflexivity|].
    cbn [mbind outcome_bind]. eexists _, _. split; [reflexivity|]. cbn.
    repeat (split; [first [reflexivity | exact Ha']|]). reflexivity.
Qed.

Lemma gzip_Write_held (z : gzip_Writer (aesCbcWriter D)) (p : list byte) :
  gz_held z →
  (∃ z', gzip_Write z p = Ret (z', (len p, None)) ∧ gz_held z') ∨
  gzip_Write z p = Diverge.
Proof.
  intros (Herr & Hclosed & T & Ha & HT). unfold gzip_Write. rewrite Herr.
  destruct (gzip_writeHeader_held z T Herr Ha HT)
    as (z1 & T1 & -> & Herr1 & Hclosed1 & _ & Hh1 & Ha1 & HT1).
  cbn [mbind outcome_bind]. rewrite Herr1.
  destruct (flate_Write (gz_compressor z1) p) as [c out].
  destruct (aes_held_write_all Hnil Hcons out T1 (gz_w z1) Ha1) as [Hlt Hge].
  destruct (decide (T1 + len (concat out) < 16)) as [Hc|Hc].
  - destruct (Hlt Hc) as (a' & -> & Ha'). cbn [mbind outcome_bind]. left.
    eexists. split; [reflexivity|]. split; [reflexivity|].
    split; [cbn; congruence|]. exists (T1 + len (concat out)).
    cbn. rewrite Hh1. split; [exact Ha'|].
    pose proof (len_nonneg (concat out)). lia.
  - right. rewrite Hge by lia. reflexivity.
Qed.

(** [Close] of the gzip writer hands at least the 18 bytes of the
    header and the trailer to the cipher: it does not return. *)
Lemma gzip_Close_held (z : gzip_Writer (aesCbcWriter D)) :
  gz_held z → gzip_Close z = Diverge.
Proof.
  intros (Herr & Hclosed & T & Ha & HT). unfold gzip_Close.
  rewrite Herr, Hclosed.
  match goal with
  | |- context [gzip_writeHeader ?z0] =>
      destruct (gzip_writeHeader_held z0 T eq_refl Ha HT)
        as (z1 & T1 & -> & Herr1 & _ & _ & _ & Ha1 & HT1)
  end.
  cbn [mbind outcome_bind]. rewrite Herr1.
  destruct (aes_held_write_all Hnil Hcons (flate_Close (gz_compressor z1)) T1
              (gz_w z1) Ha1) as [Hlt Hge].
  destruct (decide (T1 + len (concat (flate_Close (gz_compressor z1))) < 16))
    as [Hc|Hc].
  - destruct (Hlt Hc) as (a2 & -> & Ha2). cbn [mbind outcome_bind gz_set gz_w].
    pose proof (len_nonneg (concat (flate_Close (gz_compressor z1)))).
    match goal with
    | |- context [io_Write a2 ?q] =>
        destruct (aes_held_Write Hnil Hcons _ a2 q Ha2) as [_ Hdiv]
    end.
    rewrite Hdiv; [reflexivity|].
    change (len (le32 _ ++ le32 _)) with 8. lia.
  - rewrite Hge by lia. reflexivity.
Qed.

Lemma tee_Write_held (t : multiWriter hash_Hash (gzip_Writer (aesCbcWriter D)))
    (p : list byte) :
  gz_held (mw_2 t) →
  (∃ t', io_Write t p = Ret (t', (len p, None)) ∧ gz_held (mw_2 t')) ∨
  io_Write t p = Diverge.
Proof.
  intros Hz.
  unfold io_Write, multiWriter_io_Writer, multiWriter_Write.
  unfold io_Write, hash_io_Writer, hash_Write, gzip_io_Writer.
  cbn [mbind outcome_bind mw_1 mw_2].
  destruct (decide (len p ≠ len p)) as [Hne|_]; [contradiction|].
  destruct (gzip_Write_held (mw_2 t) p Hz) as [(z' & -> & Hz')| ->].
  - cbn [mbind outcome_bind mw_1 mw_2].
    destruct (decide (len p ≠ len p)) as [Hne|_]; [contradiction|].
    left. eexists. split; [reflexivity|]. exact Hz'.
  - right. reflexivity.
Qed.

(** [Close] of a tar framer that has written nothing, over such a tee:
    if it returns, nothing has got past the cipher. *)
Lemma tar_Close_held (t : multiWriter hash_Hash (gzip_Writer (aesCbcWriter D))) :
  gz_held (mw_2 t) →
  (∃ tw e, tar_Close (tar_NewWriter t) = Ret (tw, e) ∧ gz_held (mw_2 (tar_w tw))) ∨
  tar_Close (tar_NewWriter t) = Diverge.
Proof.
  intros Hz. unfold tar_Close, tar_NewWriter, tar_Flush.
  cbn [tar_err tar_nb tar_pad tar_w].
  destruct (decide (0 > 0)); [lia|].
  change (slice_to zeroBlock 0) with (Ret (@nil byte)). cbn [mbind outcome_bind].
  destruct (tee_Write_held t [] Hz) as [(t1 & -> & Hz1)| ->]; [|right; reflexivity].
  cbn [mbind outcome_bind write_all tar_w].
  destruct (tee_Write_held t1 zeroBlock Hz1) as [(t2 & -> & Hz2)| ->];
    [|right; reflexivity].
  cbn [mbind outcome_bind].
  destruct (tee_Write_held t2 zeroBlock Hz2) as [(t3 & -> & Hz3)| ->];
    [|right; reflexivity].
  cbn [mbind outcome_bind]. left. eexists _, _. split; [reflexivity|]. exact Hz3.
Qed.

End HeldGzip.

Section RefusedBundle.
Context `{E : Extern} `{F : Fuel}.

Lemma refused_Write_nil (w : countingWriter (bundle_cw refusingSink Empty_set)) :
  ∃ w', io_Write w [] = Ret (w', (0, None)).
Proof.
  unfold io_Write, countingWriter_io_Writer, countingWriter_Write.
  unfold io_Write, chunkWriter_io_Writer, chunkWriter_Write.
  destruct fuel; cbn; eauto.
Qed.

Lemma refused_Write_cons (w : countingWriter (bundle_cw refusingSink Empty_set))
    (b : byte) (p : list byte) :
  io_Write w (b :: p) = Diverge.
Proof.
  unfold io_Write, countingWriter_io_Writer, countingWriter_Write.
  unfold io_Write, chunkWriter_io_Writer, chunkWriter_Write.
  rewrite chunkWriter_Write_loop_hashing_refused. reflexivity.
Qed.

(** C6, at its failing input. [Close] is to close every stage, return
    the first error and leave the writer closed. Over a sink whose
    [WriteBundleFile] returns an error, [Close] of a bundle writer from
    [NewWriter] does not return, with any deflater and any bound on the
    iterations of the loop of the chunk writer: closing the gzip writer
    hands at least the 18 bytes of its header and trailer to the cipher,
    the cipher passes a block on to the chunk writer, and the loop of
    its [Write] drops the error of [newChunk] and never ends. No error
    is returned, the cipher and the chunk writer are not closed, and
    the writer is not marked closed. *)
Theorem Writer_Close_hangs_on_refusing_sink (name : string) (sz : Z)
    (rng rng' : Rng) (bw0 : Writer refusingSink Empty_set) :
  NewWriter name sz RefusingSink rng = Ret (rng', inl bw0) →
  closed bw0 = false ∧ Writer_Close bw0 = Diverge.
Proof.
  intros Hnew. apply NewWriter_Ret in Hnew as (k & v & -> & _ & _).
  split; [reflexivity|].
  unfold Writer_Close. cbn [closed fresh_Writer].
  assert (gz_held (mw_2 (tar_w (bw_tar (fresh_Writer name sz RefusingSink k v
                                         : Writer refusingSink Empty_set)))))
    as Hz0.
  { split; [reflexivity|]. split; [reflexivity|]. exists 0.
    split; [|reflexivity]. split; [cbn; eauto|]. split; [reflexivity|lia]. }
  destruct (tar_Close_held refused_Write_nil refused_Write_cons _ Hz0)
    as [(tw & e & Htar & Hz1)|Htar].
  - etransitivity; [exact (bind_Ret_eq _ _ _ Htar)|]. cbn beta iota.
    apply bind_Diverge.
    exact (gzip_Close_held refused_Write_nil refused_Write_cons _ Hz1).
  - apply bind_Diverge. exact Htar.
Qed.

End RefusedBundle.

Section RefusedWitness.
#[local] Existing Instance testExtern.
#[local] Existing Instance test_Fuel.

Lemma Writer_Close_hangs_on_refusing_sink_witness :
  closed refused_Writer = false ∧ Writer_Close refused_Writer = Diverge.
Proof.
  refine (Writer_Close_hangs_on_refusing_sink "img" 0 1 33 refused_Writer _).
  reflexivity.
Defined.

End RefusedWitness.
Lemma slice_to_all {A} (p : list A) : slice_to p (len p) = Ret p.
Proof.
  unfold slice_to. pose proof (len_nonneg p).
  destruct (decide _); [|lia]. unfold len. rewrite Nat2Z.id, firstn_all. reflexivity.
Qed.

Lemma slice_from_all {A} (p : list A) : slice_from p (len p) = Ret [].
Proof.
  unfold slice_from. pose proof (len_nonneg p).
  destruct (decide _); [|lia]. unfold len. rewrite Nat2Z.id, drop_all. reflexivity.
Qed.

Section LowerStack.
Context `{F : Fuel}.

Lemma chunkWriter_Write_loop_nil {Sk Fh : Type} `{!Sink Sk Fh} (f : nat)
    (cw : chunkWriter Sk Fh) (n : Z) :
  chunkWriter_Write_loop f cw [] n = Ret (cw, (n, None)).
Proof. destruct f; reflexivity. Qed.

(** A write that fits the open part goes to it in one piece. *)
Lemma chunkWriter_Write_loop_open (f : nat) (name filename : string)
    (d p : list byte) (n : Z) :
  len p > 0 → len d + len p <= 10 * 1024 * 1024 →
  chunkWriter_Write_loop (S f)
    {| cw_sink := {| hs_sink := ({[ filename := d ]} : gmap string (list byte)); hs_files := [] |};
       cw_name := name; cw_chunkSize := 10 * 1024 * 1024;
       cw_filename := filename;
       cw_w := Some {| hsw_name := filename; hsw_h := {| hash_written := d |};
                       hsw_w := filename |};
       cw_index := 1; cw_offset := len d |} p n
  = Ret ({| cw_sink := {| hs_sink := ({[ filename := d ++ p ]} : gmap string (list byte)); hs_files := [] |};
            cw_name := name; cw_chunkSize := 10 * 1024 * 1024;
            cw_filename := filename;
            cw_w := Some {| hsw_name := filename;
                            hsw_h := {| hash_written := d ++ p |};
                            hsw_w := filename |};
            cw_index := 1; cw_offset := len (d ++ p) |},
         (wrap64 (n + len p), None)).
Proof.
  intros Hp Hcap. pose proof (len_nonneg d) as Hd.
  cbn [chunkWriter_Write_loop].
  destruct (decide (len p > 0)); [|contradiction].
  unfold chunkWriter_bytesRemainingInChunk. cbn [cw_w cw_chunkSize cw_offset].
  rewrite wrap64_small by lia.
  destruct (decide (10 * 1024 * 1024 - len d = 0)); [lia|].
  replace (if decide (10 * 1024 * 1024 - len d > len p) then len p
           else 10 * 1024 * 1024 - len d) with (len p)
    by (destruct (decide _); lia).
  rewrite slice_to_all, slice_from_all. cbn [mbind outcome_bind].
  cbn [file_Write hashingSink_Sink hashingSinkWriter_Write hash_Write hsw_h
       hash_written cw_sink hs_sink hsw_w hsw_name hs_files accumulatingSink].
  rewrite lookup_singleton_eq. cbn [mbind outcome_bind].
  rewrite insert_singleton_eq, chunkWriter_Write_loop_nil.
  rewrite (wrap64_small (len d + len p)) by lia. rewrite len_app. reflexivity.
Qed.

(** The first write opens the first part. *)
Lemma chunkWriter_Write_loop_fresh (f : nat) (name : string) (p : list byte)
    (n : Z) :
  len p > 0 → len p <= 10 * 1024 * 1024 →
  chunkWriter_Write_loop (S (S f))
    (newChunkWriter (newHashingSink newAccumulatingSink) name (10 * 1024 * 1024)) p n
  = Ret (cnt_w (lower_state name p), (wrap64 (n + len p), None)).
Proof.
  intros Hp Hcap. remember (S f) as f' eqn:Hf'.
  cbn [chunkWriter_Write_loop].
  destruct (decide (len p > 0)); [|contradiction].
  unfold chunkWriter_bytesRemainingInChunk, chunkWriter_newChunk, newChunkWriter,
    newHashingSink, newAccumulatingSink.
  cbn [cw_w cw_chunkSize cw_offset cw_sink cw_name cw_index].
  destruct (decide (0 = 0)); [|lia].
  cbn [mbind outcome_bind WriteBundleFile hashingSink_Sink
       hashingSink_WriteBundleFile newHashingSink hs_sink hs_files
       accumulatingSink newAccumulatingSink
       cw_w cw_chunkSize cw_offset cw_sink cw_name cw_index].
  rewrite lookup_empty.
  cbn [mbind outcome_bind hs_sink hs_files
       cw_w cw_chunkSize cw_offset cw_sink cw_name cw_index].
  subst f'. rewrite insert_empty.
  change (wrap64 (0 + 1)) with 1. change 0 with (len (@nil byte)) at 1.
  rewrite (chunkWriter_Write_loop_open f name _ [] p n Hp) by (rewrite len_nil; lia).
  destruct p as [|b p]; [rewrite len_nil in Hp; lia|]. reflexivity.
Qed.

Hypothesis Hfuel : (2 <= fuel)%nat.

(** Below the cipher, a write that fits the first part is taken in
    full. *)
Lemma lower_state_Write (name : string) (data p : list byte) :
  len data + len p <= 10 * 1024 * 1024 →
  io_Write (lower_state name data) p
  = Ret (lower_state name (data ++ p), (len p, None)).
Proof.
  intros Hcap. pose proof (len_nonneg data) as Hd. pose proof (len_nonneg p) as Hp.
  unfold io_Write, countingWriter_io_Writer, countingWriter_Write.
  unfold io_Write, chunkWriter_io_Writer, chunkWriter_Write.
  destruct fuel as [|[|f]] eqn:Hf; [lia..|]. clear Hf.
  destruct p as [|b p].
  { rewrite app_nil_r, chunkWriter_Write_loop_nil. cbn [mbind outcome_bind].
    rewrite Z.add_0_r, wrap64_small.
    - destruct data; reflexivity.
    - destruct data; cbn [lower_state cnt_n newCountingWriter]; lia. }
  assert (len (b :: p) > 0) as Hpos by (unfold len; cbn [length]; lia).
  destruct data as [|d data].
  - cbn [app lower_state newCountingWriter cnt_w cnt_n].
    rewrite len_nil in Hcap.
    rewrite chunkWriter_Write_loop_fresh by lia.
    cbn [mbind outcome_bind lower_state cnt_w].
    rewrite !Z.add_0_l. rewrite !(wrap64_small (len (b :: p))) by lia.
    reflexivity.
  - cbn [lower_state cnt_w cnt_n].
    rewrite (chunkWriter_Write_loop_open (S f)) by assumption.
    cbn [mbind outcome_bind]. rewrite Z.add_0_l.
    rewrite !(wrap64_small (len (b :: p))) by lia.
    rewrite wrap64_small by lia. rewrite <- len_app. reflexivity.
Qed.

End LowerStack.
Section CipherOverOnePart.
Context `{F : Fuel}.
Hypothesis Hfuel : (2 <= fuel)%nat.

#[local] Abbreviation lower := (countingWriter (bundle_cw (gmap string (list byte)) string)).

(** The whole blocks of [q] reach the first part. *)
Lemma aesCbcWriter_writeBlocks_lower (name : string) (a : aesCbcWriter lower)
    (data q : list byte) :
  is_Some (aes_cbc a) → aes_w a = lower_state name data →
  len data + 16 * (len q / 16) <= 10 * 1024 * 1024 →
  ∃ cbc' ct,
    aesCbcWriter_writeBlocks a q
    = Ret ({| aes_w := lower_state name (data ++ ct);
              aes_buffer := aes_buffer a; aes_cbc := Some cbc' |},
           (len q / 16 * 16, None)) ∧
    len ct = 16 * (len q / 16).
Proof.
  intros [cbc Hcbc] Hw Hcap. pose proof (len_nonneg q) as Hq.
  unfold aesCbcWriter_writeBlocks. rewrite Hcbc, Hw.
  unfold slice_to. destruct (decide _) as [Hb|Hb]; [|exfalso; div_lia].
  cbn [mbind outcome_bind].
  destruct (CryptBlocks_whole cbc (take (Z.to_nat (len q / 16 * 16)) q))
    as (cbc' & ct & -> & Hct).
  { rewrite len_take_Z by exact Hb. div_lia. }
  rewrite len_take_Z in Hct by exact Hb.
  cbn [mbind outcome_bind].
  rewrite (lower_state_Write Hfuel) by lia.
  cbn [mbind outcome_bind]. exists cbc', ct.
  split; [rewrite Hct; reflexivity|lia].
Qed.

Lemma aesCbcWriter_Write_rest_lower (name : string) (a : aesCbcWriter lower)
    (data q : list byte) (n0 : Z) :
  is_Some (aes_cbc a) → aes_w a = lower_state name data →
  len data + 16 * (len q / 16) <= 10 * 1024 * 1024 →
  ∃ a' n ct,
    aesCbcWriter_Write_rest a q n0 = Ret (a', (n, None)) ∧
    is_Some (aes_cbc a') ∧
    len (aes_buffer a') = len (aes_buffer a) + len q mod 16 ∧
    aes_w a' = lower_state name (data ++ ct) ∧ len ct = 16 * (len q / 16).
Proof.
  intros Hcbc Hw Hcap. pose proof (len_nonneg q) as Hq.
  unfold aesCbcWriter_Write_rest.
  destruct (aesCbcWriter_writeBlocks_lower name a data q Hcbc Hw Hcap)
    as (cbc' & ct & -> & Hct).
  cbn [mbind outcome_bind].
  destruct (decide (len q > len q / 16 * 16)) as [Hgt|Hle].
  - unfold slice_from. destruct (decide _) as [Hb|Hb]; [|exfalso; div_lia].
    cbn [mbind outcome_bind]. eexists _, _, ct.
    split; [reflexivity|]. cbn. split; [eauto|].
    split; [|split; [reflexivity|exact Hct]].
    rewrite len_app, len_drop_Z by exact Hb. div_lia.
  - eexists _, _, ct. split; [reflexivity|]. cbn. split; [eauto|].
    split; [div_lia|split; [reflexivity|exact Hct]].
Qed.

(** A write to the cipher that fits the first part returns without
    error, whatever it counts. *)
Lemma aes_taken_Write (name : string) (T : Z) (a : aesCbcWriter lower)
    (p : list byte) :
  aes_taken name T a → 16 * ((T + len p) / 16) <= 10 * 1024 * 1024 →
  ∃ a' n, io_Write a p = Ret (a', (n, None)) ∧ aes_taken name (T + len p) a'.
Proof.
  intros (HT & Hcbc & Hbuf & data & Hw & Hdata) Hcap.
  pose proof (len_nonneg p) as Hp.
  unfold io_Write, aesCbcWriter_io_Writer, aesCbcWriter_Write.
  destruct Hcbc as [cbc Hcbc]. rewrite Hcbc.
  destruct (decide (len (aes_buffer a) > 0)) as [Hpos|Hempty].
  - set (x := if decide (16 - len (aes_buffer a) > len p) then len p
              else 16 - len (aes_buffer a)).
    assert (0 <= x <= len p) as Hx by (subst x; destruct (decide _); div_lia).
    unfold slice_to, slice_from. destruct (decide (0 <= x <= len p)); [|contradiction].
    cbn [mbind outcome_bind aes_buffer aes_set_buffer].
    destruct (decide (len (aes_buffer a ++ take (Z.to_nat x) p) = 16)) as [Hfull|Hpart].
    + rewrite len_app, len_take_Z in Hfull by exact Hx.
      match goal with
      | |- context [aesCbcWriter_writeBlocks ?a1 ?q] =>
          destruct (aesCbcWriter_writeBlocks_lower name a1 data q)
            as (cbc1 & ct1 & -> & Hct1)
      end.
      { cbn. rewrite Hcbc. eauto. }
      { exact Hw. }
      { rewrite len_app, len_take_Z by exact Hx. div_lia. }
      rewrite len_app, len_take_Z in Hct1 by exact Hx.
      cbn [mbind outcome_bind aes_buffer aes_set_buffer aes_w aes_cbc].
      match goal with
      | |- context [aesCbcWriter_Write_rest ?a3 ?q ?n0] =>
          destruct (aesCbcWriter_Write_rest_lower name a3 (data ++ ct1) q n0)
            as (a' & n & ct2 & -> & Hc' & Hb' & Hw' & Hct2)
      end.
      { cbn. eauto. }
      { reflexivity. }
      { rewrite len_app, len_drop_Z by exact Hx. div_lia. }
      rewrite len_drop_Z in Hb', Hct2 by exact Hx.
      cbn [aes_buffer aes_set_buffer] in Hb'. rewrite len_nil in Hb'.
      exists a', n. split; [reflexivity|].
      split; [lia|]. split; [exact Hc'|]. split; [div_lia|].
      exists ((data ++ ct1) ++ ct2). split; [exact Hw'|].
      rewrite !len_app. div_lia.
    + rewrite len_app, len_take_Z in Hpart by exact Hx.
      assert (x = len p ∧ len (aes_buffer a) + len p < 16) as [Hxp Hlt]
        by (subst x; destruct (decide _); div_lia).
      match goal with
      | |- context [aesCbcWriter_Write_rest ?a1 ?q ?n0] =>
          destruct (aesCbcWriter_Write_rest_lower name a1 data q n0)
            as (a' & n & ct & -> & Hc' & Hb' & Hw' & Hct)
      end.
      { cbn. rewrite Hcbc. eauto. }
      { exact Hw. }
      { rewrite len_drop_Z by exact Hx. div_lia. }
      rewrite len_drop_Z in Hb', Hct by exact Hx.
      cbn [aes_buffer aes_set_buffer] in Hb'.
      rewrite len_app, len_take_Z in Hb' by exact Hx.
      exists a', n. split; [reflexivity|].
      split; [lia|]. split; [exact Hc'|]. split; [div_lia|].
      exists (data ++ ct). split; [exact Hw'|]. rewrite len_app. div_lia.
  - destruct (aesCbcWriter_Write_rest_lower name a data p 0)
      as (a' & n & ct & -> & Hc' & Hb' & Hw' & Hct).
    { rewrite Hcbc. eauto. }
    { exact Hw. }
    { div_lia. }
    exists a', n. split; [reflexivity|].
    split; [lia|]. split; [exact Hc'|]. split; [div_lia|].
    exists (data ++ ct). split; [exact Hw'|]. rewrite len_app. div_lia.
Qed.

(** [Close] of the cipher puts one more block into the first part. *)
Lemma aes_taken_Close (name : string) (T : Z) (a : aesCbcWriter lower) :
  aes_taken name T a → 16 * (T / 16 + 1) <= 10 * 1024 * 1024 →
  ∃ a' data,
    aesCbcWriter_Close a = Ret (a', None) ∧ aes_cbc a' = None ∧
    aes_w a' = lower_state name data ∧ len data = 16 * (T / 16 + 1).
Proof.
  intros (HT & Hcbc & Hbuf & data & Hw & Hdata) Hcap.
  unfold aesCbcWriter_Close. destruct Hcbc as [cbc Hcbc]. rewrite Hcbc.
  cbn [aes_buffer aes_set_buffer].
  match goal with
  | |- context [aesCbcWriter_writeBlocks ?a1 ?q] =>
      assert (len q = 16) as Hq;
      [|destruct (aesCbcWriter_writeBlocks_lower name a1 data q)
          as (cbc1 & ct1 & -> & Hct1)]
  end.
  { rewrite len_app, len_replicate. unfold len in *. div_lia. }
  { cbn. rewrite Hcbc. eauto. }
  { exact Hw. }
  { rewrite Hq. change (16 / 16) with 1. lia. }
  cbn [mbind outcome_bind aes_w aes_buffer]. rewrite Hq in Hct1.
  change (16 / 16) with 1 in Hct1.
  eexists _, (data ++ ct1). split; [reflexivity|]. cbn.
  split; [reflexivity|]. split; [reflexivity|]. rewrite len_app. lia.
Qed.

Lemma aes_taken_write_all (name : string) (cs : list (list byte)) :
  ∀ (T : Z) (a : aesCbcWriter lower),
    aes_taken name T a →
    16 * ((T + len (concat cs)) / 16) <= 10 * 1024 * 1024 →
    ∃ a', write_all a cs = Ret (a', None) ∧
          aes_taken name (T + len (concat cs)) a'.
Proof.
  induction cs as [|c cs IH]; intros T a Ha Hcap; cbn [write_all concat].
  - exists a. split; [reflexivity|]. cbn [concat]. rewrite len_nil, Z.add_0_r.
    exact Ha.
  - cbn [concat] in Hcap. rewrite len_app in Hcap.
    pose proof (len_nonneg c). pose proof (len_nonneg (concat cs)).
    assert (0 <= T) as HT by (destruct Ha; assumption).
    destruct (aes_taken_Write name T a c Ha) as (a1 & n & -> & Ha1); [div_lia|].
    cbn [mbind outcome_bind].
    destruct (IH (T + len c) a1 Ha1) as (a' & -> & Ha'); [rewrite <- Z.add_assoc; exact Hcap|].
    exists a'. split; [reflexivity|]. rewrite len_app, Z.add_assoc. exact Ha'.
Qed.

End CipherOverOnePart.

Section GzipOverOnePart.
Context `{E : Extern} `{F : Fuel}.
Hypothesis Hfuel : (2 <= fuel)%nat.

#[local] Abbreviation lower := (countingWriter (bundle_cw (gmap string (list byte)) string)).




End GzipOverOnePart.

(** ** [Close] stage by stage *)

Section CloseForward.
Context `{E : Extern} `{F : Fuel} {Sk Fh : Type} `{!Sink Sk Fh}.


End CloseForward.

(** ** The bundle of an empty image (C4) *)

Section EmptyImage.
Context `{E : Extern} `{F : Fuel}.
Hypothesis Hfuel : (2 <= fuel)%nat.

#[local] Abbreviation lower := (countingWriter (bundle_cw (gmap string (list byte)) string)).


Lemma gz_taken_nonneg (name : string) (T : Z) (c : flate) (h : bool)
    (z : gzip_Writer (aesCbcWriter lower)) : gz_taken name T c h z → 0 <= T.
Proof. intros (_ & _ & _ & _ & HT & _). exact HT. Qed.



End EmptyImage.

Section EmptyImageTests.
#[local] Existing Instance testExtern.
#[local] Existing Instance test_Fuel.



End EmptyImageTests.
(** * Further properties of the stages *)

Section MoreOfTheCipher.
Context {D : Type} `{!io_Writer D}.

(** X2. A cipher that was closed without error stays closed: [Write]
    returns 0 and an error, [Close] returns an error, and neither
    touches the writer below or the buffer. *)
Theorem aesCbcWriter_closed_is_final (a a' : aesCbcWriter D) (p : list byte) :
  aesCbcWriter_Close a = Ret (a', None) →
  aesCbcWriter_Write a' p
    = Ret (a', (0, Some "AES-128-CBC writer is already closed"%string)) ∧
  aesCbcWriter_Close a'
    = Ret (a', Some "AES-128-CBC writer is already closed"%string).
Proof.
  unfold aesCbcWriter_Close at 1. intros H.
  destruct (aes_cbc a); [|discriminate].
  apply bind_Ret in H as ([a1 [n1 err]] & _ & H).
  destruct err; [discriminate|]. injection H as <-.
  split; reflexivity.
Qed.

End MoreOfTheCipher.

Section MoreOfTheChunkWriter.
Context {Sk Fh : Type} `{!Sink Sk Fh}.

(** X5. Over a sink whose files keep the contract of [io.Writer], a
    [Write] of the chunk writer that returns no error has counted the
    whole slice. *)
Theorem chunkWriter_Write_counts_all (fuel : nat) (cw cw' : chunkWriter Sk Fh)
    (p : list byte) (n : Z) :
  Sink_conforming Sk Fh → len p < 2 ^ 63 →
  chunkWriter_Write fuel cw p = Ret (cw', (n, None)) →
  n = len p.
Proof.
  intros Hconf Hs H. apply (chunkWriter_Write_loop_count Hconf) in H.
  pose proof (len_nonneg p). destruct (decide (len p > 0)).
  - rewrite H. apply wrap64_small. lia.
  - lia.
Qed.

(** X6. [Close] of the chunk writer leaves no part open, whatever the
    close of the part returned, and a second [Close] does nothing. *)
Theorem chunkWriter_Close_twice (cw cw' : chunkWriter Sk Fh) (e : option error) :
  chunkWriter_Close cw = Ret (cw', e) →
  cw_w cw' = None ∧ chunkWriter_Close cw' = Ret (cw', None).
Proof.
  unfold chunkWriter_Close at 1, chunkWriter_closeChunk. intros H.
  destruct (cw_w cw) as [w|] eqn:Hw.
  - apply bind_Ret in H as ([s err] & _ & H). injection H as <- _.
    split; reflexivity.
  - injection H as <- _. split; [exact Hw|].
    unfold chunkWriter_Close. rewrite Hw. reflexivity.
Qed.

(** X8. [Write] of a file of the hashing sink hashes the slice before it
    delegates: the hash has taken the whole slice whatever the file
    below returns, also for a short write or an error; nothing is
    recorded before the file is closed. *)
Theorem hashingSinkWriter_Write_hashes_first (hs hs' : hashingSink Sk)
    (hsw hsw' : hashingSinkWriter Fh) (p : list byte) (r : wres) :
  hashingSinkWriter_Write hs hsw p = Ret (hs', hsw', r) →
  hash_written (hsw_h hsw') = hash_written (hsw_h hsw) ++ p ∧
  hsw_name hsw' = hsw_name hsw ∧ hs_files hs' = hs_files hs ∧
  ∃ s w, file_Write (hs_sink hs) (hsw_w hsw) p = Ret (s, w, r) ∧
         hs_sink hs' = s ∧ hsw_w hsw' = w.
Proof.
  unfold hashingSinkWriter_Write, hash_Write. intros H.
  apply bind_Ret in H as ([[s w] r'] & Hw & H). injection H as <- <- <-.
  cbn in *. repeat split; try reflexivity. eauto.
Qed.

End MoreOfTheChunkWriter.

Section MoreOfTheManifest.
Context `{E : Extern} `{F : Fuel} {Sk Fh : Type} `{!Sink Sk Fh}.

Lemma Writer_parts_imap (files : list hashingSinkFile) :
  ∀ i : Z,
    Writer_parts i files
    = imap (λ k file, {| part_Index := i + Z.of_nat k;
                         part_Filename := hsf_filename file;
                         part_Digest := {| va_Algorithm := "SHA1";
                                           va_Value := hex (hsf_hash file) |} |})
        files.
Proof.
  induction files as [|file files IH]; intros i; cbn [Writer_parts imap].
  - reflexivity.
  - rewrite Z.add_0_r, IH. f_equal. apply imap_ext. intros k f _. cbn.
    f_equal. lia.
Qed.

(** X7. [populateManifest] appends one part per file of the hashing
    sink, in the order in which the files were closed, numbered from 0
    by their place in that order, each with its name and the SHA-1 of
    its bytes in hexadecimal; the count is the number of files, and the
    sizes are the two counters. Parts that the manifest held before
    are kept in front and are not counted. *)
Theorem Writer_populateManifest_parts {BDM : Type} (bw : Writer Sk Fh)
    (m : manifest BDM) :
  image_PartsContainer_Parts (m_Image (Writer_populateManifest bw m))
  = image_PartsContainer_Parts (m_Image m)
    ++ imap (λ k file, {| part_Index := Z.of_nat k;
                          part_Filename := hsf_filename file;
                          part_Digest := {| va_Algorithm := "SHA1";
                                            va_Value := hex (hsf_hash file) |} |})
         (hs_files (bw_hs bw)) ∧
  image_PartsContainer_Count (m_Image (Writer_populateManifest bw m))
  = len (hs_files (bw_hs bw)) ∧
  image_Size (m_Image (Writer_populateManifest bw m)) = cnt_n (trueSize bw) ∧
  image_BundledSize (m_Image (Writer_populateManifest bw m))
  = cnt_n (bw_bundledSize bw).
Proof.
  unfold Writer_populateManifest. cbn. rewrite Writer_parts_imap.
  repeat split; reflexivity.
Qed.

End MoreOfTheManifest.

Section MoreOfTheSecrets.
Context `{C : Crypto} {BDM : Type}.

(** X10. [EncryptSecrets] writes to the four encrypted fields of the
    image and to nothing else, whether it returns an error or not. *)
Theorem manifest_EncryptSecrets_touches_secrets_only (m : manifest BDM)
    (key iv : list byte) (region : string) (userKey : rsa_PublicKey) (rng : Rng) :
  let m' := (manifest_EncryptSecrets m key iv region userKey rng).2.1 in
  m_Bundler m' = m_Bundler m ∧
  m_MachineConfiguration m' = m_MachineConfiguration m ∧
  image_Name (m_Image m') = image_Name (m_Image m) ∧
  image_User (m_Image m') = image_User (m_Image m) ∧
  image_Type (m_Image m') = image_Type (m_Image m) ∧
  image_Digest (m_Image m') = image_Digest (m_Image m) ∧
  image_Size (m_Image m') = image_Size (m_Image m) ∧
  image_BundledSize (m_Image m') = image_BundledSize (m_Image m) ∧
  image_PartsContainer_Count (m_Image m') = image_PartsContainer_Count (m_Image m) ∧
  image_PartsContainer_Parts (m_Image m') = image_PartsContainer_Parts (m_Image m).
Proof.
  cbv zeta. unfold manifest_EncryptSecrets.
  destruct (CertificateForEC2Region region) as [cert|?]; [|cbn; auto 10].
  destruct (cert_rsa_PublicKey cert) as [ec2key|]; [|cbn; auto 10].
  destruct (rsa_EncryptPKCS1v15 rng ec2key _) as [r1 [c1|?]]; [|cbn; auto 10].
  destruct (rsa_EncryptPKCS1v15 r1 userKey _) as [r2 [c2|?]]; [|cbn; auto 10].
  destruct (rsa_EncryptPKCS1v15 r2 ec2key _) as [r3 [c3|?]]; [|cbn; auto 10].
  destruct (rsa_EncryptPKCS1v15 r3 userKey _) as [r4 [c4|?]]; cbn; auto 10.
Qed.

End MoreOfTheSecrets.

Section MoreOfNewWriter.
Context `{E : Extern} `{F : Fuel} {Sk Fh : Type} `{!Sink Sk Fh}.

(** X9. [NewWriter] returns in every case, and it returns an error only
    when a read of the random source fails: the key and the IV have 16
    bytes, so that the constructor of the cipher cannot fail. The
    writer is as [fresh_Writer] describes it: nothing is counted, no
    part is open and the sink is untouched. *)
Theorem NewWriter_fails_only_with_the_random_source (name : string) (sz : Z)
    (sink : Sk) (rng : Rng) :
  NewWriter name sz sink rng
  = (let '(r1, x1) := rand_Read rng 16 in
     match x1 return outcome (Rng * (Writer Sk Fh + error)) with
     | inr err => Ret (r1, inr err)
     | inl k =>
         let '(r2, x2) := rand_Read r1 16 in
         match x2 return outcome (Rng * (Writer Sk Fh + error)) with
         | inr err => Ret (r2, inr err)
         | inl v => Ret (r2, inl (fresh_Writer name sz sink k v))
         end
     end) ∧
  ∀ k v, hs_sink (bw_hs (fresh_Writer name sz sink k v : Writer Sk Fh)) = sink ∧
         cw_w (bw_cw (fresh_Writer name sz sink k v : Writer Sk Fh)) = None ∧
         cnt_n (bw_bundledSize (fresh_Writer name sz sink k v : Writer Sk Fh)) = 0.
Proof.
  split; [|intros k v; repeat split].
  unfold NewWriter, rand_Read.
  destruct (rand_err rng); [reflexivity|].
  pose proof (rand_bytes_length 16 rng) as Hk.
  destruct (rand_bytes 16 rng) as [r1 k]. cbn in Hk.
  destruct (rand_err r1); [reflexivity|].
  pose proof (rand_bytes_length 16 r1) as Hv.
  destruct (rand_bytes 16 r1) as [r2 v]. cbn in Hv.
  unfold newAes128CbcWriter, aes_NewCipher, cipher_NewCBCEncrypter.
  destruct (decide _) as [_|Hno]; [|exfalso; apply Hno; auto].
  destruct (decide (length v = 16%nat)); [|contradiction].
  reflexivity.
Qed.

End MoreOfNewWriter.

Section MoreOfTheFirstPart.
Context `{F : Fuel}.
Hypothesis Hfuel : (2 <= fuel)%nat.

Lemma lower_state_write_all (name : string) (cs : list (list byte)) :
  ∀ data : list byte,
    len data + len (concat cs) <= 10 * 1024 * 1024 →
    write_all (lower_state name data) cs
    = Ret (lower_state name (data ++ concat cs), None).
Proof.
  induction cs as [|c cs IH]; intros data Hcap; cbn [write_all concat].
  - rewrite app_nil_r. reflexivity.
  - cbn [concat] in Hcap. rewrite len_app in Hcap.
    pose proof (len_nonneg c). pose proof (len_nonneg (concat cs)).
    rewrite (lower_state_Write Hfuel) by lia. cbn [mbind outcome_bind].
    rewrite IH by (rewrite len_app; lia). rewrite app_assoc. reflexivity.
Qed.

(** X4. Below the cipher, over an empty [accumulatingSink]: writes of
    at most 10 MiB in all return without error and are counted in full;
    the first of them that is not empty creates <name>.part.0, and that
    file holds the bytes of all of them in order. [Close] of the chunk
    writer then returns without error and the hashing sink records that
    one file with the SHA-1 of its bytes. *)
Theorem chunkWriter_first_part (name : string) (cs : list (list byte)) :
  0 < len (concat cs) <= 10 * 1024 * 1024 →
  ∃ c cw,
    write_all (newCountingWriter
                 (newChunkWriter (newHashingSink newAccumulatingSink) name
                    (10 * 1024 * 1024))) cs
    = Ret (c, None) ∧
    cnt_n c = len (concat cs) ∧
    hs_sink (cw_sink (cnt_w c)) = {[ name +:+ ".part.0" := concat cs ]} ∧
    hs_files (cw_sink (cnt_w c)) = [] ∧
    chunkWriter_Close (cnt_w c) = Ret (cw, None) ∧
    hs_sink (cw_sink cw) = {[ name +:+ ".part.0" := concat cs ]} ∧
    hs_files (cw_sink cw)
    = [{| hsf_filename := name +:+ ".part.0"; hsf_hash := sha1 (concat cs) |}].
Proof.
  intros [Hpos Hcap].
  pose proof (lower_state_write_all name cs []) as Hw.
  rewrite len_nil in Hw. specialize (Hw ltac:(lia)). cbn [app] in Hw.
  destruct (concat cs) as [|b data] eqn:Hcs; [unfold len in *; cbn in *; lia|].
  eexists _, _. split; [exact Hw|]. repeat split; reflexivity.
Qed.

(** X3. The cipher over these stages, from [newAes128CbcWriter] with a
    key and an IV of 16 bytes: writes of L bytes in all and [Close]
    return without error, and the first part then holds 16 * (L / 16 + 1)
    bytes, the L bytes padded to the next whole block, with a block of
    padding when L is a multiple of 16. *)
Theorem aesCbcWriter_pads_to_whole_blocks (name : string) (key iv : list byte)
    (cs : list (list byte)) :
  length key = 16%nat → length iv = 16%nat →
  16 * (len (concat cs) / 16 + 1) <= 10 * 1024 * 1024 →
  ∃ a0 a1 a2 data,
    newAes128CbcWriter
      (newCountingWriter
         (newChunkWriter (newHashingSink newAccumulatingSink) name
            (10 * 1024 * 1024))) key iv
    = Ret (inl a0) ∧
    write_all a0 cs = Ret (a1, None) ∧
    aesCbcWriter_Close a1 = Ret (a2, None) ∧
    aes_cbc a2 = None ∧
    cnt_n (aes_w a2) = 16 * (len (concat cs) / 16 + 1) ∧
    hs_sink (cw_sink (cnt_w (aes_w a2))) = {[ name +:+ ".part.0" := data ]} ∧
    len data = 16 * (len (concat cs) / 16 + 1).
Proof.
  intros Hk Hv Hcap. pose proof (len_nonneg (concat cs)) as Hcs.
  unfold newAes128CbcWriter, aes_NewCipher, cipher_NewCBCEncrypter.
  destruct (decide _) as [_|Hno]; [|exfalso; apply Hno; auto].
  destruct (decide (length iv = 16%nat)); [|contradiction].
  cbn [mbind outcome_bind cbc_key].
  match goal with
  | |- ∃ a0 a1 a2 data, Ret (inl ?a) = _ ∧ _ =>
      assert (aes_taken name 0 a) as Ha0; [|exists a]
  end.
  { split; [lia|]. split; [cbn; eauto|]. split; [reflexivity|].
    exists []. split; reflexivity. }
  destruct (aes_taken_write_all Hfuel name cs 0 _ Ha0) as (a1 & Hw & Ha1);
    [div_lia|].
  rewrite Z.add_0_l in Ha1.
  destruct (aes_taken_Close Hfuel name _ a1 Ha1 Hcap)
    as (a2 & data & Hclose & Hcbc & Hw2 & Hlen).
  exists a1, a2, data. split; [reflexivity|]. split; [exact Hw|].
  split; [exact Hclose|]. split; [exact Hcbc|].
  unfold bundle_cw in *. rewrite Hw2.
  destruct data as [|b data]; [rewrite len_nil in Hlen; div_lia|].
  rewrite <- Hlen. repeat split; reflexivity.
Qed.

End MoreOfTheFirstPart.

(** ** The properties above, on the fixtures *)

Section MoreWitnesses.
#[local] Existing Instance testExtern.
#[local] Existing Instance test_Fuel.

Lemma aesCbcWriter_closed_is_final_witness :
  aesCbcWriter_Write test_closed_cipher (bytes_of_string "abc")
    = Ret (test_closed_cipher,
           (0, Some "AES-128-CBC writer is already closed"%string)) ∧
  aesCbcWriter_Close test_closed_cipher
    = Ret (test_closed_cipher, Some "AES-128-CBC writer is already closed"%string).
Proof.
  refine (aesCbcWriter_closed_is_final (test_aes []) test_closed_cipher
            (bytes_of_string "abc") _).
  unfold test_closed_cipher. returned_Ret.
Defined.

Lemma chunkWriter_Write_counts_all_witness : 3 = len (bytes_of_string "abc").
Proof.
  refine (chunkWriter_Write_counts_all 10
            (newChunkWriter newAccumulatingSink "test" 100) test_chunk_written
            (bytes_of_string "abc") 3 accumulatingSink_conforming _ _).
  - reflexivity.
  - unfold test_chunk_written. returned_Ret.
Defined.

Lemma chunkWriter_Close_twice_witness :
  cw_w test_chunk_closed = None ∧
  chunkWriter_Close test_chunk_closed = Ret (test_chunk_closed, None).
Proof.
  refine (chunkWriter_Close_twice test_chunk_written test_chunk_closed None _).
  unfold test_chunk_closed. returned_Ret.
Defined.

Lemma hashingSinkWriter_Write_hashes_first_witness :
  hash_written (hsw_h {| hsw_name := "abc"; hsw_h := {| hash_written := bytes_of_string "abc" |};
                         hsw_w := "abc"%string |})
  = hash_written (hsw_h test_hashingSinkWriter) ++ bytes_of_string "abc" ∧
  hsw_name {| hsw_name := "abc"; hsw_h := {| hash_written := bytes_of_string "abc" |};
              hsw_w := "abc"%string |}
  = hsw_name test_hashingSinkWriter ∧
  hs_files {| hs_sink := {| leaky_files := {[ "abc"%string := bytes_of_string "abc" ]} |};
              hs_files := [] |}
  = hs_files test_hashingSink ∧
  ∃ s w, file_Write (hs_sink test_hashingSink) (hsw_w test_hashingSinkWriter)
           (bytes_of_string "abc") = Ret (s, w, (3, None)) ∧
         hs_sink {| hs_sink := {| leaky_files := {[ "abc"%string := bytes_of_string "abc" ]} |};
                    hs_files := [] |} = s ∧
         hsw_w {| hsw_name := "abc"; hsw_h := {| hash_written := bytes_of_string "abc" |};
                  hsw_w := "abc"%string |} = w.
Proof.
  refine (hashingSinkWriter_Write_hashes_first test_hashingSink _
            test_hashingSinkWriter _ (bytes_of_string "abc") (3, None) _).
  reflexivity.
Defined.

Lemma chunkWriter_first_part_witness :
  ∃ c cw,
    write_all (newCountingWriter
                 (newChunkWriter (newHashingSink newAccumulatingSink) "img"
                    (10 * 1024 * 1024))) [bytes_of_string "abc"]
    = Ret (c, None) ∧
    cnt_n c = len (concat [bytes_of_string "abc"]) ∧
    hs_sink (cw_sink (cnt_w c))
      = {[ "img" +:+ ".part.0" := concat [bytes_of_string "abc"] ]} ∧
    hs_files (cw_sink (cnt_w c)) = [] ∧
    chunkWriter_Close (cnt_w c) = Ret (cw, None) ∧
    hs_sink (cw_sink cw)
      = {[ "img" +:+ ".part.0" := concat [bytes_of_string "abc"] ]} ∧
    hs_files (cw_sink cw)
    = [{| hsf_filename := "img" +:+ ".part.0";
          hsf_hash := sha1 (concat [bytes_of_string "abc"]) |}].
Proof.
  refine (chunkWriter_first_part _ "img" [bytes_of_string "abc"] _).
  - unfold fuel, test_Fuel. lia.
  - split; reflexivity || (vm_compute; discriminate).
Defined.

Lemma aesCbcWriter_pads_to_whole_blocks_witness :
  ∃ a0 a1 a2 data,
    newAes128CbcWriter
      (newCountingWriter
         (newChunkWriter (newHashingSink newAccumulatingSink) "img"
            (10 * 1024 * 1024))) test_key test_iv
    = Ret (inl a0) ∧
    write_all a0 [bytes_of_string "abc"] = Ret (a1, None) ∧
    aesCbcWriter_Close a1 = Ret (a2, None) ∧
    aes_cbc a2 = None ∧
    cnt_n (aes_w a2) = 16 * (len (concat [bytes_of_string "abc"]) / 16 + 1) ∧
    hs_sink (cw_sink (cnt_w (aes_w a2))) = {[ "img" +:+ ".part.0" := data ]} ∧
    len data = 16 * (len (concat [bytes_of_string "abc"]) / 16 + 1).
Proof.
  refine (aesCbcWriter_pads_to_whole_blocks _ "img" test_key test_iv
            [bytes_of_string "abc"] _ _ _).
  - unfold fuel, test_Fuel. lia.
  - reflexivity.
  - reflexivity.
  - vm_compute. discriminate.
Defined.

End MoreWitnesses.
